(** * situlogger: a day-rotating file handler and a JSON log formatter

    A shallow embedding of [situlogger/__init__.py] and the proofs of its
    specification.  The file has two parts: the definitions (the Python
    values the formatter handles, the object store, the regular expression
    of [parse], the formatter, the file system and the rotating handler),
    and then the theorems.

    Modelling conventions.
    - A Python [dict] is an object: it lives in the [store] and values refer
      to it by location ([VDict l]), so two names for one mapping alias.
      Its content is an association list in insertion order.
    - A log record is the location of its [__dict__].
    - Exceptions are values of [exn]; a computation returns [inl e] when it
      raises [e].  The store a computation leaves behind is returned in both
      cases: what was mutated before the exception stays mutated.
    - Floating point values are left out of the value universe. *)

From Stdlib Require Import ZArith String Ascii DecimalString Lia.
From stdpp Require Import base option strings list gmap.

Open Scope string_scope.
Open Scope list_scope.

(* ===================================================================== *)
(** * Part I: definitions *)
(* ===================================================================== *)

(** ** Exceptions *)

Inductive errno := EEXIST | EACCES | ENOENT | ENOSPC | EROFS | EMFILE.

#[global] Instance errno_eq_dec : EqDecision errno.
Proof. solve_decision. Defined.

Inductive exn :=
| TypeError (what : string)
| ValueError (what : string)
| AttributeError (name : string)
| RecursionError
| OSError (e : errno)
| StaleReference (l : nat).   (* a location outside the store: never raised on a well-formed store *)

(** ** Python values *)

Abbreviation loc := nat (only parsing).

(** Dictionary keys: strings, and the numeric keys [merge_record_extra]
    makes room for. *)
Inductive key := KStr (s : string) | KInt (z : Z).

#[global] Instance key_eq_dec : EqDecision key.
Proof. solve_decision. Defined.

#[warnings="-register-all"]
Inductive pyval :=
| VNone
| VBool (b : bool)
| VInt (z : Z)
| VStr (s : string)
| VList (xs : list pyval)
| VTuple (xs : list pyval)
| VDict (l : loc)                       (* a dict object, by reference *)
| VDate (y m d : Z)                     (* datetime.date *)
| VDatetime (y m d hh mi ss us : Z)     (* datetime.datetime, naive *)
| VTime (hh mi ss us : Z)               (* datetime.time, naive *)
| VTraceback (frames : list string)     (* a traceback; [frames] is traceback.format_tb of it *)
| VException (cls message : string)     (* an Exception instance of class [cls]; [message] is str of it *)
| VObject (text : string).              (* any other object; [text] is str of it *)

(** Insertion-ordered mappings (dict, OrderedDict). *)
Abbreviation odict := (list (key * pyval)) (only parsing).

Fixpoint od_get (k : key) (d : odict) : option pyval :=
  match d with
  | [] => None
  | (k', v) :: d' => if decide (k' = k) then Some v else od_get k d'
  end.

(** [d[k] = v]: an existing key keeps its position, a new key goes last. *)
Fixpoint od_set (k : key) (v : pyval) (d : odict) : odict :=
  match d with
  | [] => [(k, v)]
  | (k', v') :: d' => if decide (k' = k) then (k, v) :: d' else (k', v') :: od_set k v d'
  end.

Definition od_keys (d : odict) : list key := d.*1.

Definition od_mem (k : key) (d : odict) : bool :=
  match od_get k d with Some _ => true | None => false end.

(** [dict(zip(ks, vs))] *)
Definition dict_zip (ks : list key) (vs : list pyval) : odict :=
  fold_left (fun d kv => od_set kv.1 kv.2 d) (zip ks vs) [].

(** [d.update(src)] on contents. *)
Definition od_update (d src : odict) : odict :=
  fold_left (fun acc kv => od_set kv.1 kv.2 acc) src d.

(** ** The object store and the monad of effectful code *)

Abbreviation store := (list (list (key * pyval))) (only parsing).

Definition M (A : Type) : Type := store -> (exn + A) * store.

Definition ret {A} (a : A) : M A := fun h => (inr a, h).
Definition raise {A} (e : exn) : M A := fun h => (inl e, h).
Definition bind {A B} (m : M A) (f : A -> M B) : M B :=
  fun h => match m h with
           | (inr a, h') => f a h'
           | (inl e, h') => (inl e, h')
           end.

#[global] Instance M_ret : MRet M := @ret.
#[global] Instance M_bind : MBind M := fun A B f m => bind m f.

(** Lift a read-only, fallible function of the store. *)
Definition reading {A} (f : store -> exn + A) : M A :=
  fun h => (f h, h).

(** [{}] / [OrderedDict()]: a fresh dict object. *)
Definition new_dict (d : odict) : M loc :=
  fun h => (inr (List.length h), h ++ [d]).

Definition dict_items (l : loc) : M odict :=
  fun h => match h !! l with
           | Some d => (inr d, h)
           | None => (inl (StaleReference l), h)
           end.

(** [d.get(k)] with the default [None]. *)
Definition dict_get (l : loc) (k : key) : M pyval :=
  d ← dict_items l; ret (default VNone (od_get k d)).

(** [d[k] = v] *)
Definition dict_setitem (l : loc) (k : key) (v : pyval) : M unit :=
  fun h => match h !! l with
           | Some d => (inr tt, <[l := od_set k v d]> h)
           | None => (inl (StaleReference l), h)
           end.

(** [for x in xs: body x] *)
Fixpoint for_each {A} (xs : list A) (body : A -> M unit) : M unit :=
  match xs with
  | [] => ret tt
  | x :: xs' => body x;; for_each xs' body
  end.

(** [d.update(src)] *)
Definition dict_update (d src : loc) : M unit :=
  items ← dict_items src;
  for_each items (fun kv => dict_setitem d kv.1 kv.2).

(** Attribute access on an instance whose [__dict__] is at [obj]. *)
Definition getattr (obj : loc) (name : string) : M pyval :=
  d ← dict_items obj;
  match od_get (KStr name) d with
  | Some v => ret v
  | None => raise (AttributeError name)
  end.

Definition setattr (obj : loc) (name : string) (v : pyval) : M unit :=
  dict_setitem obj (KStr name) v.

(** Truth value of an object, as [if x:] and [not x] take it. *)
Definition truthy (h : store) (v : pyval) : bool :=
  match v with
  | VNone => false
  | VBool b => b
  | VInt z => negb (z =? 0)%Z
  | VStr s => negb (String.eqb s "")
  | VList xs | VTuple xs => match xs with [] => false | _ => true end
  | VDict l => match h !! l with Some [] => false | _ => true end
  | _ => true
  end.

Definition is_true (v : pyval) : M bool := reading (fun h => inr (truthy h v)).

(** ** The regular expression of [parse]: [\((.+?)\)]

    [findall] scans left to right for non-overlapping matches and returns
    the group of each.  The [re.IGNORECASE] flag has no effect: the
    expression has no letter. *)

(** [.]: any character but the line feed. *)
Definition dot (c : ascii) : bool := negb (Ascii.eqb c "010").

(** The lazy repetition after the first character of the group, closed by
    [\)]: it stops at the first [")"] and fails on a line feed or at the
    end of the text. *)
Fixpoint lazy_rest (s : string) : option string :=
  match s with
  | EmptyString => None
  | String c s' =>
      if Ascii.eqb c ")" then Some EmptyString
      else if dot c then String c <$> lazy_rest s'
      else None
  end.

(** [(.+?)\)] at the head of [s]: the group has at least one character,
    whatever it is (a [")"] included). *)
Definition match_group (s : string) : option string :=
  match s with
  | EmptyString => None
  | String c s' => if dot c then String c <$> lazy_rest s' else None
  end.

(** [findall]: [skip] counts the characters still covered by the last
    match. *)
Fixpoint findall_from (skip : nat) (s : string) : list string :=
  match s with
  | EmptyString => []
  | String c s' =>
      match skip with
      | S k => findall_from k s'
      | O =>
          if Ascii.eqb c "(" then
            match match_group s' with
            | Some g => g :: findall_from (S (String.length g)) s'
            | None => findall_from 0 s'
            end
          else findall_from 0 s'
      end
  end.

Definition findall (s : string) : list string := findall_from 0 s.



(** ** Text helpers *)

Definition str_of_Z (z : Z) : string := NilEmpty.string_of_int (Z.to_int z).

Fixpoint zeros (n : nat) : string :=
  match n with O => "" | S n' => String "0" (zeros n') end.

(** ["%0<w>d" % z] for a non-negative [z]. *)
Definition pad (w : nat) (z : Z) : string :=
  let s := str_of_Z z in zeros (w - String.length s) +:+ s.

Fixpoint join (sep : string) (xs : list string) : string :=
  match xs with
  | [] => ""
  | [x] => x
  | x :: xs' => x +:+ sep +:+ join sep xs'
  end.

Definition is_space (c : ascii) : bool :=
  let n := nat_of_ascii c in
  (n =? 32)%nat || ((9 <=? n)%nat && (n <=? 13)%nat) || ((28 <=? n)%nat && (n <=? 31)%nat)
  || (n =? 133)%nat || (n =? 160)%nat.

Fixpoint lstrip (s : string) : string :=
  match s with
  | String c s' => if is_space c then lstrip s' else s
  | EmptyString => EmptyString
  end.

Fixpoint rstrip (s : string) : string :=
  match s with
  | EmptyString => EmptyString
  | String c s' =>
      match rstrip s' with
      | EmptyString => if is_space c then EmptyString else String c EmptyString
      | s'' => String c s''
      end
  end.

(** [s.strip()] *)
Definition strip (s : string) : string := rstrip (lstrip s).

(** [isoformat()] of dates and times. *)
Definition iso_date (y m d : Z) : string :=
  pad 4 y +:+ "-" +:+ pad 2 m +:+ "-" +:+ pad 2 d.

Definition iso_time (hh mi ss us : Z) : string :=
  pad 2 hh +:+ ":" +:+ pad 2 mi +:+ ":" +:+ pad 2 ss
  +:+ (if (us =? 0)%Z then "" else "." +:+ pad 6 us).


(** ** Calendar and clock arithmetic

    Timestamps are exact counts of microseconds since the epoch, UTC; a
    second count with a fraction is its microsecond value.  The local zone
    has one fixed offset from UTC (no daylight saving change is modelled).
    A naive [datetime] is its proleptic Gregorian ordinal (1 is
    0001-01-01) and the microseconds elapsed in the day; year, month and
    day are derived from the ordinal as [datetime] does. *)

Definition usec : Z := 1000000.
Definition day_seconds : Z := 86400.
Definition epoch_ordinal : Z := 719163.     (* date(1970, 1, 1).toordinal() *)

Definition is_leap (y : Z) : bool :=
  ((y mod 4 =? 0) && (negb (y mod 100 =? 0) || (y mod 400 =? 0)))%Z.

Definition days_before_month_tbl (m : Z) : Z :=
  match m with
  | 1 => 0 | 2 => 31 | 3 => 59 | 4 => 90 | 5 => 120 | 6 => 151
  | 7 => 181 | 8 => 212 | 9 => 243 | 10 => 273 | 11 => 304 | 12 => 334
  | _ => 0
  end%Z.

Definition days_in_month_tbl (m : Z) : Z :=
  match m with
  | 2 => 28
  | 4 | 6 | 9 | 11 => 30
  | _ => 31
  end%Z.

Definition leap_day (after_feb leap : bool) : Z := if after_feb && leap then 1%Z else 0%Z.

(** [datetime._ymd2ord] *)
Definition ymd2ord (y m d : Z) : Z :=
  (let y1 := y - 1 in
   (y1 * 365 + y1 / 4 - y1 / 100 + y1 / 400)
   + (days_before_month_tbl m + leap_day (2 <? m) (is_leap y))
   + d)%Z.

(** [datetime._ord2ymd] *)
Definition ord2ymd (n : Z) : Z * Z * Z :=
  (let n := n - 1 in
   let n400 := n / 146097 in let n := n mod 146097 in
   let year := n400 * 400 + 1 in
   let n100 := n / 36524 in let n := n mod 36524 in
   let n4 := n / 1461 in let n := n mod 1461 in
   let n1 := n / 365 in let n := n mod 365 in
   let year := year + n100 * 100 + n4 * 4 + n1 in
   if (n1 =? 4) || (n100 =? 4) then (year - 1, 12, 31)
   else
     let leapyear := (n1 =? 3) && (negb (n4 =? 24) || (n100 =? 3)) in
     let month := Z.shiftr (n + 50) 5 in
     let preceding := days_before_month_tbl month + leap_day (2 <? month) leapyear in
     if n <? preceding
     then let month := month - 1 in
          let preceding := preceding - (days_in_month_tbl month + leap_day (month =? 2) leapyear) in
          (year, month, n - preceding + 1)
     else (year, month, n - preceding + 1))%Z.

Record datetime := {
  dt_ordinal : Z;       (* toordinal() *)
  dt_usec : Z;          (* microseconds since the midnight of that day *)
}.

(** Broken-down time, [time.struct_time]. *)
Record struct_time := {
  tm_year : Z; tm_mon : Z; tm_mday : Z;
  tm_hour : Z; tm_min : Z; tm_sec : Z;
}.

(** [dt.timetuple()] *)
Definition timetuple (dt : datetime) : struct_time :=
  let '(y, m, d) := ord2ymd dt.(dt_ordinal) in
  let s := (dt.(dt_usec) / usec)%Z in
  {| tm_year := y; tm_mon := m; tm_mday := d;
     tm_hour := (s / 3600)%Z; tm_min := (s mod 3600 / 60)%Z; tm_sec := (s mod 60)%Z |}.

(** The naive local [datetime] of a timestamp, in a zone [utcoffset]
    seconds east of UTC: [datetime.fromtimestamp]. *)
Definition fromtimestamp (utcoffset t : Z) : datetime :=
  let local := (t + utcoffset * usec)%Z in
  {| dt_ordinal := (local / (day_seconds * usec) + epoch_ordinal)%Z;
     dt_usec := (local mod (day_seconds * usec))%Z |}.

(** [dt.replace(hour=0, minute=0, second=0, microsecond=0)] *)
Definition replace_midnight (dt : datetime) : datetime :=
  {| dt_ordinal := dt.(dt_ordinal); dt_usec := 0 |}.

(** [dt + datetime.timedelta(days=n)] *)
Definition add_days (dt : datetime) (n : Z) : datetime :=
  {| dt_ordinal := (dt.(dt_ordinal) + n)%Z; dt_usec := dt.(dt_usec) |}.

(** [time.mktime(tm)]: the timestamp of a local broken-down time. *)
Definition mktime (utcoffset : Z) (tm : struct_time) : Z :=
  (((ymd2ord tm.(tm_year) tm.(tm_mon) tm.(tm_mday) - epoch_ordinal) * day_seconds
    + tm.(tm_hour) * 3600 + tm.(tm_min) * 60 + tm.(tm_sec) - utcoffset) * usec)%Z.

(** [strftime] with the directives [%Y %m %d %H %M %S] and [%%]; any other
    character is copied.  [%Y] is the year as the C library prints it,
    in decimal and without padding: a year below 1000 has fewer than four
    digits. *)
Fixpoint strftime (fmt : string) (tm : struct_time) : string :=
  match fmt with
  | String "%" (String c rest) =>
      (if Ascii.eqb c "Y" then str_of_Z tm.(tm_year)
       else if Ascii.eqb c "m" then pad 2 tm.(tm_mon)
       else if Ascii.eqb c "d" then pad 2 tm.(tm_mday)
       else if Ascii.eqb c "H" then pad 2 tm.(tm_hour)
       else if Ascii.eqb c "M" then pad 2 tm.(tm_min)
       else if Ascii.eqb c "S" then pad 2 tm.(tm_sec)
       else if Ascii.eqb c "%" then "%"
       else String "%" (String c ""))
      +:+ strftime rest tm
  | String c rest => String c (strftime rest tm)
  | EmptyString => ""
  end.

(** ** The host: what the logging framework and the runtime supply

    [situlogger] calls into [logging] and the interpreter for these; they
    are not part of the package. *)
Class Host := {
  (** [msg % args] *)
  percent_format : store -> string -> pyval -> exn + string;
  (** [logging.Formatter.formatTime(record, datefmt)] *)
  formatTime : store -> loc -> option string -> exn + string;
  (** [logging.Formatter.formatException(exc_info)] *)
  formatException : pyval -> string;
  (** [str] of lists, tuples, dicts and tracebacks *)
  opaque_str : store -> pyval -> string;
  (** whether [logging.Formatter.__init__] accepts a [%]-style pattern:
      every pattern before Python 3.8 or with [validate=False], otherwise
      only a pattern with a [%(name)s]-like placeholder *)
  valid_fmt : string -> bool;
}.

(** [str(obj)] *)
Definition py_str `{Host} (h : store) (v : pyval) : string :=
  match v with
  | VNone => "None"
  | VBool true => "True"
  | VBool false => "False"
  | VInt z => str_of_Z z
  | VStr s => s
  | VDate y m d => iso_date y m d
  | VDatetime y m d hh mi ss us => iso_date y m d +:+ " " +:+ iso_time hh mi ss us
  | VTime hh mi ss us => iso_time hh mi ss us
  | VException _ message => message
  | VObject text => text
  | VList _ | VTuple _ | VDict _ | VTraceback _ => opaque_str h v
  end.

(** [LogRecord.getMessage]:
    [msg = str(self.msg); if self.args: msg = msg % self.args; return msg] *)
Definition getMessage `{Host} (record : loc) : M string :=
  m ← getattr record "msg";
  msg ← reading (fun h => inr (py_str h m));
  args ← getattr record "args";
  has_args ← is_true args;
  if has_args : bool then reading (fun h => percent_format h msg args) else ret msg.

(** ** [json.dumps] *)

(** A [default=] hook: maps a value the encoder does not know to one it
    may know. *)
Definition fallback := store -> pyval -> exn + pyval.

Definition hex_digit (n : nat) : ascii :=
  match String.get n "0123456789abcdef" with Some c => c | None => "0"%char end.

(** [ensure_ascii] escaping of one character. *)
Definition json_escape_char (c : ascii) : string :=
  let n := nat_of_ascii c in
  if (n =? 34)%nat then String "\" (String c "")
  else if (n =? 92)%nat then "\\"
  else if (n =? 10)%nat then "\n"
  else if (n =? 13)%nat then "\r"
  else if (n =? 9)%nat then "\t"
  else if (n =? 12)%nat then "\f"
  else if (n =? 8)%nat then "\b"
  else if ((32 <=? n)%nat && (n <=? 126)%nat) then String c ""
  else "\u00" +:+ String (hex_digit (n / 16)) (String (hex_digit (n mod 16)) "").

Fixpoint json_escape (s : string) : string :=
  match s with
  | EmptyString => ""
  | String c s' => json_escape_char c +:+ json_escape s'
  end.

Definition json_string (s : string) : string :=
  String "034" (json_escape s) +:+ String "034" "".

Definition json_key (k : key) : string :=
  match k with
  | KStr s => json_string s
  | KInt z => json_string (str_of_Z z)
  end.

Fixpoint sequence {A} (xs : list (exn + A)) : exn + list A :=
  match xs with
  | [] => inr []
  | inl e :: _ => inl e
  | inr a :: xs' => match sequence xs' with inl e => inl e | inr l => inr (a :: l) end
  end.

(** The encoder.  [n] bounds the nesting depth (the interpreter's recursion
    limit), [markers] are the dicts being encoded (circularity check),
    [default] is the hook for values that are not JSON-native. *)
Fixpoint json_encode (n : nat) (default : option fallback) (h : store)
    (markers : list loc) (o : pyval) : exn + string :=
  match n with
  | O => inl RecursionError
  | S n' =>
      match o with
      | VNone => inr "null"
      | VBool true => inr "true"
      | VBool false => inr "false"
      | VInt z => inr (str_of_Z z)
      | VStr s => inr (json_string s)
      | VList xs | VTuple xs =>
          match sequence (map (json_encode n' default h markers) xs) with
          | inl e => inl e
          | inr items => inr ("[" +:+ join ", " items +:+ "]")
          end
      | VDict l =>
          if bool_decide (l ∈ markers) then inl (ValueError "Circular reference detected")
          else match h !! l with
               | None => inl (StaleReference l)
               | Some d =>
                   match sequence (map (fun kv : key * pyval =>
                            match json_encode n' default h (l :: markers) kv.2 with
                            | inl e => inl e
                            | inr v => inr (json_key kv.1 +:+ ": " +:+ v)
                            end) d) with
                   | inl e => inl e
                   | inr items => inr ("{" +:+ join ", " items +:+ "}")
                   end
               end
      | _ =>
          match default with
          | None => inl (TypeError "Object is not JSON serializable")
          | Some f =>
              match f h o with
              | inl e => inl e
              | inr o' => json_encode n' default h markers o'
              end
          end
      end
  end.

Definition recursion_limit : nat := 1000.

(** A [json.dumps]-compatible callable: the object, and the [default=]
    keyword when the caller passes it. *)
Definition serializer := option fallback -> store -> pyval -> exn + string.

Definition json_dumps : serializer :=
  fun default h obj => json_encode recursion_limit default h [] obj.

(** ** The JSON formatter *)

Definition RESERVED_ATTRS : list string :=
  [ "args"; "asctime"; "created"; "exc_info"; "exc_text"; "filename";
    "funcName"; "levelname"; "levelno"; "lineno"; "module";
    "msecs"; "message"; "msg"; "name"; "pathname"; "process";
    "processName"; "relativeCreated"; "stack_info"; "thread"; "threadName" ].

(** [dict(zip(names, names))] *)
Definition name_hash (names : list string) : odict :=
  dict_zip (KStr <$> names) (VStr <$> names).

Definition RESERVED_ATTR_HASH : odict := name_hash RESERVED_ATTRS.

(** [hasattr(key, "startswith") and key.startswith('_')]: numbers have no
    [startswith]. *)
Definition is_private (k : key) : bool :=
  match k with
  | KStr (String c _) => Ascii.eqb c "_"
  | _ => false
  end.

Definition merge_record_extra (record target : loc) (reserved : odict) : M loc :=
  items ← dict_items record;
  for_each items (fun kv : key * pyval =>
    if negb (od_mem kv.1 reserved) && negb (is_private kv.1)
    then dict_setitem target kv.1 kv.2
    else ret tt);;
  ret target.

Record JsonFormatter := {
  json_default : option fallback;
  json_encoder : option serializer;
  json_serializer : serializer;
  prefix : string;
  _fmt : string;
  datefmt : option string;
  _required_fields : list string;
  _skip_fields : odict;
}.

(** The keyword arguments of the constructor.  [json_default],
    [json_encoder] and [prefix] are popped by [JsonFormatter.__init__];
    what is left goes to [logging.Formatter.__init__]. *)
Record init_kwargs := {
  kw_fmt : option string;
  kw_datefmt : option string;
  kw_json_default : option fallback;
  kw_json_encoder : option serializer;
  kw_json_serializer : option serializer;
  kw_prefix : option string;
}.

(** The closure [_default_json_handler] of [__init__]. *)
Definition _default_json_handler `{Host} : fallback :=
  fun h obj =>
    match obj with
    | VDate y m d => inr (VStr (iso_date y m d))
    | VDatetime y m d hh mi ss us => inr (VStr (iso_date y m d +:+ "T" +:+ iso_time hh mi ss us))
    | VTime hh mi ss us => inr (VStr (iso_time hh mi ss us))
    | VTraceback frames => inr (VStr (strip (join "" frames)))
    | VException _ _ => inr (VStr ("Exception: " +:+ py_str h obj))
    | _ => inr (VStr (py_str h obj))
    end.

(** [parse]: the fields of the pattern. *)
Definition parse (fmt : string) : list string := findall fmt.

(** [fmt or "%(message)s"]: the pattern that [logging.Formatter] keeps. *)
Definition style_fmt (fmt : option string) : string :=
  match fmt with
  | Some (String c f) => String c f
  | _ => "%(message)s"
  end.

(** [logging.Formatter.__init__(self, *args, **kwargs)], called with what
    [JsonFormatter.__init__] did not pop: it knows [fmt] and [datefmt] and
    refuses a [json_serializer] keyword.  An absent or empty pattern is
    replaced by the framework's default; the pattern is then stored if
    the framework accepts it, and refused with [ValueError] otherwise. *)
Definition Formatter_init `{Host} (kw : init_kwargs) : exn + (string * option string) :=
  match kw.(kw_json_serializer) with
  | Some _ => inl (TypeError "__init__() got an unexpected keyword argument 'json_serializer'")
  | None =>
      let fmt := style_fmt kw.(kw_fmt) in
      if valid_fmt fmt then inr (fmt, kw.(kw_datefmt))
      else inl (ValueError ("Invalid format '" +:+ fmt +:+ "' for '%' style"))
  end.

Definition JsonFormatter_init `{Host} (kw : init_kwargs) : exn + JsonFormatter :=
  let json_default0 := kw.(kw_json_default) in
  let json_encoder0 := kw.(kw_json_encoder) in
  let json_serializer0 := json_dumps in
  let prefix0 := default "" kw.(kw_prefix) in
  match Formatter_init kw with
  | inl e => inl e
  | inr (fmt, dfmt) =>
      let json_default1 :=
        match json_encoder0, json_default0 with
        | None, None => Some _default_json_handler
        | _, _ => json_default0
        end in
      let required := parse fmt in
      inr {| json_default := json_default1;
             json_encoder := json_encoder0;
             json_serializer := json_serializer0;
             prefix := prefix0;
             _fmt := fmt;
             datefmt := dfmt;
             _required_fields := required;
             _skip_fields := od_update (name_hash required) RESERVED_ATTR_HASH |}
  end.

Definition add_fields (self : JsonFormatter) (log_record record message_dict : loc) : M unit :=
  for_each self.(_required_fields) (fun field =>
    v ← dict_get record (KStr field);
    dict_setitem log_record (KStr field) v);;
  dict_update log_record message_dict;;
  _ ← merge_record_extra record log_record self.(_skip_fields);
  ret tt.

Definition process_log_record (self : JsonFormatter) (log_record : loc) : M loc :=
  ret log_record.

Definition jsonify_log_record (self : JsonFormatter) (log_record : loc) : M string :=
  reading (fun h => self.(json_serializer) None h (VDict log_record)).

(** [format], first part: the message payload, the [message] and [asctime]
    attributes, the exception text.  Returns the message payload
    ([message_dict]). *)
Definition prepare `{Host} (self : JsonFormatter) (record : loc) : M loc :=
  fresh ← new_dict [];
  msg ← getattr record "msg";
  message_dict ←
    match msg with
    | VDict l => setattr record "message" VNone;; ret l
    | _ => m ← getMessage record; setattr record "message" (VStr m);; ret fresh
    end;
  (if bool_decide ("asctime" ∈ self.(_required_fields))
   then t ← reading (fun h => formatTime h record self.(datefmt));
        setattr record "asctime" (VStr t)
   else ret tt);;
  shown ←
    (exc_info ← getattr record "exc_info";
     has_exc ← is_true exc_info;
     if has_exc : bool
     then given ← dict_get message_dict (KStr "exc_info");
          has_given ← is_true given;
          ret (negb has_given)
     else ret false);
  (if shown : bool
   then exc_info ← getattr record "exc_info";
        dict_setitem message_dict (KStr "exc_info") (VStr (formatException exc_info))
   else ret tt);;
  cached ←
    (given ← dict_get message_dict (KStr "exc_info");
     has_given ← is_true given;
     if has_given : bool
     then ret false
     else exc_text ← getattr record "exc_text"; is_true exc_text);
  (if cached : bool
   then exc_text ← getattr record "exc_text";
        dict_setitem message_dict (KStr "exc_info") exc_text
   else ret tt);;
  ret message_dict.

(** [format], second part: the record that is about to be serialized. *)
Definition assemble `{Host} (self : JsonFormatter) (record : loc) : M loc :=
  message_dict ← prepare self record;
  log_record ← new_dict [];
  add_fields self log_record record message_dict;;
  process_log_record self log_record.

Definition format `{Host} (self : JsonFormatter) (record : loc) : M string :=
  log_record ← assemble self record;
  text ← jsonify_log_record self log_record;
  ret (self.(prefix) +:+ text).

(** ** A reference host

    A small executable host, used to run the formatter on concrete events:
    [%s], [%d] and [%%] substitution, the framework's default time and
    exception rendering, timestamps in whole seconds, and a constructor
    that accepts every pattern (the framework before Python 3.8, or with
    [validate=False]). *)
Module Reference.

Definition newline : string := String "010" "".

Definition ref_opaque_str (h : store) (v : pyval) : string :=
  match v with
  | VList _ => "[...]"
  | VTuple _ => "(...)"
  | VDict _ => "{...}"
  | _ => "<object>"
  end.

Definition ref_str (h : store) (v : pyval) : string :=
  match v with
  | VNone => "None"
  | VBool true => "True"
  | VBool false => "False"
  | VInt z => str_of_Z z
  | VStr s => s
  | VException _ message => message
  | VObject text => text
  | _ => ref_opaque_str h v
  end.

Fixpoint percent_go (h : store) (fmt : string) (args : list pyval) : exn + string :=
  match fmt with
  | String "%" (String c rest) =>
      if Ascii.eqb c "%" then
        match percent_go h rest args with inl e => inl e | inr t => inr (String "%" t) end
      else if Ascii.eqb c "s" || Ascii.eqb c "d" then
        match args with
        | [] => inl (TypeError "not enough arguments for format string")
        | a :: args' =>
            match Ascii.eqb c "d", a with
            | true, VInt _ | false, _ =>
                match percent_go h rest args' with
                | inl e => inl e
                | inr t => inr (ref_str h a +:+ t)
                end
            | true, _ => inl (TypeError "%d format: a number is required")
            end
        end
      else inl (ValueError "unsupported format character")
  | String c rest =>
      match percent_go h rest args with inl e => inl e | inr t => inr (String c t) end
  | EmptyString =>
      match args with
      | [] => inr ""
      | _ => inl (TypeError "not all arguments converted during string formatting")
      end
  end.

Definition ref_percent_format (h : store) (fmt : string) (args : pyval) : exn + string :=
  match args with
  | VTuple xs => percent_go h fmt xs
  | v => percent_go h fmt [v]
  end.

(** [Formatter.formatTime]: [time.strftime] of [localtime(record.created)],
    with [",%03d" % record.msecs] after the default format. *)
Definition ref_formatTime (utcoffset : Z) (h : store) (record : loc)
    (datefmt : option string) : exn + string :=
  match h !! record with
  | None => inl (StaleReference record)
  | Some d =>
      match od_get (KStr "created") d, od_get (KStr "msecs") d with
      | Some (VInt created), Some (VInt msecs) =>
          let ct := timetuple (fromtimestamp utcoffset (created * usec)) in
          match datefmt with
          | Some (String c f) => inr (strftime (String c f) ct)
          | _ => inr (strftime "%Y-%m-%d %H:%M:%S" ct +:+ "," +:+ pad 3 msecs)
          end
      | None, _ => inl (AttributeError "created")
      | _, None => inl (AttributeError "msecs")
      | _, _ => inl (TypeError "a number is required")
      end
  end.

(** [Formatter.formatException]: the traceback and the exception line,
    without the last line feed. *)
Definition ref_formatException (exc_info : pyval) : string :=
  match exc_info with
  | VTuple [_; VException cls message; VTraceback frames] =>
      "Traceback (most recent call last):" +:+ newline +:+ join "" frames
      +:+ cls +:+ ": " +:+ message
  | VTuple [_; VException cls message; _] => cls +:+ ": " +:+ message
  | _ => "NoneType: None"
  end.

Definition host (utcoffset : Z) : Host :=
  {| percent_format := ref_percent_format;
     formatTime := ref_formatTime utcoffset;
     formatException := ref_formatException;
     opaque_str := ref_opaque_str;
     valid_fmt := fun _ => true |}.











(** [logging.LogRecord.__init__], then the [extra] entries that
    [Logger.makeRecord] adds to the instance. *)
Definition make_record (name levelname : string) (levelno : Z) (msg args exc_info : pyval)
    (created msecs : Z) (extra : odict) : odict :=
  od_update
    [ (KStr "name", VStr name); (KStr "msg", msg); (KStr "args", args);
      (KStr "levelname", VStr levelname); (KStr "levelno", VInt levelno);
      (KStr "pathname", VStr "app.py"); (KStr "filename", VStr "app.py");
      (KStr "module", VStr "app"); (KStr "exc_info", exc_info);
      (KStr "exc_text", VNone); (KStr "stack_info", VNone);
      (KStr "lineno", VInt 10); (KStr "funcName", VStr "main");
      (KStr "created", VInt created); (KStr "msecs", VInt msecs);
      (KStr "relativeCreated", VInt 0); (KStr "thread", VInt 1);
      (KStr "threadName", VStr "MainThread");
      (KStr "processName", VStr "MainProcess"); (KStr "process", VInt 4242) ]
    extra.

End Reference.

(** ** The file system, the clock and the programs that use them

    The handler talks to the operating system.  Its methods are written as
    programs over the system calls they make, so that one definition runs
    alone ([run]) and interleaved with another process ([interleave]),
    one system call at a time. *)

Inductive open_mode := ModeAppend | ModeWrite.

#[global] Instance open_mode_eq_dec : EqDecision open_mode.
Proof. solve_decision. Defined.

(** An open text stream. *)
Record handle := { h_path : string; h_mode : open_mode }.

Inductive event :=
| EvOsOpen (path : string) (flags mode : Z) (res : errno + nat)
| EvOsClose (fd : nat)
| EvOpen (path : string) (mode : open_mode) (res : option errno)
| EvWrite (path : string) (data : string)
| EvClose (path : string).

Record world := {
  files : gmap string string;     (* the content of every file *)
  refused : gmap string errno;    (* paths the system refuses to create or open, and why *)
  clock : nat -> Z;               (* the successive readings of the wall clock *)
  reads : nat;                    (* readings taken so far *)
  utcoffset : Z;                  (* the local zone, seconds east of UTC *)
  next_fd : nat;
  trace : list event;             (* system calls made so far, latest first *)
}.

Definition O_CREAT : Z := 64.
Definition O_EXCL : Z := 128.
Definition S_IRUSR : Z := 256.
Definition S_IWUSR : Z := 128.
Definition S_IRGRP : Z := 32.
Definition S_IROTH : Z := 4.

Definition set_files (f : gmap string string) (w : world) : world :=
  {| files := f; refused := w.(refused); clock := w.(clock); reads := w.(reads);
     utcoffset := w.(utcoffset); next_fd := w.(next_fd); trace := w.(trace) |}.

Definition log_event (e : event) (w : world) : world :=
  {| files := w.(files); refused := w.(refused); clock := w.(clock); reads := w.(reads);
     utcoffset := w.(utcoffset); next_fd := w.(next_fd); trace := e :: w.(trace) |}.

Definition tick (w : world) : world :=
  {| files := w.(files); refused := w.(refused); clock := w.(clock); reads := S w.(reads);
     utcoffset := w.(utcoffset); next_fd := w.(next_fd); trace := w.(trace) |}.

Definition take_fd (w : world) : world :=
  {| files := w.(files); refused := w.(refused); clock := w.(clock); reads := w.(reads);
     utcoffset := w.(utcoffset); next_fd := S w.(next_fd); trace := w.(trace) |}.

(** The reading the next call to the clock returns. *)
Definition now (w : world) : Z := w.(clock) w.(reads).

(** [os.open(path, flags, mode)] *)
Definition sys_os_open (path : string) (flags mode : Z) (w : world) : (errno + nat) * world :=
  let res : (errno + nat) * world :=
    match w.(refused) !! path with
    | Some e => (inl e, w)
    | None =>
        match w.(files) !! path with
        | Some _ =>
            if Z.testbit flags 6 && Z.testbit flags 7
            then (inl EEXIST, w)
            else (inr w.(next_fd), take_fd w)
        | None =>
            if Z.testbit flags 6
            then (inr w.(next_fd), take_fd (set_files (<[path := ""]> w.(files)) w))
            else (inl ENOENT, w)
        end
    end in
  (res.1, log_event (EvOsOpen path flags mode res.1) res.2).

(** [open(path, mode)] *)
Definition sys_open (path : string) (mode : open_mode) (w : world) : (errno + handle) * world :=
  match w.(refused) !! path with
  | Some e => (inl e, log_event (EvOpen path mode (Some e)) w)
  | None =>
      let content :=
        match mode with
        | ModeAppend => default "" (w.(files) !! path)
        | ModeWrite => ""
        end in
      (inr {| h_path := path; h_mode := mode |},
       log_event (EvOpen path mode None) (set_files (<[path := content]> w.(files)) w))
  end.

(** [stream.write(data); stream.flush()]: the data goes to the end of the
    file in one step. *)
Definition sys_write (s : handle) (data : string) (w : world) : world :=
  log_event (EvWrite s.(h_path) data)
    (set_files (<[s.(h_path) := default "" (w.(files) !! s.(h_path)) +:+ data]> w.(files)) w).

Inductive prog (A : Type) :=
| Ret (a : A)
| Throw (e : exn)
| TimeTime (k : Z -> prog A)                           (* time.time() *)
| DatetimeNow (k : datetime -> prog A)                 (* datetime.datetime.now() *)
| TimeMktime (tm : struct_time) (k : Z -> prog A)      (* time.mktime(tm) *)
| OsOpen (path : string) (flags mode : Z) (k : errno + nat -> prog A)
| OsClose (fd : nat) (k : prog A)
| BuiltinOpen (path : string) (mode : open_mode) (k : errno + handle -> prog A)
| StreamWrite (s : handle) (data : string) (k : prog A)
| StreamClose (s : handle) (k : prog A).

Arguments Ret {A} a.
Arguments Throw {A} e.
Arguments TimeTime {A} k.
Arguments DatetimeNow {A} k.
Arguments TimeMktime {A} tm k.
Arguments OsOpen {A} path flags mode k.
Arguments OsClose {A} fd k.
Arguments BuiltinOpen {A} path mode k.
Arguments StreamWrite {A} s data k.
Arguments StreamClose {A} s k.

Fixpoint pbind {A B} (p : prog A) (f : A -> prog B) : prog B :=
  match p with
  | Ret a => f a
  | Throw e => Throw e
  | TimeTime k => TimeTime (fun t => pbind (k t) f)
  | DatetimeNow k => DatetimeNow (fun t => pbind (k t) f)
  | TimeMktime tm k => TimeMktime tm (fun t => pbind (k t) f)
  | OsOpen path flags mode k => OsOpen path flags mode (fun r => pbind (k r) f)
  | OsClose fd k => OsClose fd (pbind k f)
  | BuiltinOpen path mode k => BuiltinOpen path mode (fun r => pbind (k r) f)
  | StreamWrite s data k => StreamWrite s data (pbind k f)
  | StreamClose s k => StreamClose s (pbind k f)
  end.

#[global] Instance prog_ret : MRet prog := @Ret.
#[global] Instance prog_bind : MBind prog := fun A B f p => pbind p f.

(** One system call of a program; [None] when it has finished. *)
Definition step {A} (p : prog A) (w : world) : option (prog A * world) :=
  match p with
  | Ret _ | Throw _ => None
  | TimeTime k => Some (k (now w), tick w)
  | DatetimeNow k => Some (k (fromtimestamp w.(utcoffset) (now w)), tick w)
  | TimeMktime tm k => Some (k (mktime w.(utcoffset) tm), w)
  | OsOpen path flags mode k =>
      let r := sys_os_open path flags mode w in Some (k r.1, r.2)
  | OsClose fd k => Some (k, log_event (EvOsClose fd) w)
  | BuiltinOpen path mode k =>
      let r := sys_open path mode w in Some (k r.1, r.2)
  | StreamWrite s data k => Some (k, sys_write s data w)
  | StreamClose s k => Some (k, log_event (EvClose s.(h_path)) w)
  end.

(** A program run to its end, alone. *)
Fixpoint run {A} (p : prog A) (w : world) : (exn + A) * world :=
  match p with
  | Ret a => (inr a, w)
  | Throw e => (inl e, w)
  | TimeTime k => run (k (now w)) (tick w)
  | DatetimeNow k => run (k (fromtimestamp w.(utcoffset) (now w))) (tick w)
  | TimeMktime tm k => run (k (mktime w.(utcoffset) tm)) w
  | OsOpen path flags mode k =>
      let r := sys_os_open path flags mode w in run (k r.1) r.2
  | OsClose fd k => run k (log_event (EvOsClose fd) w)
  | BuiltinOpen path mode k =>
      let r := sys_open path mode w in run (k r.1) r.2
  | StreamWrite s data k => run k (sys_write s data w)
  | StreamClose s k => run k (log_event (EvClose s.(h_path)) w)
  end.

(** Two processes on one system.  The schedule says whose system call
    comes next ([true]: the first process); a process that has finished
    lets the turn pass, and when the schedule is used up the first process
    runs to its end and then the second. *)
Fixpoint interleave {A B} (sched : list bool) (p : prog A) (q : prog B) (w : world)
    : (exn + A) * (exn + B) * world :=
  match sched with
  | [] =>
      let r1 := run p w in
      let r2 := run q r1.2 in
      (r1.1, r2.1, r2.2)
  | true :: sched' =>
      match step p w with
      | Some (p', w') => interleave sched' p' q w'
      | None => interleave sched' p q w
      end
  | false :: sched' =>
      match step q w with
      | Some (q', w') => interleave sched' p q' w'
      | None => interleave sched' p q w
      end
  end.

(** ** The rotating file handler *)

Record SituRotatingFileHandler := {
  _filename : string;
  _rotate_at : Z;
  baseFilename : string;
  mode : open_mode;
  stream : option handle;
}.

Definition set_rotate_at (t : Z) (self : SituRotatingFileHandler) : SituRotatingFileHandler :=
  {| _filename := self.(_filename); _rotate_at := t; baseFilename := self.(baseFilename);
     mode := self.(mode); stream := self.(stream) |}.

Definition set_baseFilename (f : string) (self : SituRotatingFileHandler) : SituRotatingFileHandler :=
  {| _filename := self.(_filename); _rotate_at := self.(_rotate_at); baseFilename := f;
     mode := self.(mode); stream := self.(stream) |}.

Definition set_stream (s : option handle) (self : SituRotatingFileHandler) : SituRotatingFileHandler :=
  {| _filename := self.(_filename); _rotate_at := self.(_rotate_at);
     baseFilename := self.(baseFilename); mode := self.(mode); stream := s |}.

Definition _next_rotate_at : prog Z :=
  now ← DatetimeNow Ret;
  let next_day := timetuple (add_days (replace_midnight now) 1) in
  TimeMktime next_day Ret.

(** [logging.FileHandler._open]: [open(self.baseFilename, self.mode)] *)
Definition FileHandler_open (self : SituRotatingFileHandler) : prog handle :=
  BuiltinOpen self.(baseFilename) self.(mode) (fun r =>
    match r with
    | inr s => Ret s
    | inl e => Throw (OSError e)
    end).

(** ["{0}.{1}".format(filename, now.strftime('%Y-%m-%d'))] *)
Definition log_path (filename : string) (now : datetime) : string :=
  filename +:+ "." +:+ strftime "%Y-%m-%d" (timetuple now).

(** [_open]: returns the stream; the handler comes back with its
    [baseFilename] set. *)
Definition _open (self : SituRotatingFileHandler) : prog (SituRotatingFileHandler * handle) :=
  now ← DatetimeNow Ret;
  let log_today := log_path self.(_filename) now in
  OsOpen log_today (Z.lor O_CREAT O_EXCL)
    (Z.lor (Z.lor (Z.lor S_IRUSR S_IWUSR) S_IRGRP) S_IROTH) (fun r =>
      match r with
      | inr fd => OsClose fd (Ret tt)
      | inl e => if decide (e ≠ EEXIST) then Throw (OSError e) else Ret tt
      end);;
  let self := set_baseFilename log_today self in
  s ← FileHandler_open self;
  Ret (self, s).

(** [logging.FileHandler.close]: flush and close the stream, forget it. *)
Definition FileHandler_close (self : SituRotatingFileHandler) : prog SituRotatingFileHandler :=
  match self.(stream) with
  | Some s => StreamClose s (Ret (set_stream None self))
  | None => Ret self
  end.

(** [logging.FileHandler.emit]: open the stream if there is none (through
    the handler's own [_open]), then write the formatted record and the
    terminator. *)
Definition FileHandler_emit (self : SituRotatingFileHandler) (line : string)
    : prog SituRotatingFileHandler :=
  self ← match self.(stream) with
         | None => r ← _open self; Ret (set_stream (Some r.2) r.1)
         | Some _ => Ret self
         end;
  match self.(stream) with
  | Some s => StreamWrite s (line +:+ String "010" "") (Ret self)
  | None => Ret self
  end.

(** [__init__]: [logging.FileHandler.__init__(filename, mode='a')] opens
    the stream at once. *)
Definition SituRotatingFileHandler_init (filename : string) : prog SituRotatingFileHandler :=
  rotate_at ← _next_rotate_at;
  let self := {| _filename := filename; _rotate_at := rotate_at; baseFilename := filename;
                 mode := ModeAppend; stream := None |} in
  r ← _open self;
  Ret (set_stream (Some r.2) r.1).

(** [emit]; [line] is the formatted record. *)
Definition emit (self : SituRotatingFileHandler) (line : string) : prog SituRotatingFileHandler :=
  t ← TimeTime Ret;
  self ← (if (t >? self.(_rotate_at))%Z
          then r ← _next_rotate_at;
               FileHandler_close (set_rotate_at r self)
          else Ret self);
  FileHandler_emit self line.

(** A process that sets a handler up and logs some lines. *)
Fixpoint emit_all (self : SituRotatingFileHandler) (lines : list string)
    : prog SituRotatingFileHandler :=
  match lines with
  | [] => Ret self
  | line :: lines' => self' ← emit self line; emit_all self' lines'
  end.

Definition logging_process (filename : string) (lines : list string)
    : prog SituRotatingFileHandler :=
  self ← SituRotatingFileHandler_init filename;
  emit_all self lines.

(** ** Patterns written out, to state what [parse] finds *)

(** Literal text, then fields in parentheses, each followed by literal
    text. *)
Fixpoint pattern (lit : string) (fields : list (string * string)) : string :=
  match fields with
  | [] => lit
  | (name, lit') :: rest => lit +:+ String "(" (name +:+ String ")" (pattern lit' rest))
  end.

Fixpoint has_char (c : ascii) (s : string) : bool :=
  match s with
  | EmptyString => false
  | String c' s' => Ascii.eqb c' c || has_char c s'
  end.




Fixpoint sdrop (n : nat) (s : string) : string :=
  match n, s with
  | S n', String _ s' => sdrop n' s'
  | _, _ => s
  end.

(** ** The assembled record as a function of the event and the payload

    What [add_fields] leaves in a fresh [log_record], given the content
    [rd] of the event's [__dict__] and [pd] of the message payload. *)

Definition required_part (required : list string) (rd : odict) : odict :=
  fold_left (fun d f => od_set (KStr f) (default VNone (od_get (KStr f) rd)) d) required [].

(** The test of [merge_record_extra]. *)
Definition is_extra (reserved : odict) (k : key) : bool :=
  negb (od_mem k reserved) && negb (is_private k).

Definition extras (reserved rd : odict) : odict :=
  List.filter (fun kv : key * pyval => is_extra reserved kv.1) rd.

Definition fields (self : JsonFormatter) (rd pd : odict) : odict :=
  od_update (od_update (required_part self.(_required_fields) rd) pd)
            (extras self.(_skip_fields) rd).

(** Every dict has distinct keys. *)
Definition wf_store (h : store) : Prop := Forall (fun d => NoDup (od_keys d)) h.

(** The value under key [k] of the dict at [l]. *)
Definition attr (h : store) (l : loc) (k : key) : option pyval :=
  h !! l ≫= od_get k.

#[global] Instance wf_store_dec (h : store) : Decision (wf_store h).
Proof. unfold wf_store. apply _. Defined.

(** [d[k] = v] on the dict at [l], as a function of the store. *)
Definition store_set (l : loc) (k : key) (v : pyval) (h : store) : store :=
  match h !! l with
  | Some d => <[l := od_set k v d]> h
  | None => h
  end.

(** Values whose truth does not depend on the store. *)
Definition truth (v : pyval) : option bool :=
  match v with
  | VDict _ => None
  | _ => Some (truthy [] v)
  end.

(** ** Dates *)

Section Dates.
Local Open Scope Z_scope.

(** Month and day of the [n]-th day (from 0) of a year, as the last part
    of [ord2ymd] computes them. *)
Definition month_day (n : Z) (leapyear : bool) : Z * Z :=
  let month := Z.shiftr (n + 50) 5 in
  let preceding := days_before_month_tbl month + leap_day (2 <? month) leapyear in
  if n <? preceding
  then let month := month - 1 in
       let preceding := preceding - (days_in_month_tbl month + leap_day (month =? 2) leapyear) in
       (month, n - preceding + 1)
  else (month, n - preceding + 1).

Definition month_day_ok (leapyear : bool) (n : nat) : bool :=
  let '(m, d) := month_day (Z.of_nat n) leapyear in
  (days_before_month_tbl m + leap_day (2 <? m) leapyear + d =? Z.of_nat n + 1)
  && (1 <=? m) && (m <=? 12).

End Dates.

(** The first instant of the local day after the one of [t]. *)
Definition next_midnight (utcoffset t : Z) : Z :=
  (((fromtimestamp utcoffset t).(dt_ordinal) + 1 - epoch_ordinal) * day_seconds - utcoffset)
  * usec.

Definition midnight_after (now : datetime) : struct_time :=
  timetuple (add_days (replace_midnight now) 1).

Definition create_flags : Z := Z.lor O_CREAT O_EXCL.
Definition create_mode : Z := Z.lor (Z.lor (Z.lor S_IRUSR S_IWUSR) S_IRGRP) S_IROTH.

(** The line that [StreamHandler.emit] writes for a formatted record. *)
Definition terminated (line : string) : string := line +:+ String "010" "".

(** ** Interleavings of written lines *)

(** [is_merge l1 l2 l]: [l] has the elements of [l1] and of [l2], each
    list in its own order. *)
Inductive is_merge {A : Type} : list A -> list A -> list A -> Prop :=
| merge_nil : is_merge [] [] []
| merge_left x l1 l2 l : is_merge l1 l2 l -> is_merge (x :: l1) l2 (x :: l)
| merge_right x l1 l2 l : is_merge l1 l2 l -> is_merge l1 (x :: l2) (x :: l).

(** The text that a sequence of writes leaves. *)
Definition joined (chunks : list string) : string := foldr String.append "" chunks.

(** The number of bytes of a sequence of writes. *)
Definition total_length (chunks : list string) : nat :=
  foldr (fun s n => String.length s + n) 0 chunks.

(** ** Processes that log on one local day

    For a base name, a zone and a day (by its ordinal): the day's file,
    the deadline that ends the day, and the stream on the day's file. *)

Definition day_path (base : string) (day : Z) : string :=
  log_path base {| dt_ordinal := day; dt_usec := 0 |}.

Definition day_deadline (off day : Z) : Z :=
  ((day + 1 - epoch_ordinal) * day_seconds - off) * usec.

Definition day_stream (base : string) (day : Z) : handle :=
  {| h_path := day_path base day; h_mode := ModeAppend |}.

Definition on_day (off day t : Z) : Prop := (fromtimestamp off t).(dt_ordinal) = day.

(** A handler at rest on that day. *)
Definition steady (base : string) (off day : Z) (self : SituRotatingFileHandler) : Prop :=
  self.(_filename) = base /\ self.(_rotate_at) = day_deadline off day
  /\ self.(mode) = ModeAppend /\ self.(stream) = Some (day_stream base day).

(** The programs that, on that day and if the system lets them open the
    day's file, write exactly the lines [pending] to it and end with a
    handler at rest.  The flag tells whether the file is known to exist. *)
Inductive writer (base : string) (off day : Z)
  : bool -> list string -> prog SituRotatingFileHandler -> Prop :=
| W_ret self : steady base off day self -> writer base off day true [] (Ret self)
| W_time o pending k :
    (forall t, on_day off day t -> writer base off day o pending (k t)) ->
    writer base off day o pending (TimeTime k)
| W_now o pending k :
    (forall t, on_day off day t -> writer base off day o pending (k (fromtimestamp off t))) ->
    writer base off day o pending (DatetimeNow k)
| W_mktime o pending tm k :
    writer base off day o pending (k (mktime off tm)) ->
    writer base off day o pending (TimeMktime tm k)
| W_create o pending k :
    (forall fd, writer base off day true pending (k (inr fd))) ->
    writer base off day true pending (k (inl EEXIST)) ->
    writer base off day o pending (OsOpen (day_path base day) create_flags create_mode k)
| W_closefd o pending fd k :
    writer base off day o pending k -> writer base off day o pending (OsClose fd k)
| W_open o pending k :
    writer base off day true pending (k (inr (day_stream base day))) ->
    writer base off day o pending (BuiltinOpen (day_path base day) ModeAppend k)
| W_write pending data k :
    writer base off day true pending k ->
    writer base off day true (data :: pending) (StreamWrite (day_stream base day) data k).

(** What the processes rely on: the system does not refuse the day's
    file, and every clock reading falls on that day. *)
Definition env (base : string) (off day : Z) (w : world) : Prop :=
  refused w !! day_path base day = None /\ utcoffset w = off
  /\ forall n, on_day off day (clock w n).

Definition exists_if (base : string) (day : Z) (o : bool) (w : world) : Prop :=
  o = true -> is_Some (files w !! day_path base day).

Definition content (base : string) (day : Z) (w : world) : string :=
  default "" (files w !! day_path base day).

Definition others_kept (base : string) (day : Z) (w w' : world) : Prop :=
  forall q, q <> day_path base day -> files w' !! q = files w !! q.

(** ** Sample events

    Concrete formatters and events, run on the reference host in UTC. *)
Module Scenario.

Definition host : Host := Reference.host 0.

Definition kwargs (fmt : string) : init_kwargs :=
  {| kw_fmt := Some fmt; kw_datefmt := None; kw_json_default := None;
     kw_json_encoder := None; kw_json_serializer := None; kw_prefix := None |}.

(** What [JsonFormatter(fmt)] builds for a pattern that is not empty. *)
Definition formatter (fmt : string) : JsonFormatter :=
  {| json_default := Some (@_default_json_handler host); json_encoder := None;
     json_serializer := json_dumps; prefix := ""; _fmt := fmt; datefmt := None;
     _required_fields := parse fmt;
     _skip_fields := od_update (name_hash (parse fmt)) RESERVED_ATTR_HASH |}.

Definition pattern3 : string := "(asctime) (levelname) (message)".

Definition boom : pyval :=
  VTuple [ VObject "<class 'ValueError'>"; VException "ValueError" "boom";
           VTraceback [ "  File app.py, line 10, in main" +:+ Reference.newline ] ].

(** [logger.info({"user": "alice", "action": "login"})] *)
Definition login : store :=
  [ Reference.make_record "app" "INFO" 20 (VDict 1) (VTuple []) VNone 1584186153 7 [];
    [ (KStr "user", VStr "alice"); (KStr "action", VStr "login") ] ].

(** [logger.info("hello")] *)
Definition hello : store :=
  [ Reference.make_record "app" "INFO" 20 (VStr "hello") (VTuple []) VNone 1584186153 7 [] ].

(** [logger.info({"user": "alice"}, extra={"user": "bob"})] *)
Definition clash : store :=
  [ Reference.make_record "app" "INFO" 20 (VDict 1) (VTuple []) VNone 1584186153 7
      [ (KStr "user", VStr "bob") ];
    [ (KStr "user", VStr "alice") ] ].

(** [logger.error({"user": "alice"}, exc_info=True)] inside an [except]
    block. *)
Definition failed : store :=
  [ Reference.make_record "app" "ERROR" 40 (VDict 1) (VTuple []) boom 1584186153 7 [];
    [ (KStr "user", VStr "alice") ] ].

(** [logger.error({"exc_info": {"code": 1}}, exc_info=True)] *)
Definition nested : store :=
  [ Reference.make_record "app" "ERROR" 40 (VDict 1) (VTuple []) boom 1584186153 7 [];
    [ (KStr "exc_info", VDict 2) ];
    [ (KStr "code", VInt 1) ] ].

(** An event whose exception text was cached by another formatter. *)
Definition cached : store :=
  [ od_set (KStr "exc_text") (VStr "ValueError: boom")
      (Reference.make_record "app" "ERROR" 40 (VStr "failed") (VTuple []) VNone 1584186153 7 []) ].

(** [logger.info({"when": datetime.date(2020, 3, 14)})] *)
Definition dated : store :=
  [ Reference.make_record "app" "INFO" 20 (VDict 1) (VTuple []) VNone 1584186153 7 [];
    [ (KStr "when", VDate 2020 3 14) ] ].

Definition prepare_at (fmt : string) (h : store) := @prepare host (formatter fmt) 0 h.
Definition assemble_at (fmt : string) (h : store) := @assemble host (formatter fmt) 0 h.
Definition format_at (fmt : string) (h : store) := @format host (formatter fmt) 0 h.


(** A zone eight hours east of Greenwich, and three instants there: noon
    of 2020-03-14, the midnight that ends that day, and the microsecond
    after it. *)
Definition zone : Z := 28800.
Definition noon : Z := 1584158400 * usec.
Definition midnight : Z := 1584201600 * usec.
Definition past_midnight : Z := midnight + 1.

Definition today_file : string := "situ.log.2020-03-14".
Definition today_stream : handle := {| h_path := today_file; h_mode := ModeAppend |}.

(** A handler for [situ.log] that was set up on 2020-03-14. *)
Definition handler : SituRotatingFileHandler :=
  {| _filename := "situ.log"; _rotate_at := midnight; baseFilename := today_file;
     mode := ModeAppend; stream := Some today_stream |}.

(** A system whose clock stands at [t], with the given files and
    refusals. *)
Definition system (t : Z) (fs : gmap string string) (no : gmap string errno) : world :=
  {| files := fs; refused := no; clock := fun _ => t; reads := 0; utcoffset := zone;
     next_fd := 3; trace := [] |}.

Definition one_file : gmap string string := {[ today_file := "started" +:+ Reference.newline ]}.

End Scenario.

(** ** Statements that the code does not meet *)

(** The payload prevails over every other source of a key. *)
Definition payload_always_wins : Prop :=
  forall (H : Host) (kw : init_kwargs) (self : JsonFormatter) (r md lr : loc)
         (h h1 h' : store) (rd pd out : odict) (k : key) (v : pyval),
    JsonFormatter_init kw = inr self -> wf_store h ->
    prepare self r h = (inr md, h1) -> assemble self r h = (inr lr, h') ->
    h' !! r = Some rd -> h' !! md = Some pd -> h' !! lr = Some out ->
    od_get k pd = Some v ->
    (exists f, k = KStr f /\ f ∈ self.(_required_fields)) \/ k ∈ od_keys rd ->
    od_get k out = Some v.

(** Whatever is emitted under [exc_info] is a string. *)
Definition exc_info_always_text : Prop :=
  forall (H : Host) (kw : init_kwargs) (self : JsonFormatter) (r lr : loc)
         (h h' : store) (out : odict) (v : pyval),
    JsonFormatter_init kw = inr self -> wf_store h ->
    assemble self r h = (inr lr, h') -> h' !! lr = Some out ->
    od_get (KStr "exc_info") out = Some v ->
    exists s, v = VStr s.




(** ** Further definitions

    What the statements about the rest of the package need. *)

(** The stream of a handler is on the file it names. *)
Definition stream_on_file (self : SituRotatingFileHandler) : Prop :=
  exists s, stream self = Some s /\ h_path s = baseFilename self /\ h_mode s = mode self.

(** A system call that opens or creates a file, and fails. *)
Definition failed_open (ev : event) : Prop :=
  match ev with
  | EvOsOpen _ _ _ (inl _) | EvOpen _ _ (Some _) => True
  | _ => False
  end.

(** The number that a string of decimal digits denotes. *)
Fixpoint decimal_value (acc : Z) (s : string) : Z :=
  match s with
  | EmptyString => acc
  | String c s' => decimal_value (10 * acc + Z.of_nat (nat_of_ascii c - 48)) s'
  end.

(** [pad w] of [z] has [w] characters and denotes [z]. *)
Definition pad_ok (w : nat) (z : Z) : bool :=
  (String.length (pad w z) =? w)%nat && (decimal_value 0 (pad w z) =? z)%Z.

(** The decimal text of [z] holds no hyphen and denotes [z]. *)
Definition year_ok (z : Z) : bool :=
  negb (has_char "-" (str_of_Z z)) && (decimal_value 0 (str_of_Z z) =? z)%Z.

(** [p] holds of the [n] integers from [z] on. *)
Fixpoint holds_from (n : nat) (z : Z) (p : Z -> bool) : bool :=
  match n with
  | O => true
  | S n' => p z && holds_from n' (z + 1) p
  end.

(** What [month_day] gives for the [n]-th day of a year is a month and a
    day of the month. *)
Definition month_day_small (leapyear : bool) (n : nat) : bool :=
  let '(m, d) := month_day (Z.of_nat n) leapyear in
  ((1 <=? d) && (d <=? 31) && (1 <=? m) && (m <=? 12))%Z.

(** The days that [datetime] supports: 0001-01-01 to 9999-12-31. *)
Definition min_ordinal : Z := 1.
Definition max_ordinal : Z := 3652059.

(** The shape of a name that [parse] finds: not empty, no line feed, and
    no closing parenthesis after its first character. *)
Definition group_shape (g : string) : bool :=
  match g with
  | EmptyString => false
  | String c g' => negb (has_char "010" g) && negb (has_char ")" g')
  end.

(** [g] is the name that the expression of [parse] finds at the head of
    [s], the text after an opening parenthesis: [g] has the shape of a
    name and a closing parenthesis follows it. *)
Definition name_at_head (s g : string) : Prop :=
  group_shape g = true /\ exists rest, s = g +:+ String ")" rest.

(** No name starts in [lit], when [after] is the text that follows
    [lit]. *)
Definition name_free (lit after : string) : Prop :=
  forall a b g, lit = a +:+ String "(" b -> ~ name_at_head (b +:+ after) g.

(** What follows the first literal text of a pattern. *)
Definition fields_text (fields : list (string * string)) : string :=
  match fields with
  | [] => ""
  | (name, lit') :: rest => String "(" (name +:+ String ")" (pattern lit' rest))
  end.

(** The reading of a text as [pattern lit fields] that a scan from left
    to right gives: no name starts in a literal text, and every field
    has the shape of a name. *)
Fixpoint scanned (lit : string) (fields : list (string * string)) : Prop :=
  name_free lit (fields_text fields)
  /\ match fields with
     | [] => True
     | (name, lit') :: rest => group_shape name = true /\ scanned lit' rest
     end.

(** The values that the encoder handles without a [default=] hook. *)
Definition json_native (v : pyval) : bool :=
  match v with
  | VNone | VBool _ | VInt _ | VStr _ | VList _ | VTuple _ | VDict _ => true
  | _ => false
  end.

(** The JSON text of [None], a boolean, an integer or a string. *)
Definition json_atom (v : pyval) : option string :=
  match v with
  | VNone => Some "null"
  | VBool true => Some "true"
  | VBool false => Some "false"
  | VInt z => Some (str_of_Z z)
  | VStr s => Some (json_string s)
  | _ => None
  end.

(** A member of a JSON object whose value is one of these. *)
Definition json_member (kv : key * pyval) : option string :=
  s ← json_atom kv.2; Some (json_key kv.1 +:+ ": " +:+ s).

(** ** The view decorator

    [situ_log_request(a_logger)(view_func)] called on a request.  [info]
    is [a_logger.info], [view_func] is the view with its other arguments,
    [request] is the request object.  The [try ... finally] runs the
    logging call whatever the view does; an exception of the logging
    call replaces the outcome of the view. *)
Definition situ_log_request {A} (info : pyval -> M unit) (view_func : loc -> M A)
    (request : loc) : M A :=
  fun h =>
    let body := (data ← new_dict [];
                 setattr request "ALOG_DATA" (VDict data);;
                 view_func request) in
    let finally := (data ← getattr request "ALOG_DATA"; info data) in
    let r := body h in
    let f := finally r.2 in
    (match f.1 with
     | inl e => inl e
     | inr _ => r.1
     end, f.2).

(** ** More sample values *)
Module Usage.

(** The handler of [Scenario] after [close()]. *)
Definition closed_handler : SituRotatingFileHandler := set_stream None Scenario.handler.

Definition tomorrow_file : string := "situ.log.2020-03-15".

(** The handler of [Scenario] after a rotation on 2020-03-15. *)
Definition rotated_handler : SituRotatingFileHandler :=
  {| _filename := "situ.log"; _rotate_at := Scenario.midnight + day_seconds * usec;
     baseFilename := tomorrow_file; mode := ModeAppend;
     stream := Some {| h_path := tomorrow_file; h_mode := ModeAppend |} |}.

(** The event of [Scenario.clash]. *)
Definition clash_record : list (key * pyval) :=
  Reference.make_record "app" "INFO" 20 (VDict 1) (VTuple []) VNone 1584186153 7
    [ (KStr "user", VStr "bob") ].

(** A request, a view that fills [ALOG_DATA] and then fails, and a logger
    that keeps what it is given on the request. *)
Definition request_store : list (list (key * pyval)) := [ [ (KStr "path", VStr "/login") ] ].

Definition failing_view (request : loc) : M unit :=
  data ← getattr request "ALOG_DATA";
  match data with
  | VDict l => dict_setitem l (KStr "user") (VStr "alice");; raise (ValueError "boom")
  | _ => ret tt
  end.

Definition keeping_logger (data : pyval) : M unit := setattr 0 "logged" data.

(** [logger.error({"exc_info": ""}, exc_info=True)] inside an [except]
    block. *)
Definition blank : list (list (key * pyval)) :=
  [ Reference.make_record "app" "ERROR" 40 (VDict 1) (VTuple []) Scenario.boom 1584186153 7 [];
    [ (KStr "exc_info", VStr "") ] ].

End Usage.

(** * Part II: what the code does *)

(** ** Strings and patterns *)

Section ParseFacts.

Lemma sapp_nil (s : string) : "" +:+ s = s.
Proof. reflexivity. Qed.

Lemma sapp_cons (c : ascii) (a b : string) : String c a +:+ b = String c (a +:+ b).
Proof. reflexivity. Qed.

Lemma sapp_nil_r (s : string) : s +:+ "" = s.
Proof. induction s as [|c s IH]; [done |]. by rewrite sapp_cons, IH. Qed.

Lemma sapp_assoc (a b c : string) : (a +:+ b) +:+ c = a +:+ (b +:+ c).
Proof. induction a as [|x a IH]; [done |]. by rewrite !sapp_cons, IH. Qed.

Lemma slength_app (a b : string) :
  String.length (a +:+ b) = (String.length a + String.length b)%nat.
Proof. induction a as [|x a IH]; [done |]. rewrite ?sapp_cons. simpl. by rewrite IH. Qed.

Lemma lazy_rest_closed (g rest : string) :
  has_char ")" g = false -> has_char "010" g = false ->
  lazy_rest (g +:+ String ")" rest) = Some g.
Proof.
  induction g as [|c g IH]; [done |]. simpl.
  intros [Hc Hg]%orb_false_iff [Hn Hg']%orb_false_iff.
  rewrite ?sapp_cons. simpl. rewrite Hc. unfold dot. rewrite Hn. simpl. by rewrite IH.
Qed.


Lemma findall_skip (g rest : string) :
  findall_from (String.length g) (g +:+ rest) = findall_from 0 rest.
Proof. induction g as [|c g IH]; [done |]. rewrite ?sapp_cons. simpl. done. Qed.




(** Whatever the text, it is literal text and the groups [parse] returns,
    in parentheses and in that order. *)
Lemma lazy_rest_Some (s g : string) :
  lazy_rest s = Some g -> s = g +:+ String ")" (sdrop (S (String.length g)) s).
Proof.
  revert g. induction s as [|c s IH]; intros g; simpl; [done |].
  destruct (Ascii.eqb_spec c ")") as [->|_].
  - intros [= <-]. done.
  - destruct (dot c); [|done].
    destruct (lazy_rest s) as [g'|] eqn:E; [|done].
    intros [= <-]. rewrite ?sapp_cons. simpl. f_equal. by apply IH.
Qed.

Lemma match_group_Some (s g : string) :
  match_group s = Some g -> s = g +:+ String ")" (sdrop (S (String.length g)) s).
Proof.
  destruct s as [|c s]; simpl; [done |].
  destruct (dot c); [|done].
  destruct (lazy_rest s) as [g'|] eqn:E; [|done].
  intros [= <-]. rewrite ?sapp_cons. simpl. f_equal. by apply lazy_rest_Some.
Qed.

Lemma pattern_cons (c : ascii) (lit : string) (fields : list (string * string)) :
  pattern (String c lit) fields = String c (pattern lit fields).
Proof. by destruct fields as [|[??]?]. Qed.

Lemma findall_from_sound (s : string) (skip : nat) :
  exists lit lits,
    List.length lits = List.length (findall_from skip s)
    /\ sdrop skip s = pattern lit (zip (findall_from skip s) lits).
Proof.
  revert skip. induction s as [|c s IH]; intros skip.
  - exists "", []. by destruct skip.
  - destruct skip as [|k]; [|apply IH]. simpl.
    destruct (Ascii.eqb_spec c "(") as [->|_].
    + destruct (match_group s) as [g|] eqn:E.
      * destruct (IH (S (String.length g))) as (lit & lits & Hlen & Hs).
        exists "", (lit :: lits). split; [simpl; by rewrite Hlen |].
        simpl. rewrite <- Hs, sapp_nil. f_equal.
        by apply match_group_Some.
      * destruct (IH 0%nat) as (lit & lits & Hlen & Hs).
        exists (String "(" lit), lits. split; [done |].
        rewrite pattern_cons. f_equal. exact Hs.
    + destruct (IH 0%nat) as (lit & lits & Hlen & Hs).
      exists (String c lit), lits. split; [done |].
      rewrite pattern_cons. f_equal. exact Hs.
Qed.

Lemma parse_sound (fmt : string) :
  exists lit lits,
    List.length lits = List.length (parse fmt)
    /\ fmt = pattern lit (zip (parse fmt) lits).
Proof. apply (findall_from_sound fmt 0). Qed.

End ParseFacts.

(** ** Ordered dicts *)

Section DictFacts.

Lemma od_get_set (k k' : key) (v : pyval) (d : odict) :
  od_get k' (od_set k v d) = if decide (k = k') then Some v else od_get k' d.
Proof.
  induction d as [|[k0 v0] d IH]; simpl.
  - repeat case_decide; congruence.
  - repeat (case_decide; simpl); subst; try congruence.
Qed.

Lemma od_get_set_eq (k : key) (v : pyval) (d : odict) : od_get k (od_set k v d) = Some v.
Proof. rewrite od_get_set. by case_decide. Qed.

Lemma od_get_set_ne (k k' : key) (v : pyval) (d : odict) :
  k ≠ k' -> od_get k' (od_set k v d) = od_get k' d.
Proof. intros. rewrite od_get_set. by case_decide. Qed.

Lemma od_get_None (k : key) (d : odict) : od_get k d = None <-> k ∉ od_keys d.
Proof.
  unfold od_keys. induction d as [|[k0 v0] d IH]; simpl.
  - split; [intros _; apply not_elem_of_nil | done].
  - rewrite not_elem_of_cons. case_decide; subst; split; try done.
    + intros [? _]. done.
    + intros. split; [congruence | by apply IH].
    + intros [_ ?]. by apply IH.
Qed.

Lemma od_get_Some_keys (k : key) (v : pyval) (d : odict) :
  od_get k d = Some v -> k ∈ od_keys d.
Proof.
  intros H. destruct (decide (k ∈ od_keys d)) as [|Hn]; [done |].
  apply od_get_None in Hn. congruence.
Qed.

Lemma od_mem_keys (k : key) (d : odict) : od_mem k d = true <-> k ∈ od_keys d.
Proof.
  unfold od_mem. destruct (od_get k d) eqn:E.
  - split; [intros _; by eapply od_get_Some_keys | done].
  - split; [done |]. apply od_get_None in E. done.
Qed.

Lemma od_keys_set (k k' : key) (v : pyval) (d : odict) :
  k' ∈ od_keys (od_set k v d) <-> k' = k \/ k' ∈ od_keys d.
Proof.
  unfold od_keys. induction d as [|[k0 v0] d IH]; simpl.
  - rewrite list_elem_of_singleton. split; [auto | intros [?|?%elem_of_nil]; done].
  - case_decide; subst; simpl; rewrite !elem_of_cons; [tauto |].
    rewrite IH. tauto.
Qed.

Lemma od_set_NoDup (k : key) (v : pyval) (d : odict) :
  NoDup (od_keys d) -> NoDup (od_keys (od_set k v d)).
Proof.
  unfold od_keys. induction d as [|[k0 v0] d IH]; simpl; intros Hd.
  - apply NoDup_singleton.
  - apply NoDup_cons in Hd as [Hk0 Hd]. case_decide; subst; simpl.
    + by apply NoDup_cons.
    + apply NoDup_cons. split; [|auto].
      intros [?|?]%(od_keys_set k k0 v d); done.
Qed.

Lemma od_update_cons (d : odict) (kv : key * pyval) (src : odict) :
  od_update d (kv :: src) = od_update (od_set kv.1 kv.2 d) src.
Proof. reflexivity. Qed.

Lemma od_update_NoDup (d src : odict) :
  NoDup (od_keys d) -> NoDup (od_keys (od_update d src)).
Proof.
  revert d. induction src as [|kv src IH]; intros d Hd; [done |].
  rewrite od_update_cons. by apply IH, od_set_NoDup.
Qed.

Lemma od_get_update (k : key) (d src : odict) :
  NoDup (od_keys src) ->
  od_get k (od_update d src) =
    match od_get k src with Some v => Some v | None => od_get k d end.
Proof.
  revert d. induction src as [|[k0 v0] src IH]; intros d Hs; [done |].
  rewrite od_update_cons. unfold od_keys in Hs. simpl in Hs.
  apply NoDup_cons in Hs as [Hk0 Hs]. rewrite IH by done. simpl.
  case_decide; subst.
  - apply od_get_None in Hk0. by rewrite Hk0, od_get_set_eq.
  - by rewrite od_get_set_ne.
Qed.

Lemma od_keys_update (k : key) (d src : odict) :
  k ∈ od_keys (od_update d src) <-> k ∈ od_keys d \/ k ∈ od_keys src.
Proof.
  revert d. induction src as [|[k0 v0] src IH]; intros d.
  - unfold od_keys at 3. simpl. rewrite elem_of_nil. tauto.
  - rewrite od_update_cons, IH, od_keys_set. unfold od_keys at 4. simpl.
    rewrite elem_of_cons. tauto.
Qed.


Lemma od_get_extras (reserved rd : odict) (k : key) :
  od_get k (extras reserved rd) = if is_extra reserved k then od_get k rd else None.
Proof.
  unfold extras. induction rd as [|[k0 v0] rd IH]; simpl.
  - by destruct (is_extra reserved k).
  - destruct (is_extra reserved k0) eqn:E0; simpl; case_decide; subst; rewrite ?IH, ?E0; try done.
Qed.

Lemma extras_NoDup (reserved rd : odict) :
  NoDup (od_keys rd) -> NoDup (od_keys (extras reserved rd)).
Proof.
  unfold extras, od_keys. induction rd as [|[k0 v0] rd IH]; simpl; [done |].
  intros [Hk Hd]%NoDup_cons. destruct (is_extra reserved k0); simpl; [|auto].
  apply NoDup_cons. split; [|auto].
  intros Hin. apply Hk. apply list_elem_of_fmap in Hin as ([k1 v1] & -> & Hin).
  apply list_elem_of_In, filter_In in Hin as [Hin _].
  apply list_elem_of_fmap. exists (k1, v1). split; [done |]. by apply list_elem_of_In.
Qed.

Lemma od_get_required_part (required : list string) (rd : odict) (k : key) :
  od_get k (required_part required rd) =
    match k with
    | KStr f => if bool_decide (f ∈ required) then Some (default VNone (od_get k rd)) else None
    | KInt _ => None
    end.
Proof.
  unfold required_part.
  assert (G : forall d, od_get k (fold_left (fun d f => od_set (KStr f) (default VNone (od_get (KStr f) rd)) d) required d)
    = match k with
      | KStr f => if bool_decide (f ∈ required) then Some (default VNone (od_get k rd)) else od_get k d
      | KInt _ => od_get k d
      end).
  { induction required as [|f0 required IH]; intros d; simpl.
    - by destruct k.
    - rewrite IH. destruct k as [f|z].
      + destruct (decide (f ∈ required)) as [Hin|Hn].
        * rewrite !bool_decide_eq_true_2; [done | by right | done].
        * rewrite (bool_decide_eq_false_2 _ Hn).
          destruct (decide (f = f0)) as [->|Hne].
          -- rewrite bool_decide_eq_true_2 by left. by rewrite od_get_set_eq.
          -- rewrite bool_decide_eq_false_2.
             ++ rewrite od_get_set_ne; [done | congruence].
             ++ intros [?|?]%elem_of_cons; done.
      + by rewrite od_get_set_ne. }
  rewrite G. by destruct k.
Qed.

Lemma required_part_NoDup (required : list string) (rd : odict) :
  NoDup (od_keys (required_part required rd)).
Proof.
  unfold required_part.
  assert (G : forall d, NoDup (od_keys d) ->
    NoDup (od_keys (fold_left (fun d f => od_set (KStr f) (default VNone (od_get (KStr f) rd)) d) required d))).
  { induction required as [|f0 required IH]; intros d Hd; simpl; [done |].
    by apply IH, od_set_NoDup. }
  apply G. apply NoDup_nil_2.
Qed.

Lemma fields_NoDup (self : JsonFormatter) (rd pd : odict) :
  NoDup (od_keys (fields self rd pd)).
Proof. unfold fields. apply od_update_NoDup, od_update_NoDup, required_part_NoDup. Qed.

(** The value of every key of the assembled record. *)
Lemma od_get_fields (self : JsonFormatter) (rd pd : odict) (k : key) :
  NoDup (od_keys rd) -> NoDup (od_keys pd) ->
  od_get k (fields self rd pd) =
    if is_extra self.(_skip_fields) k && od_mem k rd then od_get k rd
    else match od_get k pd with
         | Some v => Some v
         | None => od_get k (required_part self.(_required_fields) rd)
         end.
Proof.
  intros Hrd Hpd. unfold fields.
  rewrite od_get_update by by apply extras_NoDup.
  rewrite od_get_extras, od_get_update by done. unfold od_mem.
  destruct (is_extra _ k); simpl; [|done].
  by destruct (od_get k rd).
Qed.

End DictFacts.

(** ** The dict operations on the store *)

Section MonadFacts.

Lemma bind_unfold {A B} (m : M A) (f : A -> M B) (h : store) :
  (m ≫= f) h = match m h with
               | (inr a, h') => f a h'
               | (inl e, h') => (inl e, h')
               end.
Proof. reflexivity. Qed.

Lemma bind_inr {A B} (m : M A) (f : A -> M B) (h h' : store) (b : B) :
  (m ≫= f) h = (inr b, h') ->
  exists a h1, m h = (inr a, h1) /\ f a h1 = (inr b, h').
Proof.
  rewrite bind_unfold. destruct (m h) as [[e|a] h1]; [done |]. eauto.
Qed.

Lemma ret_inr {A} (a b : A) (h h' : store) :
  mret (M := M) a h = (inr b, h') -> a = b /\ h = h'.
Proof. by intros [= -> ->]. Qed.

Lemma reading_inr {A} (f : store -> exn + A) (a : A) (h h' : store) :
  reading f h = (inr a, h') -> f h = inr a /\ h' = h.
Proof. unfold reading. by intros [= -> ->]. Qed.

Lemma is_true_inr (v : pyval) (b : bool) (h h' : store) :
  is_true v h = (inr b, h') -> b = truthy h v /\ h' = h.
Proof. unfold is_true, reading. by intros [= <- <-]. Qed.

Lemma new_dict_inr (d : odict) (l : loc) (h h' : store) :
  new_dict d h = (inr l, h') -> l = List.length h /\ h' = h ++ [d].
Proof. unfold new_dict. by intros [= <- <-]. Qed.

Lemma dict_items_inr (l : loc) (d : odict) (h h' : store) :
  dict_items l h = (inr d, h') -> h !! l = Some d /\ h' = h.
Proof. unfold dict_items. destruct (h !! l); [|done]. by intros [= <- <-]. Qed.

Lemma dict_get_inr (l : loc) (k : key) (v : pyval) (h h' : store) :
  dict_get l k h = (inr v, h') ->
  exists d, h !! l = Some d /\ v = default VNone (od_get k d) /\ h' = h.
Proof.
  unfold dict_get. intros (d & h1 & [Hd ->]%dict_items_inr & [<- <-]%ret_inr)%bind_inr.
  eauto.
Qed.

Lemma getattr_inr (l : loc) (name : string) (v : pyval) (h h' : store) :
  getattr l name h = (inr v, h') ->
  attr h l (KStr name) = Some v /\ h' = h.
Proof.
  unfold getattr. intros (d & h1 & [Hd ->]%dict_items_inr & H)%bind_inr.
  unfold attr. rewrite Hd. simpl.
  destruct (od_get (KStr name) d); [|done]. apply ret_inr in H as [-> ->]. done.
Qed.

Lemma dict_setitem_inr (l : loc) (k : key) (v : pyval) (h h' : store) (u : unit) :
  dict_setitem l k v h = (inr u, h') ->
  exists d, h !! l = Some d /\ h' = <[l := od_set k v d]> h.
Proof. unfold dict_setitem. destruct (h !! l) as [d|]; [|done]. intros [= _ <-]. eauto. Qed.

Lemma dict_setitem_Some (l : loc) (k : key) (v : pyval) (d : odict) (h : store) :
  h !! l = Some d -> dict_setitem l k v h = (inr tt, <[l := od_set k v d]> h).
Proof. unfold dict_setitem. by intros ->. Qed.

(** What a store update does to every key of every dict. *)
Lemma attr_insert (h : store) (l l' : loc) (k k' : key) (v : pyval) (d : odict) :
  h !! l = Some d ->
  attr (<[l := od_set k v d]> h) l' k' =
    if decide (l = l' /\ k = k') then Some v else attr h l' k'.
Proof.
  intros Hd. unfold attr. destruct (decide (l = l')) as [<-|Hl].
  - rewrite list_lookup_insert_eq by by eapply lookup_lt_Some.
    rewrite Hd. simpl. rewrite od_get_set. repeat case_decide; naive_solver.
  - rewrite list_lookup_insert_ne by done. case_decide; naive_solver.
Qed.

Lemma attr_app (h : store) (d : odict) (l : loc) (k : key) :
  l < List.length h -> attr (h ++ [d]) l k = attr h l k.
Proof. intros. unfold attr. by rewrite lookup_app_l. Qed.

Lemma wf_store_insert (h : store) (l : loc) (k : key) (v : pyval) (d : odict) :
  wf_store h -> h !! l = Some d -> wf_store (<[l := od_set k v d]> h).
Proof.
  unfold wf_store. intros Hwf Hd. apply Forall_insert; [done |].
  apply od_set_NoDup. eapply Forall_lookup_1 in Hwf; eauto.
Qed.

Lemma wf_store_app (h : store) (d : odict) :
  wf_store h -> NoDup (od_keys d) -> wf_store (h ++ [d]).
Proof. unfold wf_store. intros. apply Forall_app. split; [done |]. by apply Forall_singleton. Qed.

Lemma wf_store_lookup (h : store) (l : loc) (d : odict) :
  wf_store h -> h !! l = Some d -> NoDup (od_keys d).
Proof. unfold wf_store. intros Hwf Hd. eapply Forall_lookup_1 in Hwf; eauto. Qed.

(** ** The loops of [add_fields] *)

Lemma update_loop (t : loc) (items d : odict) (h : store) :
  h !! t = Some d ->
  for_each items (fun kv : key * pyval => dict_setitem t kv.1 kv.2) h
  = (inr tt, <[t := od_update d items]> h).
Proof.
  revert d h. induction items as [|[k v] items IH]; intros d h Hd.
  - simpl. by rewrite list_insert_id.
  - simpl for_each. rewrite bind_unfold, (dict_setitem_Some _ _ _ d) by done.
    rewrite (IH (od_set k v d)).
    + by rewrite list_insert_insert_eq.
    + apply list_lookup_insert_eq. by eapply lookup_lt_Some.
Qed.

Lemma required_loop (t r : loc) (required : list string) (d rd : odict) (h : store) :
  t ≠ r -> h !! t = Some d -> h !! r = Some rd ->
  for_each required (fun field =>
    v ← dict_get r (KStr field); dict_setitem t (KStr field) v) h
  = (inr tt,
     <[t := fold_left (fun d f => od_set (KStr f) (default VNone (od_get (KStr f) rd)) d)
              required d]> h).
Proof.
  intros Hne. revert d h. induction required as [|f required IH]; intros d h Hd Hr.
  - simpl. by rewrite list_insert_id.
  - simpl for_each. rewrite bind_unfold.
    assert ((v ← dict_get r (KStr f); dict_setitem t (KStr f) v) h
            = (inr tt, <[t := od_set (KStr f) (default VNone (od_get (KStr f) rd)) d]> h)) as ->.
    { rewrite bind_unfold. unfold dict_get. rewrite bind_unfold. unfold dict_items.
      rewrite Hr. simpl. by apply dict_setitem_Some. }
    rewrite (IH (od_set (KStr f) (default VNone (od_get (KStr f) rd)) d)).
    + by rewrite list_insert_insert_eq.
    + apply list_lookup_insert_eq. by eapply lookup_lt_Some.
    + by rewrite list_lookup_insert_ne.
Qed.

Lemma extra_loop (t : loc) (reserved items d : odict) (h : store) :
  h !! t = Some d ->
  for_each items (fun kv : key * pyval =>
    if negb (od_mem kv.1 reserved) && negb (is_private kv.1)
    then dict_setitem t kv.1 kv.2 else mret tt) h
  = (inr tt, <[t := od_update d (extras reserved items)]> h).
Proof.
  revert d h. induction items as [|[k v] items IH]; intros d h Hd.
  - simpl. by rewrite list_insert_id.
  - simpl for_each. rewrite bind_unfold. unfold extras. simpl. unfold is_extra at 1. simpl.
    destruct (negb (od_mem k reserved) && negb (is_private k)).
    + rewrite (dict_setitem_Some _ _ _ d) by done.
      rewrite (IH (od_set k v d)).
      * by rewrite list_insert_insert_eq.
      * apply list_lookup_insert_eq. by eapply lookup_lt_Some.
    + simpl. by apply IH.
Qed.

(** [merge_record_extra] copies the attributes that pass its test, and
    nothing else. *)
Lemma merge_record_extra_spec (r t : loc) (reserved rd d : odict) (h : store) :
  t ≠ r -> h !! r = Some rd -> h !! t = Some d ->
  merge_record_extra r t reserved h
  = (inr t, <[t := od_update d (extras reserved rd)]> h).
Proof.
  intros Hne Hr Ht. unfold merge_record_extra.
  rewrite bind_unfold. unfold dict_items. rewrite Hr.
  rewrite bind_unfold, (extra_loop t reserved rd d) by done. done.
Qed.

Lemma add_fields_spec (self : JsonFormatter) (lr r md : loc) (rd pd : odict) (h : store) :
  lr ≠ r -> lr ≠ md ->
  h !! lr = Some [] -> h !! r = Some rd -> h !! md = Some pd ->
  add_fields self lr r md h = (inr tt, <[lr := fields self rd pd]> h).
Proof.
  intros Hr Hmd Hl Hrd Hpd. unfold add_fields.
  rewrite bind_unfold, (required_loop lr r _ [] rd) by done.
  assert (Hlt : lr < List.length h) by by eapply lookup_lt_Some.
  rewrite bind_unfold. unfold dict_update. rewrite bind_unfold. unfold dict_items.
  rewrite list_lookup_insert_ne, Hpd by done.
  rewrite (update_loop lr pd (required_part (_required_fields self) rd))
    by by apply list_lookup_insert_eq.
  rewrite list_insert_insert_eq.
  rewrite bind_unfold, (merge_record_extra_spec r lr _ rd (od_update (required_part (_required_fields self) rd) pd)).
  - by rewrite list_insert_insert_eq.
  - done.
  - by rewrite list_lookup_insert_ne.
  - by apply list_lookup_insert_eq.
Qed.

End MonadFacts.

Section PrepareFacts.
Context `{Host}.

Lemma dict_setitem_store_set (l : loc) (k : key) (v : pyval) (h h' : store) (u : unit) :
  dict_setitem l k v h = (inr u, h') -> is_Some (h !! l) /\ h' = store_set l k v h.
Proof.
  intros (d & Hd & ->)%dict_setitem_inr. unfold store_set. rewrite Hd. eauto.
Qed.

Lemma attr_store_set (l l' : loc) (k k' : key) (v : pyval) (h : store) :
  attr (store_set l k v h) l' k' =
    if decide (l = l' /\ k = k' /\ is_Some (h !! l)) then Some v else attr h l' k'.
Proof.
  unfold store_set. destruct (h !! l) as [d|] eqn:Hd.
  - rewrite (attr_insert h l l' k k' v d Hd).
    repeat case_decide; try done; naive_solver.
  - case_decide as Hc; [|done]. destruct Hc as (_ & _ & [? ?]). done.
Qed.

Lemma length_store_set (l : loc) (k : key) (v : pyval) (h : store) :
  List.length (store_set l k v h) = List.length h.
Proof. unfold store_set. destruct (h !! l); [apply length_insert | done]. Qed.

Lemma lookup_store_set_is_Some (l l' : loc) (k : key) (v : pyval) (h : store) :
  is_Some (store_set l k v h !! l') <-> is_Some (h !! l').
Proof. rewrite !lookup_lt_is_Some, length_store_set. done. Qed.

Lemma wf_store_set (l : loc) (k : key) (v : pyval) (h : store) :
  wf_store h -> wf_store (store_set l k v h).
Proof.
  intros Hwf. unfold store_set. destruct (h !! l) as [d|] eqn:Hd; [|done].
  by apply wf_store_insert.
Qed.

Lemma getMessage_inr (r : loc) (m : string) (h h' : store) :
  getMessage r h = (inr m, h') -> h' = h.
Proof.
  unfold getMessage.
  intros (v & h1 & [_ ->]%getattr_inr & H1)%bind_inr.
  apply bind_inr in H1 as (s & h2 & [_ ->]%reading_inr & H1).
  apply bind_inr in H1 as (a & h3 & [_ ->]%getattr_inr & H1).
  apply bind_inr in H1 as (b & h4 & [_ ->]%is_true_inr & H1).
  destruct b.
  - by apply reading_inr in H1 as [_ ->].
  - by apply ret_inr in H1 as [_ ->].
Qed.

(** The steps of [prepare], one after the other. *)
Lemma prepare_inr (self : JsonFormatter) (r md : loc) (h h1 : store) :
  prepare self r h = (inr md, h1) ->
  exists (msg ei : pyval) (hb hc hd : store),
    let ha := h ++ [[]] in
    attr h r (KStr "msg") = Some msg
    /\ match msg with
       | VDict l => md = l /\ hb = store_set r (KStr "message") VNone ha
       | _ => md = List.length h
              /\ exists m, getMessage r ha = (inr m, ha)
                           /\ hb = store_set r (KStr "message") (VStr m) ha
       end
    /\ (if bool_decide ("asctime" ∈ self.(_required_fields))
        then exists t, formatTime hb r self.(datefmt) = inr t
                       /\ hc = store_set r (KStr "asctime") (VStr t) hb
        else hc = hb)
    /\ attr hc r (KStr "exc_info") = Some ei
    /\ is_Some (hc !! md)
    /\ hd = (if truthy hc ei
                && negb (truthy hc (default VNone (attr hc md (KStr "exc_info"))))
             then store_set md (KStr "exc_info") (VStr (formatException ei)) hc
             else hc)
    /\ (if truthy hd (default VNone (attr hd md (KStr "exc_info")))
        then h1 = hd
        else exists et, attr hd r (KStr "exc_text") = Some et
                        /\ h1 = if truthy hd et
                                then store_set md (KStr "exc_info") et hd
                                else hd).
Proof.
  unfold prepare.
  intros (fresh & ha & [-> ->]%new_dict_inr & H1)%bind_inr.
  apply bind_inr in H1 as (msg & h2 & [Hmsg ->]%getattr_inr & H1).
  apply bind_inr in H1 as (md' & hb & Hb & H1).
  apply bind_inr in H1 as ([] & hc & Hc & H1).
  apply bind_inr in H1 as (shown & h3 & Hshown & H1).
  apply bind_inr in H1 as ([] & hd & Hd & H1).
  apply bind_inr in H1 as (cached & h4 & Hcached & H1).
  apply bind_inr in H1 as ([] & h5 & He & [-> ->]%ret_inr).
  assert (Hr : r < List.length h).
  { unfold attr in Hmsg. destruct ((h ++ [[]]) !! r) as [d|] eqn:E; [|done].
    apply lookup_lt_Some in E as E'. rewrite length_app in E'. simpl in E'.
    destruct (decide (r = List.length h)) as [->|]; [|lia].
    rewrite lookup_app_r, Nat.sub_diag in E by lia. simpl in E.
    injection E as <-. done. }
  rewrite attr_app in Hmsg by done.
  exists msg.
  (* the message *)
  assert (Hb' : match msg with
       | VDict l => md = l /\ hb = store_set r (KStr "message") VNone (h ++ [[]])
       | _ => md = List.length h
              /\ exists m, getMessage r (h ++ [[]]) = (inr m, h ++ [[]])
                           /\ hb = store_set r (KStr "message") (VStr m) (h ++ [[]])
       end).
  { destruct msg;
      try (apply bind_inr in Hb as (rendered & h6 & Hm & Hb);
           pose proof (getMessage_inr _ _ _ _ Hm) as ->;
           apply bind_inr in Hb as ([] & h7 & [_ ->]%dict_setitem_store_set & [<- <-]%ret_inr);
           split; [done | by exists rendered]).
    apply bind_inr in Hb as ([] & h7 & [_ ->]%dict_setitem_store_set & [<- <-]%ret_inr).
    done. }
  clear Hb.
  (* asctime *)
  assert (Hc' : if bool_decide ("asctime" ∈ self.(_required_fields))
        then exists t, formatTime hb r self.(datefmt) = inr t
                       /\ hc = store_set r (KStr "asctime") (VStr t) hb
        else hc = hb).
  { destruct (bool_decide _).
    - apply bind_inr in Hc as (t & h6 & [Ht ->]%reading_inr & [_ ->]%dict_setitem_store_set).
      by exists t.
    - by apply ret_inr in Hc as [_ ->]. }
  clear Hc.
  (* the exception *)
  apply bind_inr in Hshown as (ei & h6 & [Hei ->]%getattr_inr & Hshown).
  apply bind_inr in Hshown as (has_exc & h6 & [-> ->]%is_true_inr & Hshown).
  exists ei, hb, hc, hd. simpl.
  split; [done |]. split; [done |]. split; [done |]. split; [done |].
  apply bind_inr in Hcached as (given & h6 & (pd & Hpd & -> & ->)%dict_get_inr & Hcached).
  apply bind_inr in Hcached as (has_given & h6 & [-> ->]%is_true_inr & Hcached).
  assert (Hd' : is_Some (hc !! md) /\ hd = (if truthy hc ei
                && negb (truthy hc (default VNone (attr hc md (KStr "exc_info"))))
             then store_set md (KStr "exc_info") (VStr (formatException ei)) hc
             else hc)).
  { destruct (truthy hc ei) eqn:Et; simpl.
    - apply bind_inr in Hshown as (given & h6 & (pd' & Hpd' & -> & ->)%dict_get_inr & Hshown).
      apply bind_inr in Hshown as (has_given & h6 & [-> ->]%is_true_inr & [<- <-]%ret_inr).
      unfold attr. rewrite Hpd'. simpl. split; [done |].
      revert Hd.
      destruct (od_get (KStr "exc_info") pd') as [g|]; simpl; [destruct (truthy hc g); simpl |];
        intros Hd;
        first [ by apply ret_inr in Hd as [_ ->]
              | apply bind_inr in Hd as (ei' & h6 & [Hei' ->]%getattr_inr & [_ ->]%dict_setitem_store_set);
                congruence ].
    - apply ret_inr in Hshown as [<- <-]. apply ret_inr in Hd as [_ ->].
      split; [|done]. apply lookup_lt_is_Some. apply lookup_lt_Some in Hpd. done. }
  destruct Hd' as [Hmd Hd']. split; [done |]. split; [done |].
  unfold attr at 1. rewrite Hpd. simpl.
  revert Hcached.
  destruct (truthy hd (default VNone (od_get (KStr "exc_info") pd))); intros Hcached.
  - apply ret_inr in Hcached as [<- <-]. by apply ret_inr in He as [_ ->].
  - apply bind_inr in Hcached as (et & h6 & [Het ->]%getattr_inr & [-> ->]%is_true_inr).
    exists et. split; [done |]. revert He.
    destruct (truthy hd et); intros He.
    + apply bind_inr in He as (et' & h6 & [Het' ->]%getattr_inr & [_ ->]%dict_setitem_store_set).
      congruence.
    + by apply ret_inr in He as [_ ->].
Qed.

End PrepareFacts.

Section AssembleFacts.
Context `{Host}.

Lemma truth_truthy (v : pyval) (b : bool) (h : store) : truth v = Some b -> truthy h v = b.
Proof. destruct v; simpl; intros [= <-]; done. Qed.

Lemma prepare_shape (self : JsonFormatter) (r md : loc) (h h1 : store) :
  prepare self r h = (inr md, h1) ->
  List.length h1 = S (List.length h) /\ r < List.length h /\ md < List.length h1
  /\ (wf_store h -> wf_store h1).
Proof.
  intros (msg & ei & hb & hc & hd & Hmsg & Hb & Hc & Hei & Hmd & Hd & H1)%prepare_inr.
  simpl in *.
  assert (Hr : is_Some (h !! r)).
  { unfold attr in Hmsg. destruct (h !! r); [eauto | done]. }
  apply lookup_lt_is_Some in Hr.
  assert (Hlb : List.length hb = S (List.length h) /\ (wf_store h -> wf_store hb)).
  { assert (wf_store h -> wf_store (h ++ [[]])) as Hwa.
    { intros. apply wf_store_app; [done | apply NoDup_nil_2]. }
    assert (List.length (h ++ [[]]) = S (List.length h)) as Hla.
    { rewrite length_app. simpl. lia. }
    destruct msg; destruct Hb as [_ Hb]; try destruct Hb as (? & _ & Hb); subst hb;
      rewrite length_store_set; (split; [done | intros; by apply wf_store_set, Hwa]). }
  destruct Hlb as [Hlb Hwb].
  assert (Hlc : List.length hc = S (List.length h) /\ (wf_store h -> wf_store hc)).
  { destruct (bool_decide _).
    - destruct Hc as (t & _ & ->). rewrite length_store_set.
      split; [done | intros; by apply wf_store_set, Hwb].
    - by subst hc. }
  destruct Hlc as [Hlc Hwc].
  assert (Hld : List.length hd = S (List.length h) /\ (wf_store h -> wf_store hd)).
  { subst hd. destruct (_ && _).
    - rewrite length_store_set. split; [done | intros; by apply wf_store_set, Hwc].
    - done. }
  destruct Hld as [Hld Hwd].
  assert (Hl1 : List.length h1 = S (List.length h) /\ (wf_store h -> wf_store h1)).
  { destruct (truthy hd _).
    - by subst h1.
    - destruct H1 as (et & _ & ->). destruct (truthy hd et).
      + rewrite length_store_set. split; [done | intros; by apply wf_store_set, Hwd].
      + done. }
  destruct Hl1 as [Hl1 Hw1].
  apply lookup_lt_is_Some in Hmd.
  repeat split; try done; lia.
Qed.

Lemma assemble_inr (self : JsonFormatter) (r lr : loc) (h h' : store) :
  assemble self r h = (inr lr, h') ->
  exists md h1 rd pd,
    prepare self r h = (inr md, h1)
    /\ h1 !! r = Some rd /\ h1 !! md = Some pd
    /\ lr = List.length h1 /\ h' = h1 ++ [fields self rd pd].
Proof.
  unfold assemble.
  intros (md & h1 & Hp & H1)%bind_inr.
  apply bind_inr in H1 as (lr' & h2 & [-> ->]%new_dict_inr & H1).
  apply bind_inr in H1 as ([] & h3 & Ha & [<- <-]%ret_inr).
  destruct (prepare_shape _ _ _ _ _ Hp) as (Hlen & Hr & Hmd & _).
  assert (is_Some (h1 !! r)) as [rd Hrd] by (apply lookup_lt_is_Some; lia).
  assert (is_Some (h1 !! md)) as [pd Hpd] by (by apply lookup_lt_is_Some).
  exists md, h1, rd, pd. repeat split; try done.
  rewrite (add_fields_spec self _ r md rd pd) in Ha.
  - injection Ha as <-.
    rewrite insert_app_r_alt, Nat.sub_diag by done. done.
  - lia.
  - lia.
  - rewrite lookup_app_r, Nat.sub_diag by done. done.
  - by rewrite lookup_app_l by lia.
  - by rewrite lookup_app_l by lia.
Qed.

Lemma format_inr (self : JsonFormatter) (r : loc) (h h' : store) (text : string) :
  format self r h = (inr text, h') ->
  exists lr body,
    assemble self r h = (inr lr, h')
    /\ self.(json_serializer) None h' (VDict lr) = inr body
    /\ text = self.(prefix) +:+ body.
Proof.
  unfold format.
  intros (lr & h1 & Ha & H1)%bind_inr.
  apply bind_inr in H1 as (body & h2 & [Hj ->]%reading_inr & [<- <-]%ret_inr).
  eauto.
Qed.

(** The reserved names and the required fields are what [_skip_fields]
    holds. *)
Lemma name_hash_keys (names : list string) (k : key) :
  k ∈ od_keys (name_hash names) <-> exists f, k = KStr f /\ f ∈ names.
Proof.
  unfold name_hash, dict_zip.
  change (fold_left _ ?src []) with (od_update [] src).
  rewrite od_keys_update. unfold od_keys at 2.
  rewrite fst_zip by (rewrite !length_fmap; done).
  rewrite list_elem_of_fmap. unfold od_keys. cbn [fmap list_fmap]. rewrite elem_of_nil.
  naive_solver.
Qed.

Lemma init_inr (kw : init_kwargs) (self : JsonFormatter) :
  JsonFormatter_init kw = inr self ->
  kw.(kw_json_serializer) = None
  /\ self.(json_serializer) = json_dumps
  /\ self.(_required_fields) = parse self.(_fmt)
  /\ self.(_skip_fields) = od_update (name_hash self.(_required_fields)) RESERVED_ATTR_HASH.
Proof.
  unfold JsonFormatter_init, Formatter_init.
  destruct (kw_json_serializer kw); [intros [=] |].
  destruct (valid_fmt _); [|intros [=]].
  intros Hs%(inj inr). subst self.
  cbn [json_serializer _required_fields _fmt _skip_fields].
  repeat split; reflexivity.
Qed.

Lemma init_skip_fields (kw : init_kwargs) (self : JsonFormatter) (k : key) :
  JsonFormatter_init kw = inr self ->
  od_mem k self.(_skip_fields) = true
  <-> exists f, k = KStr f /\ (f ∈ self.(_required_fields) \/ f ∈ RESERVED_ATTRS).
Proof.
  intros (_ & _ & _ & ->)%init_inr.
  rewrite od_mem_keys, od_keys_update. unfold RESERVED_ATTR_HASH.
  generalize RESERVED_ATTRS. intros reserved.
  rewrite (name_hash_keys (_required_fields self)), (name_hash_keys reserved).
  split.
  - intros [(f & -> & Hf)|(f & -> & Hf)]; exists f; auto.
  - intros (f & -> & [Hf|Hf]); [left | right]; exists f; auto.
Qed.
End AssembleFacts.

Section ParseClaim.
Context `{Host}.




End ParseClaim.





Lemma formatter_init (fmt : string) :
  fmt <> "" -> @JsonFormatter_init Scenario.host (Scenario.kwargs fmt) = inr (Scenario.formatter fmt).
Proof. destruct fmt as [|c f]; [done | reflexivity]. Qed.



Section Precedence.
Context `{Host}.

Lemma assemble_fields (self : JsonFormatter) (r md lr : loc) (h h1 h' : store) :
  wf_store h ->
  prepare self r h = (inr md, h1) -> assemble self r h = (inr lr, h') ->
  exists rd pd,
    h' !! r = Some rd /\ h' !! md = Some pd /\ h' !! lr = Some (fields self rd pd)
    /\ h1 !! r = Some rd /\ h1 !! md = Some pd
    /\ NoDup (od_keys rd) /\ NoDup (od_keys pd).
Proof.
  intros Hwf Hp (md' & h1' & rd & pd & Hp' & Hrd & Hpd & -> & ->)%assemble_inr.
  rewrite Hp in Hp'. injection Hp' as <- <-.
  destruct (prepare_shape _ _ _ _ _ Hp) as (Hlen & Hr & Hmd & Hwf1).
  exists rd, pd.
  rewrite !lookup_app_l by lia.
  rewrite lookup_app_r, Nat.sub_diag by done.
  repeat split; try done; (eapply wf_store_lookup; [apply Hwf1, Hwf | done]).
Qed.

Lemma is_extra_skip (kw : init_kwargs) (self : JsonFormatter) (k : key) :
  JsonFormatter_init kw = inr self ->
  is_extra self.(_skip_fields) k = true
  <-> ((forall f, k = KStr f -> (f ∉ self.(_required_fields)) /\ (f ∉ RESERVED_ATTRS))
       /\ is_private k = false).
Proof.
  intros Hi. unfold is_extra. rewrite andb_true_iff, !negb_true_iff.
  rewrite <- not_true_iff_false, (init_skip_fields kw self k Hi).
  split.
  - intros [Hn Hp]. split; [|done]. intros f -> . split; intros ?; apply Hn; eauto.
  - intros [Hn Hp]. split; [|done]. intros (f & -> & [?|?]); destruct (Hn f eq_refl); done.
Qed.

End Precedence.

(** C5, as amended: when the message payload defines a key that is also a
    required field (or any name [merge_record_extra] skips, or a name the
    event has no attribute for), the payload's value is the one in the
    assembled record; when the key is the name of an extra attribute that
    is merged, the attribute's value is the one in the assembled record,
    because the extras are merged after the payload. *)
Theorem payload_precedence `{Host} (kw : init_kwargs) (self : JsonFormatter)
    (r md lr : loc) (h h1 h' : store) :
  JsonFormatter_init kw = inr self -> wf_store h ->
  prepare self r h = (inr md, h1) -> assemble self r h = (inr lr, h') ->
  exists rd pd out,
    h' !! r = Some rd /\ h' !! md = Some pd /\ h' !! lr = Some out
    /\ forall k v, od_get k pd = Some v ->
         (forall f, k = KStr f -> f ∈ self.(_required_fields) -> od_get k out = Some v)
         /\ (is_extra self.(_skip_fields) k = false -> od_get k out = Some v)
         /\ (k ∉ od_keys rd -> od_get k out = Some v)
         /\ (forall x, od_get k rd = Some x -> is_extra self.(_skip_fields) k = true ->
               od_get k out = Some x).
Proof.
  intros Hi Hwf Hp Ha.
  destruct (assemble_fields _ _ _ _ _ _ _ Hwf Hp Ha)
    as (rd & pd & Hrd & Hpd & Hout & _ & _ & Nrd & Npd).
  exists rd, pd, (fields self rd pd). repeat split; try done.
  - intros f -> Hf. rewrite od_get_fields by done.
    assert (is_extra (_skip_fields self) (KStr f) = false) as ->.
    { apply not_true_iff_false. rewrite (is_extra_skip kw) by done.
      intros [Hn _]. destruct (Hn f eq_refl). done. }
    simpl. by rewrite H0.
  - intros E. rewrite od_get_fields by done. rewrite E. simpl. by rewrite H0.
  - intros Hk. rewrite od_get_fields by done.
    assert (od_mem k rd = false) as ->.
    { apply not_true_iff_false. by rewrite od_mem_keys. }
    rewrite andb_false_r. by rewrite H0.
  - intros x Hx E. rewrite od_get_fields by done. rewrite E. unfold od_mem. by rewrite Hx.
Qed.

Lemma payload_precedence_witness :
  exists rd pd out,
    (Scenario.assemble_at "(user)" Scenario.clash).2 !! 0 = Some rd
    /\ (Scenario.assemble_at "(user)" Scenario.clash).2 !! 1 = Some pd
    /\ (Scenario.assemble_at "(user)" Scenario.clash).2 !! 3 = Some out
    /\ forall k v, od_get k pd = Some v ->
         (forall f, k = KStr f -> f ∈ ["user"] -> od_get k out = Some v)
         /\ (is_extra (Scenario.formatter "(user)").(_skip_fields) k = false -> od_get k out = Some v)
         /\ (k ∉ od_keys rd -> od_get k out = Some v)
         /\ (forall x, od_get k rd = Some x ->
               is_extra (Scenario.formatter "(user)").(_skip_fields) k = true ->
               od_get k out = Some x).
Proof.
  apply (@payload_precedence Scenario.host (Scenario.kwargs "(user)")
           (Scenario.formatter "(user)") 0 1 3 Scenario.clash
           (Scenario.prepare_at "(user)" Scenario.clash).2).
  - reflexivity.
  - apply (bool_decide_unpack _). vm_compute. exact I.
  - vm_compute. reflexivity.
  - vm_compute. reflexivity.
Defined.

(** C5, as stated, fails: with the payload [{"user": "alice"}] and the
    extra attribute [user="bob"], the assembled record holds ["bob"]. *)
Lemma payload_always_wins_refuted : ~ payload_always_wins.
Proof.
  intros Hc.
  specialize (Hc Scenario.host (Scenario.kwargs "(message)")
    (Scenario.formatter "(message)") 0 1 3 Scenario.clash
    (Scenario.prepare_at "(message)" Scenario.clash).2
    (Scenario.assemble_at "(message)" Scenario.clash).2
    (Reference.make_record "app" "INFO" 20 (VDict 1) (VTuple []) VNone 1584186153 7
        [ (KStr "user", VStr "bob"); (KStr "message", VNone) ])
    [ (KStr "user", VStr "alice") ]
    [ (KStr "message", VNone); (KStr "user", VStr "bob") ]
    (KStr "user") (VStr "alice")).
  assert (Some (VStr "bob") = Some (VStr "alice")) as [=].
  apply Hc.
  - reflexivity.
  - apply (bool_decide_unpack _). vm_compute. exact I.
  - vm_compute. reflexivity.
  - vm_compute. reflexivity.
  - vm_compute. reflexivity.
  - vm_compute. reflexivity.
  - vm_compute. reflexivity.
  - vm_compute. reflexivity.
  - right. apply (bool_decide_unpack _). vm_compute. exact I.
Qed.

Ltac frame_ne :=
  let E1 := fresh in let E2 := fresh in
  intros [E1 E2]; subst; try discriminate; try congruence; try lia;
  intuition (try discriminate; try congruence; eauto).

Section PrepareEffects.
Context `{Host}.

Lemma attr_store_set_ne (l l' : loc) (k k' : key) (v : pyval) (s : store) :
  ~ (l = l' /\ k = k') -> attr (store_set l k v s) l' k' = attr s l' k'.
Proof. intros Hn. rewrite attr_store_set. case_decide; [|done]. tauto. Qed.

Lemma attr_store_set_eq (l : loc) (k : key) (v : pyval) (s : store) :
  is_Some (s !! l) -> attr (store_set l k v s) l k = Some v.
Proof. intros Hs. rewrite attr_store_set. case_decide; [done |]. tauto. Qed.

Lemma attr_is_Some (s : store) (l : loc) (k : key) (v : pyval) :
  attr s l k = Some v -> l < List.length s.
Proof.
  unfold attr. destruct (s !! l) eqn:E; [|done]. intros _. by eapply lookup_lt_Some.
Qed.

(** [prepare] writes [message] and [asctime] on the event and [exc_info]
    in the payload, and nothing else. *)
Lemma prepare_frame (self : JsonFormatter) (r md : loc) (h h1 : store) (l : loc) (k : key) :
  prepare self r h = (inr md, h1) ->
  l < List.length h ->
  ~ (l = r /\ (k = KStr "message" \/ k = KStr "asctime")) ->
  ~ (l = md /\ k = KStr "exc_info") ->
  attr h1 l k = attr h l k.
Proof.
  intros (msg & ei & hb & hc & hd & Hmsg & Hb & Hc & Hei & Hmd & Hd & H1)%prepare_inr Hl Hr Hm.
  simpl in *.
  assert (Eb : attr hb l k = attr h l k).
  { rewrite <- (attr_app h [] l k Hl).
    destruct msg; destruct Hb as [_ Hb]; try destruct Hb as (? & _ & Hb); subst hb;
      apply attr_store_set_ne; frame_ne. }
  assert (Ec : attr hc l k = attr h l k).
  { rewrite <- Eb. destruct (bool_decide _).
    - destruct Hc as (t & _ & ->). apply attr_store_set_ne. frame_ne.
    - by subst hc. }
  assert (Ed : attr hd l k = attr h l k).
  { rewrite <- Ec. subst hd. destruct (_ && _); [|done]. apply attr_store_set_ne; frame_ne. }
  rewrite <- Ed. destruct (truthy hd _); [by subst h1 |].
  destruct H1 as (et & _ & ->). destruct (truthy hd et); [|done]. apply attr_store_set_ne; frame_ne.
Qed.

(** The [message] attribute of the event after [prepare]. *)
Lemma prepare_message (self : JsonFormatter) (r md : loc) (h h1 : store) :
  prepare self r h = (inr md, h1) ->
  exists msg v,
    attr h r (KStr "msg") = Some msg
    /\ attr h1 r (KStr "message") = Some v
    /\ match msg with
       | VDict l => md = l /\ v = VNone
       | _ => md = List.length h
              /\ exists m, getMessage r (h ++ [[]]) = (inr m, h ++ [[]]) /\ v = VStr m
       end.
Proof.
  intros (msg & ei & hb & hc & hd & Hmsg & Hb & Hc & Hei & Hmd & Hd & H1)%prepare_inr.
  simpl in *.
  pose proof (attr_is_Some _ _ _ _ Hmsg) as Hr.
  assert (Ha : is_Some ((h ++ [[]]) !! r)).
  { apply lookup_lt_is_Some. rewrite length_app. lia. }
  assert (exists v, attr hb r (KStr "message") = Some v
     /\ match msg with
        | VDict l => md = l /\ v = VNone
        | _ => md = List.length h
               /\ exists m, getMessage r (h ++ [[]]) = (inr m, h ++ [[]]) /\ v = VStr m
        end) as (v & Eb & Hv).
  { destruct msg; destruct Hb as [Hmd' Hb];
      try (destruct Hb as (m' & Hg & Hb); exists (VStr m'); subst hb;
           split; [by apply attr_store_set_eq | split; [done | by exists m']]).
    exists VNone. subst hb. split; [by apply attr_store_set_eq | done]. }
  exists msg, v. split; [done |]. split; [|done].
  assert (Ec : attr hc r (KStr "message") = Some v).
  { rewrite <- Eb. destruct (bool_decide _).
    - destruct Hc as (t & _ & ->). apply attr_store_set_ne. frame_ne.
    - by subst hc. }
  assert (Ed : attr hd r (KStr "message") = Some v).
  { rewrite <- Ec. subst hd. destruct (_ && _); [|done]. apply attr_store_set_ne. frame_ne. }
  rewrite <- Ed. destruct (truthy hd _); [by subst h1 |].
  destruct H1 as (et & _ & ->). destruct (truthy hd et); [|done].
  apply attr_store_set_ne. frame_ne.
Qed.

(** The [asctime] attribute of the event after [prepare]. *)
Lemma prepare_asctime (self : JsonFormatter) (r md : loc) (h h1 : store) :
  prepare self r h = (inr md, h1) ->
  "asctime" ∈ self.(_required_fields) ->
  exists t, attr h1 r (KStr "asctime") = Some (VStr t).
Proof.
  intros (msg & ei & hb & hc & hd & Hmsg & Hb & Hc & Hei & Hmd & Hd & H1)%prepare_inr Hin.
  simpl in *.
  rewrite bool_decide_eq_true_2 in Hc by done. destruct Hc as (t & _ & Hc).
  exists t.
  pose proof (attr_is_Some _ _ _ _ Hei) as Hrc.
  assert (Ec : attr hc r (KStr "asctime") = Some (VStr t)).
  { subst hc. rewrite length_store_set in Hrc.
    apply attr_store_set_eq. by apply lookup_lt_is_Some. }
  assert (Ed : attr hd r (KStr "asctime") = Some (VStr t)).
  { rewrite <- Ec. subst hd. destruct (_ && _); [|done]. apply attr_store_set_ne. frame_ne. }
  rewrite <- Ed. destruct (truthy hd _); [by subst h1 |].
  destruct H1 as (et & _ & ->). destruct (truthy hd et); [|done].
  apply attr_store_set_ne. frame_ne.
Qed.

(** The three ways the payload gets its [exc_info]. *)
Lemma prepare_exc_rendered (self : JsonFormatter) (r md : loc) (h h1 : store) (ei : pyval) :
  prepare self r h = (inr md, h1) ->
  attr h r (KStr "exc_info") = Some ei -> truth ei = Some true ->
  attr h md (KStr "exc_info") = None ->
  formatException ei <> "" ->
  attr h1 md (KStr "exc_info") = Some (VStr (formatException ei)).
Proof.
  intros Hp Hei Ht Hnone Hne.
  pose proof (prepare_frame self r md h h1 r (KStr "exc_info") Hp) as Hfr.
  pose proof (prepare_shape _ _ _ _ _ Hp) as (Hlen & Hr & Hmdlt & _).
  destruct (prepare_inr _ _ _ _ _ Hp)
    as (msg & ei' & hb & hc & hd & Hmsg & Hb & Hc & Hei' & Hmd & Hd & H1).
  simpl in *.
  assert (Ehc : forall l k, ~ (l = r /\ (k = KStr "message" \/ k = KStr "asctime")) ->
            attr hc l k = attr (h ++ [[]]) l k).
  { intros l k Hn.
    assert (Eb : attr hb l k = attr (h ++ [[]]) l k).
    { destruct msg; destruct Hb as [_ Hb]; try destruct Hb as (? & _ & Hb); subst hb;
        apply attr_store_set_ne; frame_ne. }
    rewrite <- Eb. destruct (bool_decide _).
    - destruct Hc as (t & _ & ->). apply attr_store_set_ne. frame_ne.
    - by subst hc. }
  rewrite Ehc, attr_app in Hei' by (done || frame_ne).
  assert (ei' = ei) as -> by congruence.
  assert (Eg : attr hc md (KStr "exc_info") = None).
  { rewrite Ehc by frame_ne.
    destruct (decide (md < List.length h)) as [Hlt|Hge].
    - by rewrite attr_app.
    - assert (md = List.length h) as -> by lia.
      unfold attr. rewrite lookup_app_r, Nat.sub_diag by done. done. }
  rewrite Eg in Hd. simpl in Hd. rewrite (truth_truthy _ _ _ Ht) in Hd. simpl in Hd.
  assert (Ed : attr hd md (KStr "exc_info") = Some (VStr (formatException ei))).
  { subst hd. by apply attr_store_set_eq. }
  rewrite Ed in H1. simpl in H1.
  destruct (String.eqb_spec (formatException ei) ""); [done |]. simpl in H1. by subst h1.
Qed.

Lemma prepare_exc_cached (self : JsonFormatter) (r md : loc) (h h1 : store) (ei : pyval)
    (t : string) :
  prepare self r h = (inr md, h1) ->
  attr h r (KStr "exc_info") = Some ei -> truth ei = Some false ->
  attr h md (KStr "exc_info") = None ->
  attr h r (KStr "exc_text") = Some (VStr t) -> t <> "" ->
  attr h1 md (KStr "exc_info") = Some (VStr t).
Proof.
  intros Hp Hei Ht Hnone Het Hne.
  pose proof (prepare_shape _ _ _ _ _ Hp) as (Hlen & Hr & Hmdlt & _).
  destruct (prepare_inr _ _ _ _ _ Hp)
    as (msg & ei' & hb & hc & hd & Hmsg & Hb & Hc & Hei' & Hmd & Hd & H1).
  simpl in *.
  assert (Ehc : forall l k, ~ (l = r /\ (k = KStr "message" \/ k = KStr "asctime")) ->
            attr hc l k = attr (h ++ [[]]) l k).
  { intros l k Hn.
    assert (Eb : attr hb l k = attr (h ++ [[]]) l k).
    { destruct msg; destruct Hb as [_ Hb]; try destruct Hb as (? & _ & Hb); subst hb;
        apply attr_store_set_ne; frame_ne. }
    rewrite <- Eb. destruct (bool_decide _).
    - destruct Hc as (t' & _ & ->). apply attr_store_set_ne. frame_ne.
    - by subst hc. }
  rewrite Ehc, attr_app in Hei' by (done || frame_ne).
  assert (ei' = ei) as -> by congruence.
  rewrite (truth_truthy _ _ _ Ht) in Hd. simpl in Hd. subst hd.
  assert (Eg : attr hc md (KStr "exc_info") = None).
  { rewrite Ehc by frame_ne.
    destruct (decide (md < List.length h)) as [Hlt|Hge].
    - by rewrite attr_app.
    - assert (md = List.length h) as -> by lia.
      unfold attr. rewrite lookup_app_r, Nat.sub_diag by done. done. }
  rewrite Eg in H1. simpl in H1. destruct H1 as (et & Het' & ->).
  rewrite Ehc, attr_app in Het' by (done || frame_ne).
  assert (et = VStr t) as -> by congruence. simpl.
  destruct (String.eqb_spec t ""); [done |]. simpl.
  by apply attr_store_set_eq.
Qed.

Lemma od_set_not_nil (k : key) (v : pyval) (d : odict) : od_set k v d <> [].
Proof. destruct d as [|[k0 v0] d]; simpl; [done |]. by destruct (decide _). Qed.

(** A value that counts as true still does after an entry is set. *)
Lemma truthy_store_set (l : loc) (k : key) (v : pyval) (s : store) (g : pyval) :
  truthy s g = true -> truthy (store_set l k v s) g = true.
Proof.
  destruct g as [| | | | | |l2| | | | | |]; simpl; try done.
  unfold store_set. destruct (s !! l) as [d|] eqn:Hd; [|done].
  destruct (decide (l = l2)) as [<-|Hne].
  - rewrite list_lookup_insert_eq by by eapply lookup_lt_Some.
    pose proof (od_set_not_nil k v d). by destruct (od_set k v d).
  - by rewrite list_lookup_insert_ne.
Qed.

Lemma truthy_app (s : store) (d : odict) (g : pyval) :
  (forall l, g = VDict l -> is_Some (s !! l)) -> truthy (s ++ [d]) g = truthy s g.
Proof.
  intros Hg. destruct g as [| | | | | |l2| | | | | |]; simpl; try done.
  destruct (Hg l2 eq_refl) as [x Hx].
  by rewrite lookup_app_l by by eapply lookup_lt_Some.
Qed.

Lemma prepare_exc_given (self : JsonFormatter) (r md : loc) (h h1 : store) (g : pyval) :
  prepare self r h = (inr md, h1) ->
  attr h md (KStr "exc_info") = Some g ->
  truthy h g = true -> (forall l, g = VDict l -> is_Some (h !! l)) ->
  attr h1 md (KStr "exc_info") = Some g.
Proof.
  intros Hp Hg Ht Hin.
  pose proof (attr_is_Some _ _ _ _ Hg) as Hlt.
  destruct (prepare_inr _ _ _ _ _ Hp)
    as (msg & ei' & hb & hc & hd & Hmsg & Hb & Hc & Hei' & Hmd & Hd & H1).
  simpl in *.
  assert (Ta : truthy (h ++ [[]]) g = true) by by rewrite truthy_app.
  assert (Eb : attr hb md (KStr "exc_info") = Some g /\ truthy hb g = true).
  { rewrite <- Hg, <- (attr_app h [] md _ Hlt).
    destruct msg; destruct Hb as [_ Hb]; try destruct Hb as (? & _ & Hb); subst hb;
      (split; [apply attr_store_set_ne; frame_ne | by apply truthy_store_set]). }
  assert (Ec : attr hc md (KStr "exc_info") = Some g /\ truthy hc g = true).
  { destruct Eb as [Eb Tb]. rewrite <- Eb. destruct (bool_decide _).
    - destruct Hc as (t' & _ & ->).
      split; [apply attr_store_set_ne; frame_ne | by apply truthy_store_set].
    - by subst hc. }
  destruct Ec as [Ec Tc].
  rewrite Ec in Hd. simpl in Hd. rewrite Tc, andb_false_r in Hd.
  subst hd. rewrite Ec in H1. simpl in H1. rewrite Tc in H1.
  by subst h1.
Qed.

(** A value that counts as false still does in a larger store, and after
    an entry is set in a dict that has one already. *)
Lemma falsy_app (s : store) (d : odict) (g : pyval) :
  truthy s g = false -> truthy (s ++ [d]) g = false.
Proof.
  destruct g as [| | | | | |l2| | | | | |]; simpl; try done.
  destruct (s !! l2) as [[|]|] eqn:E; try done. intros _.
  by rewrite lookup_app_l, E by by eapply lookup_lt_Some.
Qed.

Lemma falsy_store_set (l : loc) (k k0 : key) (v : pyval) (s : store) (g : pyval) :
  is_Some (attr s l k0) -> truthy s g = false -> truthy (store_set l k v s) g = false.
Proof.
  intros [x Hx]. destruct g as [| | | | | |l2| | | | | |]; simpl; try done.
  destruct (s !! l2) as [[|]|] eqn:E; try done. intros _.
  unfold store_set. destruct (s !! l) as [d|] eqn:Hd; [| by rewrite E].
  destruct (decide (l = l2)) as [->|Hne].
  - unfold attr in Hx. rewrite E in Hx. done.
  - by rewrite list_lookup_insert_ne, E.
Qed.

(** What the payload holds under [exc_info] when [prepare] comes to the
    exception counts as false if it did at the start. *)
Lemma prepare_payload_falsy (self : JsonFormatter) (r md : loc) (h : store)
    (msg : pyval) (hb hc : store) :
  attr h r (KStr "msg") = Some msg -> md <= List.length h ->
  match msg with
  | VDict l => md = l /\ hb = store_set r (KStr "message") VNone (h ++ [[]])
  | _ => md = List.length h
         /\ exists m, getMessage r (h ++ [[]]) = (inr m, h ++ [[]])
                      /\ hb = store_set r (KStr "message") (VStr m) (h ++ [[]])
  end ->
  (if bool_decide ("asctime" ∈ self.(_required_fields))
   then exists t, formatTime hb r self.(datefmt) = inr t
                  /\ hc = store_set r (KStr "asctime") (VStr t) hb
   else hc = hb) ->
  truthy h (default VNone (attr h md (KStr "exc_info"))) = false ->
  (forall l k, ~ (l = r /\ (k = KStr "message" \/ k = KStr "asctime")) ->
     attr hc l k = attr (h ++ [[]]) l k)
  /\ truthy hc (default VNone (attr hc md (KStr "exc_info"))) = false.
Proof.
  intros Hmsg Hmd Hb Hc Hf.
  pose proof (attr_is_Some _ _ _ _ Hmsg) as Hr.
  assert (Ea : attr (h ++ [[]]) md (KStr "exc_info") = attr h md (KStr "exc_info")).
  { destruct (decide (md < List.length h)) as [Hlt|Hge]; [by rewrite attr_app |].
    assert (md = List.length h) as -> by lia.
    unfold attr. rewrite lookup_app_r, Nat.sub_diag by done.
    by rewrite (lookup_ge_None_2 h (List.length h)) by done. }
  assert (Ma : is_Some (attr (h ++ [[]]) r (KStr "msg"))) by (rewrite attr_app; eauto).
  set (g := default VNone (attr h md (KStr "exc_info"))) in *.
  assert (Eb : forall l k, ~ (l = r /\ (k = KStr "message" \/ k = KStr "asctime")) ->
            attr hb l k = attr (h ++ [[]]) l k).
  { intros l k Hn.
    destruct msg; destruct Hb as [_ Hb]; try destruct Hb as (? & _ & Hb); subst hb;
      apply attr_store_set_ne; frame_ne. }
  assert (Tb : truthy hb g = false).
  { destruct msg; destruct Hb as [_ Hb]; try destruct Hb as (? & _ & Hb); subst hb;
      apply (falsy_store_set r _ (KStr "msg")); try done; by apply falsy_app. }
  assert (Ec : forall l k, ~ (l = r /\ (k = KStr "message" \/ k = KStr "asctime")) ->
            attr hc l k = attr (h ++ [[]]) l k).
  { intros l k Hn. rewrite <- Eb by done. destruct (bool_decide _).
    - destruct Hc as (t & _ & ->). apply attr_store_set_ne. frame_ne.
    - by subst hc. }
  split; [exact Ec |].
  rewrite Ec, Ea by frame_ne. fold g.
  destruct (bool_decide _); [|by subst hc].
  destruct Hc as (t & _ & ->).
  apply (falsy_store_set r _ (KStr "msg")); [|done].
  rewrite Eb by frame_ne. done.
Qed.

Lemma prepare_exc_replaced (self : JsonFormatter) (r md : loc) (h h1 : store) (ei : pyval) :
  prepare self r h = (inr md, h1) ->
  attr h r (KStr "exc_info") = Some ei -> truth ei = Some true ->
  truthy h (default VNone (attr h md (KStr "exc_info"))) = false ->
  formatException ei <> "" ->
  attr h1 md (KStr "exc_info") = Some (VStr (formatException ei)).
Proof.
  intros Hp Hei Ht Hf Hne.
  pose proof (prepare_shape _ _ _ _ _ Hp) as (Hlen & Hr & Hmdlt & _).
  destruct (prepare_inr _ _ _ _ _ Hp)
    as (msg & ei' & hb & hc & hd & Hmsg & Hb & Hc & Hei' & Hmd & Hd & H1).
  simpl in *.
  destruct (prepare_payload_falsy self r md h msg hb hc Hmsg ltac:(lia) Hb Hc Hf) as [Ehc Tg].
  rewrite Ehc, attr_app in Hei' by (done || frame_ne).
  assert (ei' = ei) as -> by congruence.
  rewrite Tg in Hd. simpl in Hd. rewrite (truth_truthy _ _ _ Ht) in Hd. simpl in Hd.
  assert (Ed : attr hd md (KStr "exc_info") = Some (VStr (formatException ei))).
  { subst hd. by apply attr_store_set_eq. }
  rewrite Ed in H1. simpl in H1.
  destruct (String.eqb_spec (formatException ei) ""); [done |]. simpl in H1. by subst h1.
Qed.

Lemma prepare_exc_cached_replaced (self : JsonFormatter) (r md : loc) (h h1 : store)
    (ei : pyval) (t : string) :
  prepare self r h = (inr md, h1) ->
  attr h r (KStr "exc_info") = Some ei -> truth ei = Some false ->
  truthy h (default VNone (attr h md (KStr "exc_info"))) = false ->
  attr h r (KStr "exc_text") = Some (VStr t) -> t <> "" ->
  attr h1 md (KStr "exc_info") = Some (VStr t).
Proof.
  intros Hp Hei Ht Hf Het Hne.
  pose proof (prepare_shape _ _ _ _ _ Hp) as (Hlen & Hr & Hmdlt & _).
  destruct (prepare_inr _ _ _ _ _ Hp)
    as (msg & ei' & hb & hc & hd & Hmsg & Hb & Hc & Hei' & Hmd & Hd & H1).
  simpl in *.
  destruct (prepare_payload_falsy self r md h msg hb hc Hmsg ltac:(lia) Hb Hc Hf) as [Ehc Tg].
  rewrite Ehc, attr_app in Hei' by (done || frame_ne).
  assert (ei' = ei) as -> by congruence.
  rewrite (truth_truthy _ _ _ Ht) in Hd. simpl in Hd. subst hd.
  rewrite Tg in H1. destruct H1 as (et & Het' & ->).
  rewrite Ehc, attr_app in Het' by (done || frame_ne).
  assert (et = VStr t) as -> by congruence. simpl.
  destruct (String.eqb_spec t ""); [done |]. simpl.
  by apply attr_store_set_eq.
Qed.

End PrepareEffects.

Section Reserved.
Context `{Host}.

Lemma reserved_not_extra (kw : init_kwargs) (self : JsonFormatter) (f : string) :
  JsonFormatter_init kw = inr self -> f ∈ RESERVED_ATTRS ->
  is_extra self.(_skip_fields) (KStr f) = false.
Proof.
  intros Hi Hf. apply not_true_iff_false. rewrite (is_extra_skip kw) by done.
  intros [Hn _]. destruct (Hn f eq_refl). done.
Qed.

Lemma attr_lookup (s : store) (l : loc) (d : odict) (k : key) :
  s !! l = Some d -> attr s l k = od_get k d.
Proof. unfold attr. by intros ->. Qed.

End Reserved.

(** C7: an attribute of the event is merged as an extra exactly when its
    name is not a required field, not a reserved attribute name, and does
    not start with an underscore; the assembled record holds every name
    once, and a reserved name that is neither required nor defined by the
    payload is not in it. *)
Theorem extras_merged `{Host} (kw : init_kwargs) (self : JsonFormatter)
    (r md lr : loc) (h h1 h' : store) :
  JsonFormatter_init kw = inr self -> wf_store h ->
  prepare self r h = (inr md, h1) -> assemble self r h = (inr lr, h') ->
  exists rd pd out,
    h' !! r = Some rd /\ h' !! md = Some pd /\ h' !! lr = Some out
    /\ out = od_update (od_update (required_part self.(_required_fields) rd) pd)
                       (extras self.(_skip_fields) rd)
    /\ (forall k x, (k, x) ∈ extras self.(_skip_fields) rd
          <-> ((k, x) ∈ rd
               /\ (forall f, k = KStr f ->
                     (f ∉ self.(_required_fields)) /\ (f ∉ RESERVED_ATTRS))
               /\ is_private k = false))
    /\ NoDup (od_keys out)
    /\ (forall f, f ∈ RESERVED_ATTRS -> f ∉ self.(_required_fields) ->
          KStr f ∉ od_keys pd -> KStr f ∉ od_keys out).
Proof.
  intros Hi Hwf Hp Ha.
  destruct (assemble_fields _ _ _ _ _ _ _ Hwf Hp Ha)
    as (rd & pd & Hrd & Hpd & Hout & _ & _ & Nrd & Npd).
  exists rd, pd, (fields self rd pd).
  do 4 (split; [done |]). split; [|split].
  - intros k x. unfold extras. rewrite !list_elem_of_In, filter_In. simpl.
    rewrite (is_extra_skip kw self k Hi). tauto.
  - apply fields_NoDup.
  - intros f Hres Hreq Hpay. apply od_get_None. rewrite od_get_fields by done.
    rewrite (reserved_not_extra kw) by done. simpl.
    apply od_get_None in Hpay. rewrite Hpay, od_get_required_part.
    by rewrite bool_decide_eq_false_2.
Qed.

Lemma extras_merged_witness :
  exists rd pd out,
    (Scenario.assemble_at Scenario.pattern3 Scenario.clash).2 !! 0 = Some rd
    /\ (Scenario.assemble_at Scenario.pattern3 Scenario.clash).2 !! 1 = Some pd
    /\ (Scenario.assemble_at Scenario.pattern3 Scenario.clash).2 !! 3 = Some out
    /\ out = od_update
               (od_update (required_part (Scenario.formatter Scenario.pattern3).(_required_fields) rd) pd)
               (extras (Scenario.formatter Scenario.pattern3).(_skip_fields) rd)
    /\ (forall k x, (k, x) ∈ extras (Scenario.formatter Scenario.pattern3).(_skip_fields) rd
          <-> ((k, x) ∈ rd
               /\ (forall f, k = KStr f ->
                     (f ∉ (Scenario.formatter Scenario.pattern3).(_required_fields))
                     /\ (f ∉ RESERVED_ATTRS))
               /\ is_private k = false))
    /\ NoDup (od_keys out)
    /\ (forall f, f ∈ RESERVED_ATTRS ->
          f ∉ (Scenario.formatter Scenario.pattern3).(_required_fields) ->
          KStr f ∉ od_keys pd -> KStr f ∉ od_keys out).
Proof.
  apply (@extras_merged Scenario.host (Scenario.kwargs Scenario.pattern3)
           (Scenario.formatter Scenario.pattern3) 0 1 3 Scenario.clash
           (Scenario.prepare_at Scenario.pattern3 Scenario.clash).2).
  - reflexivity.
  - apply (bool_decide_unpack _). vm_compute. exact I.
  - vm_compute. reflexivity.
  - vm_compute. reflexivity.
Defined.

(** C6: a mapping logged as the message is the message payload (the very
    mapping, not a copy), its entries are in the assembled record unless
    an extra attribute of the same name is merged over them, and the plain
    message is suppressed: the event's [message] attribute is null, and so
    is the [message] field when it is required (it is absent otherwise).
    In particular, with the pattern ["(asctime) (levelname) (message)"],
    logging [{"user": "alice", "action": "login"}] gives a record with
    [asctime] and [levelname] as for a plain message, a null [message],
    [user] and [action]. *)
Theorem structured_message :
  (forall (H : Host) (kw : init_kwargs) (self : JsonFormatter) (r l lr : loc) (h h' : store),
     JsonFormatter_init kw = inr self -> wf_store h ->
     attr h r (KStr "msg") = Some (VDict l) -> l <> r ->
     assemble self r h = (inr lr, h') ->
     exists rd pd out,
       h' !! r = Some rd /\ h' !! l = Some pd /\ h' !! lr = Some out
       /\ od_get (KStr "message") rd = Some VNone
       /\ (forall k v, k <> KStr "exc_info" -> attr h l k = Some v -> od_get k pd = Some v)
       /\ (forall k v, od_get k pd = Some v ->
             is_extra self.(_skip_fields) k && od_mem k rd = false ->
             od_get k out = Some v)
       /\ (od_get (KStr "message") pd = None ->
             od_get (KStr "message") out
             = if bool_decide ("message" ∈ self.(_required_fields)) then Some VNone else None))
  /\ (Scenario.assemble_at Scenario.pattern3 Scenario.login).2 !! 3
     = Some [ (KStr "asctime", VStr "2020-03-14 11:42:33,007");
              (KStr "levelname", VStr "INFO"); (KStr "message", VNone);
              (KStr "user", VStr "alice"); (KStr "action", VStr "login") ]
  /\ (Scenario.format_at Scenario.pattern3 Scenario.login).1
     = inr ("{" +:+ json_string "asctime" +:+ ": " +:+ json_string "2020-03-14 11:42:33,007"
            +:+ ", " +:+ json_string "levelname" +:+ ": " +:+ json_string "INFO"
            +:+ ", " +:+ json_string "message" +:+ ": null"
            +:+ ", " +:+ json_string "user" +:+ ": " +:+ json_string "alice"
            +:+ ", " +:+ json_string "action" +:+ ": " +:+ json_string "login" +:+ "}").
Proof.
  split; [|split; vm_compute; reflexivity].
  intros H kw self r l lr h h' Hi Hwf Hmsg Hl Ha.
  destruct (assemble_inr _ _ _ _ _ Ha) as (md & h1 & rd0 & pd0 & Hp & _).
  destruct (prepare_message _ _ _ _ _ Hp) as (msg & v & Hmsg' & Hv & Hcase).
  rewrite Hmsg in Hmsg'. injection Hmsg' as <-. destruct Hcase as [-> ->].
  destruct (assemble_fields _ _ _ _ _ _ _ Hwf Hp Ha)
    as (rd & pd & Hrd & Hpd & Hout & Hrd1 & Hpd1 & Nrd & Npd).
  exists rd, pd, (fields self rd pd).
  do 3 (split; [done |]). split; [|split; [|split]].
  - by rewrite <- (attr_lookup h1 r rd).
  - intros k x Hk Hx. rewrite <- (attr_lookup h1 l pd) by done.
    rewrite (prepare_frame self r l h h1 l k Hp); [done | | frame_ne | frame_ne].
    by eapply attr_is_Some.
  - intros k x Hx He. rewrite od_get_fields by done. by rewrite He, Hx.
  - intros Hx. rewrite od_get_fields by done.
    rewrite (reserved_not_extra kw) by (done || (apply (bool_decide_unpack _); vm_compute; exact I)).
    simpl. rewrite Hx, od_get_required_part.
    destruct (bool_decide _); [|done].
    by rewrite <- (attr_lookup h1 r rd), Hv.
Qed.

Lemma structured_message_witness :
  exists rd pd out,
    (Scenario.assemble_at Scenario.pattern3 Scenario.login).2 !! 0 = Some rd
    /\ (Scenario.assemble_at Scenario.pattern3 Scenario.login).2 !! 1 = Some pd
    /\ (Scenario.assemble_at Scenario.pattern3 Scenario.login).2 !! 3 = Some out
    /\ od_get (KStr "message") rd = Some VNone
    /\ (forall k v, k <> KStr "exc_info" -> attr Scenario.login 1 k = Some v ->
          od_get k pd = Some v)
    /\ (forall k v, od_get k pd = Some v ->
          is_extra (Scenario.formatter Scenario.pattern3).(_skip_fields) k && od_mem k rd = false ->
          od_get k out = Some v)
    /\ (od_get (KStr "message") pd = None ->
          od_get (KStr "message") out
          = if bool_decide ("message" ∈ (Scenario.formatter Scenario.pattern3).(_required_fields))
            then Some VNone else None).
Proof.
  apply (proj1 structured_message Scenario.host (Scenario.kwargs Scenario.pattern3)
           (Scenario.formatter Scenario.pattern3) 0 1 3 Scenario.login).
  - reflexivity.
  - apply (bool_decide_unpack _). vm_compute. exact I.
  - vm_compute. reflexivity.
  - lia.
  - vm_compute. reflexivity.
Defined.

(** A plain message with the same pattern. *)
Example hello_output :
  (Scenario.format_at Scenario.pattern3 Scenario.hello).1
  = inr ("{" +:+ json_string "asctime" +:+ ": " +:+ json_string "2020-03-14 11:42:33,007"
         +:+ ", " +:+ json_string "levelname" +:+ ": " +:+ json_string "INFO"
         +:+ ", " +:+ json_string "message" +:+ ": " +:+ json_string "hello" +:+ "}").
Proof. vm_compute. reflexivity. Qed.

Section ExcInfo.
Context `{Host}.

Lemma exc_info_emitted (kw : init_kwargs) (self : JsonFormatter)
    (r md lr : loc) (h h1 h' : store) (v : pyval) :
  JsonFormatter_init kw = inr self -> wf_store h ->
  prepare self r h = (inr md, h1) -> assemble self r h = (inr lr, h') ->
  attr h1 md (KStr "exc_info") = Some v ->
  attr h' md (KStr "exc_info") = Some v /\ attr h' lr (KStr "exc_info") = Some v.
Proof.
  intros Hi Hwf Hp Ha Hv.
  destruct (assemble_fields _ _ _ _ _ _ _ Hwf Hp Ha)
    as (rd & pd & Hrd & Hpd & Hout & Hrd1 & Hpd1 & Nrd & Npd).
  rewrite (attr_lookup h1 md pd) in Hv by done.
  rewrite (attr_lookup h' md pd), (attr_lookup h' lr (fields self rd pd)) by done.
  split; [done |]. rewrite od_get_fields by done.
  rewrite (reserved_not_extra kw) by (done || (apply (bool_decide_unpack _); vm_compute; exact I)).
  simpl. by rewrite Hv.
Qed.

End ExcInfo.

(** C8, as amended: if exception info is present and the message payload
    has no [exc_info] entry, or one that counts as false, the rendered
    exception text is stored under [exc_info] in the message payload and
    emitted; if no exception info is present but there is cached
    exception text, the cached text is stored and emitted instead; in
    both cases the emitted value is a single string.  An [exc_info] value
    that the payload itself supplies and that counts as true is emitted
    as it is, whatever its type: a nested mapping stays a nested
    mapping. *)
Theorem exception_text `{Host} (kw : init_kwargs) (self : JsonFormatter)
    (r md lr : loc) (h h1 h' : store) (ei : pyval) :
  JsonFormatter_init kw = inr self -> wf_store h ->
  prepare self r h = (inr md, h1) -> assemble self r h = (inr lr, h') ->
  attr h r (KStr "exc_info") = Some ei ->
  (truth ei = Some true ->
   truthy h (default VNone (attr h md (KStr "exc_info"))) = false ->
   formatException ei <> "" ->
   attr h' md (KStr "exc_info") = Some (VStr (formatException ei))
   /\ attr h' lr (KStr "exc_info") = Some (VStr (formatException ei)))
  /\ (forall t, truth ei = Some false ->
      truthy h (default VNone (attr h md (KStr "exc_info"))) = false ->
      attr h r (KStr "exc_text") = Some (VStr t) -> t <> "" ->
      attr h' md (KStr "exc_info") = Some (VStr t)
      /\ attr h' lr (KStr "exc_info") = Some (VStr t))
  /\ (forall g, attr h md (KStr "exc_info") = Some g -> truthy h g = true ->
      (forall l, g = VDict l -> is_Some (h !! l)) ->
      attr h' lr (KStr "exc_info") = Some g).
Proof.
  intros Hi Hwf Hp Ha Hei. split; [|split].
  - intros Ht Hf Hne. eapply exc_info_emitted; eauto.
    by eapply prepare_exc_replaced.
  - intros t Ht Hf Het Hne. eapply exc_info_emitted; eauto.
    by eapply prepare_exc_cached_replaced.
  - intros g Hg Ht Hin. eapply exc_info_emitted; eauto.
    by eapply prepare_exc_given.
Qed.

Lemma exception_text_witness :
  (attr (Scenario.assemble_at Scenario.pattern3 Scenario.failed).2 1 (KStr "exc_info")
     = Some (VStr (Reference.ref_formatException Scenario.boom))
   /\ attr (Scenario.assemble_at Scenario.pattern3 Scenario.failed).2 3 (KStr "exc_info")
     = Some (VStr (Reference.ref_formatException Scenario.boom)))
  /\ (attr (Scenario.assemble_at Scenario.pattern3 Scenario.cached).2 1 (KStr "exc_info")
        = Some (VStr "ValueError: boom")
      /\ attr (Scenario.assemble_at Scenario.pattern3 Scenario.cached).2 2 (KStr "exc_info")
        = Some (VStr "ValueError: boom"))
  /\ attr (Scenario.assemble_at Scenario.pattern3 Scenario.nested).2 4 (KStr "exc_info")
     = Some (VDict 2)
  /\ (attr Usage.blank 1 (KStr "exc_info") = Some (VStr "")
      /\ attr (Scenario.assemble_at Scenario.pattern3 Usage.blank).2 1 (KStr "exc_info")
         = Some (VStr (Reference.ref_formatException Scenario.boom))
      /\ attr (Scenario.assemble_at Scenario.pattern3 Usage.blank).2 3 (KStr "exc_info")
         = Some (VStr (Reference.ref_formatException Scenario.boom))).
Proof.
  split; [|split; [|split]].
  - refine (proj1 (@exception_text Scenario.host (Scenario.kwargs Scenario.pattern3)
                     (Scenario.formatter Scenario.pattern3) 0 1 3 Scenario.failed
                     (Scenario.prepare_at Scenario.pattern3 Scenario.failed).2
                     (Scenario.assemble_at Scenario.pattern3 Scenario.failed).2
                     Scenario.boom _ _ _ _ _) _ _ _).
    + reflexivity.
    + apply (bool_decide_unpack _). vm_compute. exact I.
    + vm_compute. reflexivity.
    + vm_compute. reflexivity.
    + vm_compute. reflexivity.
    + reflexivity.
    + vm_compute. reflexivity.
    + vm_compute. discriminate.
  - refine (proj1 (proj2 (@exception_text Scenario.host (Scenario.kwargs Scenario.pattern3)
                     (Scenario.formatter Scenario.pattern3) 0 1 2 Scenario.cached
                     (Scenario.prepare_at Scenario.pattern3 Scenario.cached).2
                     (Scenario.assemble_at Scenario.pattern3 Scenario.cached).2
                     VNone _ _ _ _ _)) "ValueError: boom" _ _ _ _).
    + reflexivity.
    + apply (bool_decide_unpack _). vm_compute. exact I.
    + vm_compute. reflexivity.
    + vm_compute. reflexivity.
    + vm_compute. reflexivity.
    + reflexivity.
    + vm_compute. reflexivity.
    + vm_compute. reflexivity.
    + discriminate.
  - refine (proj2 (proj2 (@exception_text Scenario.host (Scenario.kwargs Scenario.pattern3)
                     (Scenario.formatter Scenario.pattern3) 0 1 4 Scenario.nested
                     (Scenario.prepare_at Scenario.pattern3 Scenario.nested).2
                     (Scenario.assemble_at Scenario.pattern3 Scenario.nested).2
                     Scenario.boom _ _ _ _ _)) (VDict 2) _ _ _).
    + reflexivity.
    + apply (bool_decide_unpack _). vm_compute. exact I.
    + vm_compute. reflexivity.
    + vm_compute. reflexivity.
    + vm_compute. reflexivity.
    + vm_compute. reflexivity.
    + reflexivity.
    + intros l [= <-]. vm_compute. eauto.
  - split; [reflexivity |].
    refine (proj1 (@exception_text Scenario.host (Scenario.kwargs Scenario.pattern3)
                     (Scenario.formatter Scenario.pattern3) 0 1 3 Usage.blank
                     (Scenario.prepare_at Scenario.pattern3 Usage.blank).2
                     (Scenario.assemble_at Scenario.pattern3 Usage.blank).2
                     Scenario.boom _ _ _ _ _) _ _ _).
    + reflexivity.
    + apply (bool_decide_unpack _). vm_compute. exact I.
    + vm_compute. reflexivity.
    + vm_compute. reflexivity.
    + vm_compute. reflexivity.
    + reflexivity.
    + vm_compute. reflexivity.
    + vm_compute. discriminate.
Defined.

(** The cached text is used when there is no exception info. *)
Example cached_output :
  attr (Scenario.assemble_at Scenario.pattern3 Scenario.cached).2 2 (KStr "exc_info")
  = Some (VStr "ValueError: boom").
Proof. vm_compute. reflexivity. Qed.

(** C8, as stated, fails: with an exception attached and the payload
    [{"exc_info": {"code": 1}}], the emitted [exc_info] is that mapping. *)
Lemma exc_info_always_text_refuted : ~ exc_info_always_text.
Proof.
  intros Hc.
  destruct (Hc Scenario.host (Scenario.kwargs "(message)") (Scenario.formatter "(message)")
              0 4 Scenario.nested
              (Scenario.assemble_at "(message)" Scenario.nested).2
              [ (KStr "message", VNone); (KStr "exc_info", VDict 2) ]
              (VDict 2)) as [s Hs].
  - reflexivity.
  - apply (bool_decide_unpack _). vm_compute. exact I.
  - vm_compute. reflexivity.
  - vm_compute. reflexivity.
  - vm_compute. reflexivity.
  - discriminate Hs.
Qed.

(** C10: [format] changes objects of its caller.  It sets the [message]
    attribute of the event (null for a mapping, the rendered text
    otherwise) and, when [asctime] is a required field, its [asctime]
    attribute; and when the message is a mapping it writes the rendered
    exception under [exc_info] in that very mapping, which had no such
    key before. *)
Theorem format_mutates `{Host} (self : JsonFormatter) (r : loc) (h h' : store)
    (text : string) :
  format self r h = (inr text, h') ->
  exists msg v,
    attr h r (KStr "msg") = Some msg
    /\ attr h' r (KStr "message") = Some v
    /\ match msg with
       | VDict _ => v = VNone
       | _ => exists m, getMessage r (h ++ [[]]) = (inr m, h ++ [[]]) /\ v = VStr m
       end
    /\ ("asctime" ∈ self.(_required_fields) ->
        exists t, attr h' r (KStr "asctime") = Some (VStr t))
    /\ (forall l ei, msg = VDict l ->
        attr h r (KStr "exc_info") = Some ei -> truth ei = Some true ->
        attr h l (KStr "exc_info") = None -> formatException ei <> "" ->
        attr h' l (KStr "exc_info") = Some (VStr (formatException ei))).
Proof.
  intros (lr & body & Ha & _ & _)%format_inr.
  destruct (assemble_inr _ _ _ _ _ Ha) as (md & h1 & rd & pd & Hp & Hrd & Hpd & -> & ->).
  destruct (prepare_shape _ _ _ _ _ Hp) as (Hlen & Hr & Hmd & _).
  destruct (prepare_message _ _ _ _ _ Hp) as (msg & v & Hmsg & Hv & Hcase).
  exists msg, v. split; [done |]. split; [by rewrite attr_app by lia |].
  split; [|split].
  - destruct msg; destruct Hcase as [_ ?]; done.
  - intros Hin. destruct (prepare_asctime _ _ _ _ _ Hp Hin) as (t & Ht).
    exists t. by rewrite attr_app by lia.
  - intros l ei -> Hei Ht Hnone Hne. destruct Hcase as [-> _].
    rewrite attr_app by done. by eapply prepare_exc_rendered.
Qed.

Lemma format_mutates_witness :
  exists msg v,
    attr Scenario.failed 0 (KStr "msg") = Some msg
    /\ attr (Scenario.format_at Scenario.pattern3 Scenario.failed).2 0 (KStr "message") = Some v
    /\ match msg with
       | VDict _ => v = VNone
       | _ => exists m, @getMessage Scenario.host 0 (Scenario.failed ++ [[]])
                        = (inr m, Scenario.failed ++ [[]]) /\ v = VStr m
       end
    /\ ("asctime" ∈ (Scenario.formatter Scenario.pattern3).(_required_fields) ->
        exists t, attr (Scenario.format_at Scenario.pattern3 Scenario.failed).2 0 (KStr "asctime")
                  = Some (VStr t))
    /\ (forall l ei, msg = VDict l ->
        attr Scenario.failed 0 (KStr "exc_info") = Some ei -> truth ei = Some true ->
        attr Scenario.failed l (KStr "exc_info") = None ->
        Reference.ref_formatException ei <> "" ->
        attr (Scenario.format_at Scenario.pattern3 Scenario.failed).2 l (KStr "exc_info")
        = Some (VStr (Reference.ref_formatException ei))).
Proof.
  apply (@format_mutates Scenario.host (Scenario.formatter Scenario.pattern3) 0
           Scenario.failed (Scenario.format_at Scenario.pattern3 Scenario.failed).2
           (match (Scenario.format_at Scenario.pattern3 Scenario.failed).1 with
            | inr s => s | inl _ => "" end)).
  vm_compute. reflexivity.
Defined.

(** The caller's mapping before and after [format]. *)
Example failed_mapping :
  Scenario.failed !! 1 = Some [ (KStr "user", VStr "alice") ]
  /\ (Scenario.format_at Scenario.pattern3 Scenario.failed).2 !! 1
     = Some [ (KStr "user", VStr "alice");
              (KStr "exc_info", VStr (Reference.ref_formatException Scenario.boom)) ].
Proof. split; vm_compute; reflexivity. Qed.

(** C1 does not hold of the code.  [jsonify_log_record] calls the
    serializer with the record alone: the [default=] hook that
    [__init__] prepares is never passed, so a date in the record makes
    [format] raise [TypeError] where the hook would have produced its ISO
    text; and the serializer is always [json.dumps], a [json_serializer]
    keyword being refused by the framework's constructor. *)
Theorem fallback_never_applied :
  (Scenario.format_at "(message)" Scenario.dated).1
    = inl (TypeError "Object is not JSON serializable")
  /\ json_dumps (Scenario.formatter "(message)").(json_default)
       (Scenario.assemble_at "(message)" Scenario.dated).2 (VDict 3)
     = inr ("{" +:+ json_string "message" +:+ ": null, "
            +:+ json_string "when" +:+ ": " +:+ json_string "2020-03-14" +:+ "}")
  /\ (forall (H : Host) (custom : serializer) (kw : init_kwargs),
        kw.(kw_json_serializer) = Some custom ->
        exists e, JsonFormatter_init kw = inl e)
  /\ (forall (H : Host) (kw : init_kwargs) (self : JsonFormatter) (lr : loc) (h : store),
        JsonFormatter_init kw = inr self ->
        jsonify_log_record self lr h = (json_dumps None h (VDict lr), h)).
Proof.
  split; [vm_compute; reflexivity |]. split; [vm_compute; reflexivity |]. split.
  - intros H custom kw Hk. unfold JsonFormatter_init, Formatter_init. rewrite Hk. eauto.
  - intros H kw self lr h (_ & Hs & _)%init_inr.
    unfold jsonify_log_record, reading. by rewrite Hs.
Qed.

(** ** The calendar *)

Section Calendar.
Open Scope Z_scope.



Lemma month_day_ok_all (leapyear : bool) :
  forallb (month_day_ok leapyear) (seq 0 366) = true.
Proof. destruct leapyear; vm_compute; reflexivity. Qed.

Lemma month_day_spec (n : Z) (leapyear : bool) :
  0 <= n < 366 ->
  let '(m, d) := month_day n leapyear in
  days_before_month_tbl m + leap_day (2 <? m) leapyear + d = n + 1.
Proof.
  intros Hn. pose proof (month_day_ok_all leapyear) as Hall.
  rewrite forallb_forall in Hall.
  specialize (Hall (Z.to_nat n)). unfold month_day_ok in Hall.
  rewrite Z2Nat.id in Hall by lia.
  destruct (month_day n leapyear) as [m d].
  assert (In (Z.to_nat n) (seq 0 366)) as Hin by (apply in_seq; lia).
  apply Hall in Hin. apply andb_true_iff in Hin as [Hin _].
  apply andb_true_iff in Hin as [Hin _]. lia.
Qed.

Lemma mod_eq (a b q r : Z) : 0 <= r < b -> a = b * q + r -> a mod b = r.
Proof. intros Hr Ha. symmetry. apply (Z.mod_unique a b q r); [by left | done]. Qed.

Lemma div_eq (a b q r : Z) : 0 <= r < b -> a = b * q + r -> a / b = q.
Proof. intros Hr Ha. symmetry. apply (Z.div_unique a b q r); [by left | done]. Qed.

Lemma ymd2ord_ord2ymd (n : Z) :
  let '(y, m, d) := ord2ymd n in ymd2ord y m d = n.
Proof.
  unfold ord2ymd.
  set (m0 := n - 1).
  set (a := m0 / 146097). set (r1 := m0 mod 146097).
  set (b := r1 / 36524). set (r2 := r1 mod 36524).
  set (c := r2 / 1461). set (r3 := r2 mod 1461).
  set (d := r3 / 365). set (r4 := r3 mod 365).
  assert (H0 : m0 = 146097 * a + r1 /\ 0 <= r1 < 146097).
  { unfold a, r1. split; [apply Z.div_mod; lia | apply Z.mod_pos_bound; lia]. }
  assert (H1 : r1 = 36524 * b + r2 /\ 0 <= r2 < 36524).
  { unfold b, r2. split; [apply Z.div_mod; lia | apply Z.mod_pos_bound; lia]. }
  assert (H2 : r2 = 1461 * c + r3 /\ 0 <= r3 < 1461).
  { unfold c, r3. split; [apply Z.div_mod; lia | apply Z.mod_pos_bound; lia]. }
  assert (H3 : r3 = 365 * d + r4 /\ 0 <= r4 < 365).
  { unfold d, r4. split; [apply Z.div_mod; lia | apply Z.mod_pos_bound; lia]. }
  clearbody a r1 b r2 c r3 d r4.
  assert (Hb : 0 <= b <= 4) by lia.
  assert (Hc : 0 <= c <= 24) by lia.
  assert (Hd : 0 <= d <= 4) by lia.
  set (y := a * 400 + 1 + b * 100 + c * 4 + d).
  destruct ((d =? 4) || (b =? 4)) eqn:Especial.
  - (* the last day of a leap year *)
    unfold ymd2ord, is_leap, days_before_month_tbl.
    apply orb_true_iff in Especial as [Ed%Z.eqb_eq|Eb%Z.eqb_eq].
    + assert (c <= 23) by lia. assert (b <= 3) by lia.
      rewrite (mod_eq (y - 1) 4 (100 * a + 25 * b + c + 1) 0) by lia.
      rewrite (mod_eq (y - 1) 100 (4 * a + b) (4 * c + 4)) by lia.
      replace (4 * c + 4 =? 0) with false by (symmetry; apply Z.eqb_neq; lia).
      simpl.
      rewrite (div_eq (y - 1 - 1) 4 (100 * a + 25 * b + c) 3) by lia.
      rewrite (div_eq (y - 1 - 1) 100 (4 * a + b) (4 * c + 3)) by lia.
      rewrite (div_eq (y - 1 - 1) 400 a (100 * b + 4 * c + 3)) by lia.
      change (leap_day (2 <? 12) true) with 1. lia.
    + rewrite (mod_eq (y - 1) 4 (100 * (a + 1)) 0) by lia.
      rewrite (mod_eq (y - 1) 400 (a + 1) 0) by lia.
      rewrite (mod_eq (y - 1) 100 (4 * (a + 1)) 0) by lia.
      simpl.
      rewrite (div_eq (y - 1 - 1) 4 (100 * a + 99) 3) by lia.
      rewrite (div_eq (y - 1 - 1) 100 (4 * a + 3) 99) by lia.
      rewrite (div_eq (y - 1 - 1) 400 a 399) by lia.
      change (leap_day (2 <? 12) true) with 1. lia.
  - apply orb_false_iff in Especial as [Ed%Z.eqb_neq Eb%Z.eqb_neq].
    assert (Hd' : d <= 3) by lia. assert (Hb' : b <= 3) by lia.
    set (leapyear := (d =? 3) && (negb (c =? 24) || (b =? 3))).
    pose proof (month_day_spec r4 leapyear ltac:(lia)) as Hmd.
    unfold month_day in Hmd.
    assert (Hleap : is_leap y = leapyear).
    { unfold is_leap, leapyear.
      destruct (Z.eqb_spec d 3) as [Hd3|Hd3].
      - rewrite (mod_eq y 4 (100 * a + 25 * b + c + 1) 0) by lia. simpl.
        destruct (Z.eqb_spec c 24) as [Hc24|Hc24]; simpl.
        + rewrite (mod_eq y 100 (4 * a + b + 1) 0) by lia. simpl.
          destruct (Z.eqb_spec b 3) as [Hb3|Hb3].
          * by rewrite (mod_eq y 400 (a + 1) 0) by lia.
          * rewrite (mod_eq y 400 a (100 * b + 100)) by lia.
            apply Z.eqb_neq. lia.
        + rewrite (mod_eq y 100 (4 * a + b) (4 * c + 4)) by lia.
          replace (4 * c + 4 =? 0) with false by (symmetry; apply Z.eqb_neq; lia). done.
      - rewrite (mod_eq y 4 (100 * a + 25 * b + c) (d + 1)) by lia.
        replace (d + 1 =? 0) with false by (symmetry; apply Z.eqb_neq; lia). done. }
    assert (Hdays : (y - 1) * 365 + (y - 1) / 4 - (y - 1) / 100 + (y - 1) / 400
                    = 146097 * a + 36524 * b + 1461 * c + 365 * d).
    { rewrite (div_eq (y - 1) 4 (100 * a + 25 * b + c) d) by lia.
      rewrite (div_eq (y - 1) 100 (4 * a + b) (4 * c + d)) by lia.
      rewrite (div_eq (y - 1) 400 a (100 * b + 4 * c + d)) by lia.
      lia. }
    destruct (r4 <? _) eqn:Elt; unfold ymd2ord; rewrite Hleap, Hdays; lia.
Qed.

End Calendar.

Section Rotation.
Open Scope Z_scope.

Lemma mktime_midnight_after (off t : Z) :
  mktime off (midnight_after (fromtimestamp off t)) = next_midnight off t.
Proof.
  unfold midnight_after, next_midnight, mktime, timetuple, add_days, replace_midnight. simpl.
  pose proof (ymd2ord_ord2ymd (dt_ordinal (fromtimestamp off t) + 1)) as Hrt.
  destruct (ord2ymd _) as [[y m] d]. simpl. rewrite Hrt.
  change (0 / usec) with 0. simpl.
  change (0 / 3600) with 0. change (0 mod 3600 / 60) with 0. change (0 mod 60) with 0.
  ring.
Qed.

(** The deadline is a local midnight, the one that ends the day of [t]. *)
Lemma next_midnight_spec (off t : Z) :
  fromtimestamp off (next_midnight off t)
  = {| dt_ordinal := (fromtimestamp off t).(dt_ordinal) + 1; dt_usec := 0 |}
  /\ t < next_midnight off t <= t + day_seconds * usec.
Proof.
  unfold next_midnight, fromtimestamp. simpl.
  set (L := t + off * usec). set (D := day_seconds * usec).
  assert (HD : D = 86400000000) by reflexivity.
  pose proof (Z.div_mod L D ltac:(lia)) as Hdm.
  pose proof (Z.mod_pos_bound L D ltac:(lia)) as Hb.
  replace ((L / D + epoch_ordinal + 1 - epoch_ordinal) * day_seconds - off) with
    ((L / D + 1) * day_seconds - off) by lia.
  replace (((L / D + 1) * day_seconds - off) * usec + off * usec) with (D * (L / D + 1))
    by (unfold D; lia).
  split.
  - f_equal.
    + rewrite (div_eq (D * (L / D + 1)) D (L / D + 1) 0) by lia. lia.
    + by rewrite (mod_eq (D * (L / D + 1)) D (L / D + 1) 0) by lia.
  - replace (((L / D + 1) * day_seconds - off) * usec) with (D * (L / D + 1) - off * usec)
      by (unfold D; lia).
    unfold L in *. lia.
Qed.

(** A reading is on the local day [day] exactly when it is less than a
    day before the deadline of that day. *)
Lemma same_day_before_deadline (off t t' : Z) :
  (fromtimestamp off t').(dt_ordinal) = (fromtimestamp off t).(dt_ordinal) ->
  t' < next_midnight off t.
Proof.
  intros Hd. pose proof (next_midnight_spec off t') as [_ [Hlt _]].
  unfold next_midnight in *. rewrite <- Hd. done.
Qed.

End Rotation.

Section HandlerFacts.

Lemma run_bind {A B} (p : prog A) (f : A -> prog B) (w : world) :
  run (p ≫= f) w =
    match run p w with
    | (inr a, w') => run (f a) w'
    | (inl e, w') => (inl e, w')
    end.
Proof.
  revert w. induction p; intros w; simpl; try done; auto.
Qed.

Lemma run_next_rotate_at (w : world) :
  run _next_rotate_at w = (inr (next_midnight w.(utcoffset) (now w)), tick w).
Proof.
  unfold _next_rotate_at. simpl.
  change (timetuple (add_days (replace_midnight ?d) 1)) with (midnight_after d).
  by rewrite mktime_midnight_after.
Qed.

End HandlerFacts.

#[global] Arguments sys_os_open : simpl never.
#[global] Arguments sys_open : simpl never.
#[global] Arguments sys_write : simpl never.
#[global] Arguments fromtimestamp : simpl never.
#[global] Arguments log_path : simpl never.
#[global] Arguments mktime : simpl never.
#[global] Arguments timetuple : simpl never.

Section OpenFacts.

Lemma run_FileHandler_open (self : SituRotatingFileHandler) (w : world) :
  run (FileHandler_open self) w =
    let r := sys_open self.(baseFilename) self.(mode) w in
    (match r.1 with inr s => inr s | inl e => inl (OSError e) end, r.2).
Proof.
  unfold FileHandler_open. cbn [run].
  by destruct (sys_open (baseFilename self) (mode self) w).1.
Qed.

Lemma run_open (self : SituRotatingFileHandler) (w : world) :
  run (_open self) w =
    let path := log_path self.(_filename) (fromtimestamp w.(utcoffset) (now w)) in
    let attempt := sys_os_open path create_flags create_mode (tick w) in
    let self' := set_baseFilename path self in
    match attempt.1 with
    | inr fd =>
        run (s ← FileHandler_open self'; Ret (self', s)) (log_event (EvOsClose fd) attempt.2)
    | inl e =>
        if decide (e <> EEXIST) then (inl (OSError e), attempt.2)
        else run (s ← FileHandler_open self'; Ret (self', s)) attempt.2
    end.
Proof.
  unfold _open. cbn [run pbind mbind prog_bind mret prog_ret].
  change (Z.lor O_CREAT O_EXCL) with create_flags.
  change (Z.lor (Z.lor (Z.lor S_IRUSR S_IWUSR) S_IRGRP) S_IROTH) with create_mode.
  set (attempt := sys_os_open _ create_flags create_mode (tick w)).
  destruct (attempt.1) as [e|fd]; cbn [run pbind mbind prog_bind mret prog_ret]; [|done].
  by destruct (decide (e <> EEXIST)).
Qed.

Lemma sys_os_open_create (path : string) (w : world) :
  refused w !! path = None ->
  sys_os_open path create_flags create_mode w =
    match files w !! path with
    | Some _ => (inl EEXIST, log_event (EvOsOpen path create_flags create_mode (inl EEXIST)) w)
    | None =>
        (inr (next_fd w),
         log_event (EvOsOpen path create_flags create_mode (inr (next_fd w)))
           (take_fd (set_files (<[path := ""]> (files w)) w)))
    end.
Proof. intros Hr. unfold sys_os_open. rewrite Hr. by destruct (files w !! path). Qed.

Lemma sys_os_open_refused (path : string) (e : errno) (w : world) :
  refused w !! path = Some e ->
  sys_os_open path create_flags create_mode w =
    (inl e, log_event (EvOsOpen path create_flags create_mode (inl e)) w).
Proof. intros Hr. unfold sys_os_open. by rewrite Hr. Qed.

End OpenFacts.

(** C4: when the exclusive creation of the day's file fails because the
    file exists, [_open] goes on and opens the path in the handler's mode,
    which is append; when it fails for any other reason, [_open] raises
    that error at once: the failed call is the last thing it does, with no
    second attempt and no file opened. *)
Theorem open_day_file (self : SituRotatingFileHandler) (w : world) :
  let path := log_path self.(_filename) (fromtimestamp w.(utcoffset) (now w)) in
  let attempt := sys_os_open path create_flags create_mode (tick w) in
  let self' := set_baseFilename path self in
  (attempt.1 = inl EEXIST ->
   run (_open self) w = run (s ← FileHandler_open self'; Ret (self', s)) attempt.2)
  /\ (forall content, files w !! path = Some content -> refused w !! path = None ->
      mode self = ModeAppend ->
      exists w',
        run (_open self) w = (inr (self', {| h_path := path; h_mode := ModeAppend |}), w')
        /\ files w' = files w
        /\ trace w' = [ EvOpen path ModeAppend None;
                        EvOsOpen path create_flags create_mode (inl EEXIST) ] ++ trace w)
  /\ (forall e, attempt.1 = inl e -> e <> EEXIST ->
      run (_open self) w = (inl (OSError e), attempt.2)
      /\ files attempt.2 = files w
      /\ trace attempt.2 = EvOsOpen path create_flags create_mode (inl e) :: trace w).
Proof.
  cbv zeta. split; [|split].
  - intros He. rewrite run_open. cbv zeta. rewrite He. by destruct (decide _).
  - intros content Hc Hr Hm. rewrite run_open. cbv zeta.
    rewrite sys_os_open_create by done. cbn [files tick]. rewrite Hc. cbn [fst snd].
    destruct (decide _) as [?|_]; [done |].
    rewrite run_bind, run_FileHandler_open. cbv zeta. unfold sys_open.
    cbn [refused log_event tick baseFilename mode set_baseFilename]. rewrite Hr, Hm.
    cbn [fst snd run files log_event tick set_files trace]. rewrite Hc.
    eexists. split; [reflexivity |]. cbn [files trace].
    split; [by apply insert_id | done].
  - intros e He Hne. rewrite run_open. cbv zeta. rewrite He.
    destruct (decide _) as [_|?]; [|done]. split; [done |].
    revert He. unfold sys_os_open. cbn [refused files tick].
    destruct (refused w !! _) as [e0|]; cbn [fst snd files trace log_event tick].
    + by intros [= ->].
    + destruct (files w !! _); cbn [fst snd files trace log_event tick];
        [by intros [= <-] | done].
Qed.

Lemma open_day_file_witness :
  (exists w',
     run (_open Scenario.handler) (Scenario.system Scenario.noon Scenario.one_file ∅)
     = (inr (Scenario.handler, Scenario.today_stream), w')
     /\ files w' = Scenario.one_file
     /\ trace w' = [ EvOpen Scenario.today_file ModeAppend None;
                     EvOsOpen Scenario.today_file create_flags create_mode (inl EEXIST) ])
  /\ (let w := Scenario.system Scenario.noon ∅ {[ Scenario.today_file := EACCES ]} in
      let failed := log_event (EvOsOpen Scenario.today_file create_flags create_mode (inl EACCES))
                      (tick w) in
      run (_open Scenario.handler) w = (inl (OSError EACCES), failed)
      /\ files failed = ∅
      /\ trace failed = [ EvOsOpen Scenario.today_file create_flags create_mode (inl EACCES) ]).
Proof.
  split.
  - apply (proj1 (proj2 (open_day_file Scenario.handler
                           (Scenario.system Scenario.noon Scenario.one_file ∅)))
             ("started" +:+ Reference.newline)); reflexivity.
  - intros w failed.
    apply (proj2 (proj2 (open_day_file Scenario.handler w)) EACCES); [reflexivity | discriminate].
Defined.

Ltac run_step := cbn [run pbind mbind prog_bind mret prog_ret].

Section EmitFacts.

Lemma run_FileHandler_emit_open (self : SituRotatingFileHandler) (s : handle)
    (line : string) (w : world) :
  stream self = Some s ->
  run (FileHandler_emit self line) w = (inr self, sys_write s (terminated line) w).
Proof. intros Hs. unfold FileHandler_emit. run_step. rewrite Hs. run_step. by rewrite Hs. Qed.

(** Opening the day's file when nothing forbids it: the file is created
    if it is missing, and opened in append mode. *)
Lemma run_open_allowed (self : SituRotatingFileHandler) (w : world) :
  let path := log_path self.(_filename) (fromtimestamp w.(utcoffset) (now w)) in
  refused w !! path = None -> mode self = ModeAppend ->
  exists w',
    run (_open self) w
    = (inr (set_baseFilename path self, {| h_path := path; h_mode := ModeAppend |}), w')
    /\ files w' = <[path := default "" (files w !! path)]> (files w)
    /\ refused w' = refused w /\ clock w' = clock w /\ utcoffset w' = utcoffset w
    /\ reads w' = S (reads w)
    /\ exists created,
         trace w' = [EvOpen path ModeAppend None] ++ created ++ trace w
         /\ (created = [EvOsOpen path create_flags create_mode (inl EEXIST)]
             \/ exists fd, created = [EvOsClose fd; EvOsOpen path create_flags create_mode (inr fd)]).
Proof.
  cbv zeta. intros Hr Hm. rewrite run_open. cbv zeta.
  rewrite sys_os_open_create by done. cbn [files tick].
  destruct (files w !! _) as [content|] eqn:Hc; cbn [fst snd].
  - destruct (decide _) as [?|_]; [done |].
    rewrite run_bind, run_FileHandler_open. cbv zeta. unfold sys_open.
    cbn [refused log_event tick baseFilename mode set_baseFilename]. rewrite Hr, Hm.
    cbn [fst snd run files log_event tick set_files trace]. rewrite Hc.
    eexists. split; [reflexivity |]. cbn [files trace refused clock utcoffset reads default].
    repeat split; try done.
    eexists. split; [|left; reflexivity]. done.
  - rewrite run_bind, run_FileHandler_open. cbv zeta. unfold sys_open.
    cbn [refused log_event tick take_fd set_files baseFilename mode set_baseFilename].
    rewrite Hr, Hm.
    cbn [fst snd run files log_event tick take_fd set_files trace].
    rewrite lookup_insert_eq.
    eexists. split; [reflexivity |]. cbn [files trace refused clock utcoffset reads default].
    repeat split; try done.
    + by rewrite insert_insert_eq.
    + eexists. split; [|right; eexists; reflexivity]. done.
Qed.

End EmitFacts.

(** C3: as long as the clock does not exceed the deadline, [emit] writes
    the record to the stream it has and changes nothing else; once the
    clock is past the deadline, [emit] sets the deadline to the local
    midnight that ends the day of its next clock reading, closes the
    stream, opens (creating it if need be) the file named after the base
    name and the local date, in append mode, and writes the record at its
    end. *)
Theorem emit_rotation (self : SituRotatingFileHandler) (s : handle) (line : string)
    (w : world) :
  stream self = Some s -> mode self = ModeAppend ->
  ((now w <= _rotate_at self)%Z ->
   run (emit self line) w = (inr self, sys_write s (terminated line) (tick w)))
  /\ ((now w > _rotate_at self)%Z ->
      let deadline := next_midnight w.(utcoffset) (now (tick w)) in
      let today := fromtimestamp w.(utcoffset) (now (tick (tick w))) in
      let path := log_path self.(_filename) today in
      let opened := {| h_path := path; h_mode := ModeAppend |} in
      refused w !! path = None ->
      exists w',
        run (emit self line) w
        = (inr {| _filename := self.(_filename); _rotate_at := deadline;
                  baseFilename := path; mode := ModeAppend; stream := Some opened |}, w')
        /\ fromtimestamp w.(utcoffset) deadline
           = {| dt_ordinal := ((fromtimestamp w.(utcoffset) (now (tick w))).(dt_ordinal) + 1)%Z;
                dt_usec := 0 |}
        /\ path = self.(_filename) +:+ "." +:+ strftime "%Y-%m-%d" (timetuple today)
        /\ files w' = <[path := default "" (files w !! path) +:+ terminated line]> (files w)
        /\ exists created,
             trace w' = [EvWrite path (terminated line); EvOpen path ModeAppend None]
                        ++ created ++ [EvClose s.(h_path)] ++ trace w).
Proof.
  intros Hs Hm. split.
  - intros Hle. unfold emit. run_step.
    assert ((now w >? _rotate_at self)%Z = false) as -> by (rewrite Z.gtb_ltb; apply Z.ltb_ge; lia).
    run_step. by apply run_FileHandler_emit_open.
  - intros Hgt. cbv zeta. intros Hr. unfold emit. run_step.
    assert ((now w >? _rotate_at self)%Z = true) as -> by (rewrite Z.gtb_ltb; apply Z.ltb_lt; lia).
    rewrite run_bind, run_bind, run_next_rotate_at.
    unfold FileHandler_close. cbn [stream set_rotate_at]. rewrite Hs. run_step.
    unfold FileHandler_emit. cbn [stream set_stream]. rewrite run_bind, run_bind.
    destruct (run_open_allowed
                (set_stream None (set_rotate_at (next_midnight (utcoffset w) (now (tick w))) self))
                (log_event (EvClose (h_path s)) (tick (tick w))))
      as (w1 & Hrun & Hfiles & Hrefused & Hclock & Hoff & Hreads & created & Htrace & _);
      [done | done |].
    cbn [_filename set_stream set_rotate_at utcoffset log_event tick] in Hrun.
    change (now (log_event (EvClose (h_path s)) (tick (tick w)))) with (now (tick (tick w))) in Hrun.
    change (utcoffset (tick w)) with (utcoffset w).
    rewrite Hrun. run_step. cbn [stream set_stream fst snd]. run_step.
    eexists. split; [unfold set_baseFilename, set_stream, set_rotate_at; cbn; by rewrite Hm |].
    split; [apply next_midnight_spec |]. split; [reflexivity |].
    unfold sys_write. cbn [files trace log_event set_files h_path].
    rewrite Hfiles, Htrace. cbn [files log_event tick trace _filename set_stream set_rotate_at].
    change (now (log_event (EvClose (h_path s)) (tick (tick w)))) with (now (tick (tick w))).
    rewrite lookup_insert_eq, insert_insert_eq. split; [done |].
    exists created. done.
Qed.

Lemma emit_rotation_witness :
  (let w := Scenario.system Scenario.midnight Scenario.one_file ∅ in
   run (emit Scenario.handler "x") w
   = (inr Scenario.handler, sys_write Scenario.today_stream (terminated "x") (tick w)))
  /\ (let w := Scenario.system Scenario.past_midnight Scenario.one_file ∅ in
      let path := "situ.log.2020-03-15" in
      let opened := {| h_path := path; h_mode := ModeAppend |} in
      exists w',
        run (emit Scenario.handler "x") w
        = (inr {| _filename := "situ.log"; _rotate_at := Scenario.midnight + 86400 * usec;
                  baseFilename := path; mode := ModeAppend; stream := Some opened |}, w')
        /\ fromtimestamp Scenario.zone (Scenario.midnight + 86400 * usec)
           = {| dt_ordinal := 737500; dt_usec := 0 |}
        /\ path = "situ.log" +:+ "." +:+ "2020-03-15"
        /\ files w' = <[path := terminated "x"]> Scenario.one_file
        /\ exists created,
             trace w' = [EvWrite path (terminated "x"); EvOpen path ModeAppend None]
                        ++ created ++ [EvClose Scenario.today_file]).
Proof.
  split.
  - intros w.
    apply (proj1 (emit_rotation Scenario.handler Scenario.today_stream "x" w eq_refl eq_refl)).
    vm_compute. discriminate.
  - intros w path opened.
    apply (proj2 (emit_rotation Scenario.handler Scenario.today_stream "x" w eq_refl eq_refl));
      reflexivity.
Defined.

Ltac prog_step := cbn [pbind mbind prog_bind mret prog_ret].

Section Merge.
Context {A : Type}.

Lemma is_merge_app (l1 l2 : list A) : is_merge l1 l2 (l1 ++ l2).
Proof.
  induction l1 as [|x l1 IH]; simpl.
  - induction l2 as [|y l2 IH]; by constructor.
  - by constructor.
Qed.

Lemma is_merge_prefix_l (pre l1 l2 l : list A) :
  is_merge l1 l2 l -> is_merge (pre ++ l1) l2 (pre ++ l).
Proof. intros Hm. induction pre as [|x pre IH]; simpl; [done | by constructor]. Qed.

Lemma is_merge_prefix_r (pre l1 l2 l : list A) :
  is_merge l1 l2 l -> is_merge l1 (pre ++ l2) (pre ++ l).
Proof. intros Hm. induction pre as [|x pre IH]; simpl; [done | by constructor]. Qed.

End Merge.

Lemma joined_app (l1 l2 : list string) : joined (l1 ++ l2) = joined l1 +:+ joined l2.
Proof.
  induction l1 as [|x l1 IH]; simpl; [done |].
  by rewrite IH, sapp_assoc.
Qed.

Lemma total_length_merge (l1 l2 l : list string) :
  is_merge l1 l2 l ->
  String.length (joined l) = total_length l1 + total_length l2.
Proof.
  induction 1; simpl; [done | |]; rewrite slength_app; lia.
Qed.

Section Writers.
Variable base : string.
Variable off : Z.
Variable day : Z.

Local Abbreviation P := (day_path base day).
Local Abbreviation deadline := (day_deadline off day).
Local Abbreviation opened := (day_stream base day).

Lemma log_path_day (dt : datetime) : dt.(dt_ordinal) = day -> log_path base dt = P.
Proof.
  intros Hd. unfold day_path, log_path. f_equal. f_equal.
  unfold timetuple. cbn [dt_ordinal]. rewrite Hd.
  destruct (ord2ymd day) as [[y m] d]. reflexivity.
Qed.

Lemma on_day_deadline (t : Z) : on_day off day t -> next_midnight off t = deadline.
Proof. unfold on_day, next_midnight, day_deadline. by intros ->. Qed.

Lemma on_day_before (t : Z) : on_day off day t -> (t >? deadline)%Z = false.
Proof.
  intros Ht. rewrite Z.gtb_ltb. apply Z.ltb_ge.
  rewrite <- (on_day_deadline t Ht).
  pose proof (next_midnight_spec off t) as [_ [? _]]. lia.
Qed.

Lemma emit_all_writer (self : SituRotatingFileHandler) (lines : list string) :
  steady base off day self -> writer base off day true (terminated <$> lines) (emit_all self lines).
Proof.
  intros Hs. induction lines as [|line lines IH]; simpl.
  - by constructor.
  - unfold emit. prog_step. apply W_time. intros t Ht.
    rewrite (proj1 (proj2 Hs)), (on_day_before t Ht). prog_step.
    unfold FileHandler_emit. prog_step.
    destruct Hs as (Hf & Hr & Hm & Hst). rewrite Hst. prog_step. rewrite Hst. prog_step.
    apply W_write. apply IH.
Qed.

Lemma logging_process_writer (lines : list string) :
  writer base off day false (terminated <$> lines) (logging_process base lines).
Proof.
  unfold logging_process, SituRotatingFileHandler_init, _next_rotate_at. prog_step.
  apply W_now. intros t Ht.
  change (timetuple (add_days (replace_midnight ?d) 1)) with (midnight_after d).
  apply W_mktime. rewrite mktime_midnight_after, (on_day_deadline t Ht).
  unfold _open. prog_step. cbn [_filename].
  apply W_now. intros t' Ht'. rewrite (log_path_day _ Ht').
  change (Z.lor O_CREAT O_EXCL) with create_flags.
  change (Z.lor (Z.lor (Z.lor S_IRUSR S_IWUSR) S_IRGRP) S_IROTH) with create_mode.
  assert (Hrest : writer base off day true (terminated <$> lines)
    (BuiltinOpen P ModeAppend (fun r : errno + handle =>
       pbind (pbind (pbind match r with inr s => Ret s | inl e => Throw (OSError e) end
         (fun s => Ret (set_baseFilename P
            {| _filename := base; _rotate_at := deadline; baseFilename := base;
               mode := ModeAppend; stream := None |}, s)))
         (fun r0 => Ret (set_stream (Some r0.2) r0.1)))
         (fun self => emit_all self lines)))).
  { apply W_open. prog_step. apply emit_all_writer. by repeat split. }
  apply W_create.
  - intros fd. prog_step. apply W_closefd. exact Hrest.
  - prog_step. destruct (decide (EEXIST <> EEXIST)) as [?|_]; [done |]. exact Hrest.
Qed.

Lemma sys_write_content (w : world) (data : string) :
  content base day (sys_write opened data w) = content base day w +:+ data
  /\ is_Some (files (sys_write opened data w) !! P)
  /\ others_kept base day w (sys_write opened data w).
Proof.
  unfold content, sys_write, others_kept. cbn [files log_event set_files h_path day_stream].
  rewrite lookup_insert_eq. repeat split; [eauto |].
  intros q Hq. by rewrite lookup_insert_ne.
Qed.

Lemma others_kept_refl (w : world) : others_kept base day w w.
Proof. by intros q Hq. Qed.

Lemma others_kept_trans (w1 w2 w3 : world) :
  others_kept base day w1 w2 -> others_kept base day w2 w3 -> others_kept base day w1 w3.
Proof. intros H12 H23 q Hq. by rewrite H23, H12. Qed.

Lemma env_same (w w' : world) :
  refused w' = refused w -> utcoffset w' = utcoffset w -> clock w' = clock w ->
  env base off day w -> env base off day w'.
Proof. unfold env. by intros -> -> ->. Qed.

(** What each system call of a writer base off day does to the day's file. *)
Lemma create_effect (w : world) :
  env base off day w ->
  let r := sys_os_open P create_flags create_mode w in
  env base off day r.2 /\ is_Some (files r.2 !! P) /\ content base day r.2 = content base day w /\ others_kept base day w r.2
  /\ (r.1 = inl EEXIST \/ exists fd, r.1 = inr fd).
Proof.
  intros (Hr & Hoff & Hclock). cbv zeta. rewrite sys_os_open_create by done.
  unfold content, others_kept.
  destruct (files w !! P) as [c|] eqn:Hc; cbn [fst snd files log_event take_fd set_files].
  - rewrite Hc. split_and!; eauto. by apply (env_same w).
  - rewrite lookup_insert_eq. split_and!; eauto; [by apply (env_same w) |].
    intros q Hq. by rewrite lookup_insert_ne.
Qed.

Lemma open_effect (w : world) :
  env base off day w ->
  let r := sys_open P ModeAppend w in
  r.1 = inr opened
  /\ env base off day r.2 /\ is_Some (files r.2 !! P) /\ content base day r.2 = content base day w /\ others_kept base day w r.2.
Proof.
  intros (Hr & Hoff & Hclock). cbv zeta. unfold sys_open. rewrite Hr.
  unfold content, others_kept. cbn [fst snd files log_event set_files].
  rewrite lookup_insert_eq. split_and!; eauto; [by apply (env_same w) |].
  intros q Hq. by rewrite lookup_insert_ne.
Qed.

Lemma write_effect (w : world) (data : string) :
  env base off day w ->
  env base off day (sys_write opened data w) /\ is_Some (files (sys_write opened data w) !! P)
  /\ content base day (sys_write opened data w) = content base day w +:+ data
  /\ others_kept base day w (sys_write opened data w).
Proof.
  intros Henv. destruct (sys_write_content w data) as (Hc & Hsome & Hkept).
  split_and!; try done; by apply (env_same w).
Qed.

(** One system call of a writer base off day. *)
Lemma writer_step (o : bool) (pending : list string) (p p' : prog SituRotatingFileHandler)
    (w w' : world) :
  writer base off day o pending p -> env base off day w -> exists_if base day o w -> step p w = Some (p', w') ->
  exists o' written pending',
    writer base off day o' pending' p' /\ pending = written ++ pending'
    /\ env base off day w' /\ exists_if base day o' w'
    /\ (forall o2, exists_if base day o2 w -> exists_if base day o2 w')
    /\ content base day w' = content base day w +:+ joined written
    /\ others_kept base day w w'.
Proof.
  intros Hw Henv Hex Hstep. pose proof Henv as (Hr & Hoff & Hclock).
  destruct Hw as [self Hs|o pending k Hk|o pending k Hk|o pending tm k Hk
                 |o pending k Hfd Hee|o pending fd k Hk|o pending k Hk|pending data k Hk];
    cbn [step] in Hstep; [done | ..];
    apply (inj Some), pair_equal_spec in Hstep as [<- <-].
  - exists o, [], pending. split_and!; try done; [apply Hk, Hclock | by rewrite sapp_nil_r].
  - exists o, [], pending. rewrite Hoff.
    split_and!; try done; [apply Hk, Hclock | by rewrite sapp_nil_r].
  - exists o, [], pending. rewrite Hoff. split_and!; try done. by rewrite sapp_nil_r.
  - destruct (create_effect w Henv) as (Henv' & Hsome & Hc & Hkept & Hres).
    exists true, [], pending. split_and!; try done.
    + destruct Hres as [->|[fd ->]]; [done | apply Hfd].
    + by intros _.
    + by intros o2 _ _.
    + rewrite Hc. by rewrite sapp_nil_r.
  - exists o, [], pending. split_and!; try done. by rewrite sapp_nil_r.
  - destruct (open_effect w Henv) as (Hres & Henv' & Hsome & Hc & Hkept).
    exists true, [], pending. split_and!; try done.
    + by rewrite Hres.
    + by intros _.
    + by intros o2 _ _.
    + rewrite Hc. by rewrite sapp_nil_r.
  - destruct (write_effect w data Henv) as (Henv' & Hsome & Hc & Hkept).
    exists true, [data], pending. split_and!; try done.
    + by intros _.
    + by intros o2 _ _.
    + rewrite Hc. unfold joined. cbn [foldr]. by rewrite sapp_nil_r.
Qed.

(** A writer base off day run alone. *)
Lemma writer_run (o : bool) (pending : list string) (p : prog SituRotatingFileHandler)
    (w : world) :
  writer base off day o pending p -> env base off day w -> exists_if base day o w ->
  exists self w',
    run p w = (inr self, w') /\ steady base off day self
    /\ env base off day w' /\ is_Some (files w' !! P)
    /\ content base day w' = content base day w +:+ joined pending
    /\ others_kept base day w w'.
Proof.
  intros Hw. revert w.
  induction Hw as [self Hs|o pending k Hk IH|o pending k Hk IH|o pending tm k Hk IH
                  |o pending k Hfd IHfd Hee IHee|o pending fd k Hk IH|o pending k Hk IH
                  |pending data k Hk IH];
    intros w Henv Hex; pose proof Henv as (Hr & Hoff & Hclock); cbn [run].
  - exists self, w. split_and!; try done; [by apply Hex | by rewrite sapp_nil_r].
  - destruct (IH (now w) (Hclock _) (tick w)) as (self & w' & ? & ? & ? & ? & ? & ?); try done.
    exists self, w'. by split_and!.
  - rewrite Hoff.
    destruct (IH (now w) (Hclock _) (tick w)) as (self & w' & ? & ? & ? & ? & ? & ?); try done.
    exists self, w'. by split_and!.
  - rewrite Hoff. destruct (IH w) as (self & w' & ? & ? & ? & ? & ? & ?); try done.
    exists self, w'. by split_and!.
  - destruct (create_effect w Henv) as (Henv' & Hsome & Hc & Hkept & Hres). cbv zeta.
    destruct Hres as [Hres|[fd Hres]]; rewrite Hres.
    + destruct (IHee _ Henv') as (self & w' & ? & ? & ? & ? & Hc' & Hk'); [by intros _ |].
      exists self, w'. split_and!; try done; [by rewrite Hc', Hc | by eapply others_kept_trans].
    + destruct (IHfd fd _ Henv') as (self & w' & ? & ? & ? & ? & Hc' & Hk'); [by intros _ |].
      exists self, w'. split_and!; try done; [by rewrite Hc', Hc | by eapply others_kept_trans].
  - destruct (IH (log_event (EvOsClose fd) w)) as (self & w' & ? & ? & ? & ? & ? & ?); try done.
    exists self, w'. by split_and!.
  - destruct (open_effect w Henv) as (Hres & Henv' & Hsome & Hc & Hkept). cbv zeta.
    rewrite Hres.
    destruct (IH _ Henv') as (self & w' & ? & ? & ? & ? & Hc' & Hk'); [by intros _ |].
    exists self, w'. split_and!; try done; [by rewrite Hc', Hc | by eapply others_kept_trans].
  - destruct (write_effect w data Henv) as (Henv' & Hsome & Hc & Hkept).
    destruct (IH _ Henv') as (self & w' & ? & ? & ? & ? & Hc' & Hk'); [by intros _ |].
    exists self, w'. split_and!; try done; [|by eapply others_kept_trans].
    rewrite Hc', Hc. unfold joined. cbn [foldr]. by rewrite sapp_assoc.
Qed.

Lemma step_None (o : bool) (pending : list string) (p : prog SituRotatingFileHandler)
    (w : world) :
  writer base off day o pending p -> step p w = None ->
  exists self, p = Ret self /\ steady base off day self /\ pending = [] /\ o = true.
Proof. intros Hw Hs. destruct Hw; try done. eauto. Qed.

(** Two writers, interleaved in any way. *)
Lemma writers_interleaved (sched : list bool) (o1 o2 : bool) (pending1 pending2 : list string)
    (p q : prog SituRotatingFileHandler) (w : world) :
  writer base off day o1 pending1 p -> writer base off day o2 pending2 q ->
  env base off day w -> exists_if base day o1 w -> exists_if base day o2 w ->
  exists self1 self2 merged w',
    interleave sched p q w = (inr self1, inr self2, w')
    /\ steady base off day self1 /\ steady base off day self2
    /\ is_merge pending1 pending2 merged
    /\ is_Some (files w' !! P)
    /\ content base day w' = content base day w +:+ joined merged
    /\ others_kept base day w w'.
Proof.
  revert o1 o2 pending1 pending2 p q w.
  induction sched as [|turn sched IH]; intros o1 o2 pending1 pending2 p q w Hp Hq Henv H1 H2.
  - cbn [interleave].
    destruct (writer_run _ _ _ _ Hp Henv H1) as (self1 & w1 & Hr1 & Hs1 & Henv1 & Hsome1 & Hc1 & Hk1).
    destruct (writer_run _ _ _ w1 Hq Henv1) as (self2 & w2 & Hr2 & Hs2 & Henv2 & Hsome2 & Hc2 & Hk2);
      [by intros _ |].
    exists self1, self2, (pending1 ++ pending2), w2. rewrite Hr1. cbn [fst snd]. rewrite Hr2.
    split_and!; try done.
    + apply is_merge_app.
    + by rewrite Hc2, Hc1, joined_app, sapp_assoc.
    + by eapply others_kept_trans.
  - destruct turn; cbn [interleave].
    + destruct (step p w) as [[p' w']|] eqn:Hstep.
      * destruct (writer_step _ _ _ _ _ _ Hp Henv H1 Hstep)
          as (o' & written & pending' & Hp' & -> & Henv' & H1' & Hmono & Hc & Hk).
        destruct (IH o' o2 pending' pending2 p' q w' Hp' Hq Henv' H1' (Hmono _ H2))
          as (self1 & self2 & merged & w'' & Hi & Hs1 & Hs2 & Hm & Hsome & Hc' & Hk').
        exists self1, self2, (written ++ merged), w''. split_and!; try done.
        -- by apply is_merge_prefix_l.
        -- by rewrite Hc', Hc, joined_app, sapp_assoc.
        -- by eapply others_kept_trans.
      * by apply (IH o1 o2).
    + destruct (step q w) as [[q' w']|] eqn:Hstep.
      * destruct (writer_step _ _ _ _ _ _ Hq Henv H2 Hstep)
          as (o' & written & pending' & Hq' & -> & Henv' & H2' & Hmono & Hc & Hk).
        destruct (IH o1 o' pending1 pending' p q' w' Hp Hq' Henv' (Hmono _ H1) H2')
          as (self1 & self2 & merged & w'' & Hi & Hs1 & Hs2 & Hm & Hsome & Hc' & Hk').
        exists self1, self2, (written ++ merged), w''. split_and!; try done.
        -- by apply is_merge_prefix_r.
        -- by rewrite Hc', Hc, joined_app, sapp_assoc.
        -- by eapply others_kept_trans.
      * by apply (IH o1 o2).
Qed.

End Writers.

(** C2: two handlers for the same base name, set up and used by two
    processes on the same local day, whatever the order of their system
    calls: both end with a stream on the one file of that day, opened in
    append mode; the file holds what it held before followed by the
    lines of both, each process's lines in their order and no line
    missing, so its length has grown by the number of bytes written; no
    other file is created or changed. *)
Theorem no_write_lost (base : string) (lines1 lines2 : list string) (sched : list bool)
    (w : world) (day : Z) :
  let path := day_path base day in
  let opened := day_stream base day in
  (forall n, (fromtimestamp w.(utcoffset) (clock w n)).(dt_ordinal) = day) ->
  refused w !! path = None ->
  exists self1 self2 merged w',
    interleave sched (logging_process base lines1) (logging_process base lines2) w
    = (inr self1, inr self2, w')
    /\ stream self1 = Some opened /\ stream self2 = Some opened
    /\ is_merge (terminated <$> lines1) (terminated <$> lines2) merged
    /\ files w' = <[path := default "" (files w !! path) +:+ joined merged]> (files w)
    /\ dom (files w') = {[path]} ∪ dom (files w)
    /\ String.length (joined merged)
       = total_length (terminated <$> lines1) + total_length (terminated <$> lines2).
Proof.
  intros path opened Hday Hr.
  destruct (writers_interleaved base w.(utcoffset) day sched false false
              (terminated <$> lines1) (terminated <$> lines2)
              (logging_process base lines1) (logging_process base lines2) w)
    as (self1 & self2 & merged & w' & Hi & Hs1 & Hs2 & Hm & Hsome & Hc & Hk);
    try apply logging_process_writer; try done.
  exists self1, self2, merged, w'.
  assert (Hf : files w' = <[path := default "" (files w !! path) +:+ joined merged]> (files w)).
  { apply map_eq. intros q. destruct (decide (q = path)) as [->|Hq].
    - rewrite lookup_insert_eq. destruct Hsome as [c Hsome].
      unfold content in Hc. fold path in Hc, Hsome. rewrite Hsome in Hc. simpl in Hc.
      by rewrite Hsome, Hc.
    - rewrite lookup_insert_ne by done. by apply Hk. }
  split_and!; try done.
  - apply Hs1.
  - apply Hs2.
  - rewrite Hf. by rewrite dom_insert_L.
  - by apply total_length_merge.
Qed.

Lemma no_write_lost_witness :
  let w := Scenario.system Scenario.noon ∅ ∅ in
  exists self1 self2 merged w',
    interleave [true; false; false; true; true; false; true; false; false; true]
      (logging_process "situ.log" ["a"; "b"]) (logging_process "situ.log" ["c"]) w
    = (inr self1, inr self2, w')
    /\ stream self1 = Some Scenario.today_stream /\ stream self2 = Some Scenario.today_stream
    /\ is_merge (terminated <$> ["a"; "b"]) (terminated <$> ["c"]) merged
    /\ files w' = {[ Scenario.today_file := joined merged ]}
    /\ dom (files w') = {[ Scenario.today_file ]}
    /\ String.length (joined merged) = 6.
Proof.
  intros w.
  destruct (no_write_lost "situ.log" ["a"; "b"] ["c"]
              [true; false; false; true; true; false; true; false; false; true] w 737498)
    as (self1 & self2 & merged & w' & Hi & Hs1 & Hs2 & Hm & Hf & Hd & Hl).
  - intros n. reflexivity.
  - reflexivity.
  - exists self1, self2, merged, w'. by split_and!.
Defined.

(** ** The handler: construction, rotation and failures *)

Section MoreRotation.
Open Scope Z_scope.

(** The deadline computed at [t] separates the local days up to that of
    [t] from the later ones. *)
Lemma before_deadline_iff (off t t' : Z) :
  t' < next_midnight off t
  <-> (fromtimestamp off t').(dt_ordinal) <= (fromtimestamp off t).(dt_ordinal).
Proof.
  unfold next_midnight, fromtimestamp. cbn [dt_ordinal].
  set (L := t + off * usec). set (L' := t' + off * usec). set (D := day_seconds * usec).
  assert (HD : D = 86400000000) by reflexivity.
  pose proof (Z.div_mod L D ltac:(lia)) as Hdm.
  pose proof (Z.mod_pos_bound L D ltac:(lia)) as Hb.
  pose proof (Z.div_mod L' D ltac:(lia)) as Hdm'.
  pose proof (Z.mod_pos_bound L' D ltac:(lia)) as Hb'.
  replace ((L / D + epoch_ordinal + 1 - epoch_ordinal) * day_seconds - off) with
    ((L / D + 1) * day_seconds - off) by lia.
  replace (((L / D + 1) * day_seconds - off) * usec) with (D * (L / D + 1) - off * usec)
    by (unfold D; lia).
  assert (HL' : t' = L' - off * usec) by (unfold L'; lia).
  rewrite HL'. clearbody L L' D. generalize dependent (L / D). generalize dependent (L' / D).
  intros q' ? q ?. subst D. lia.
Qed.

End MoreRotation.

(** X1: [_next_rotate_at] reads the clock once and returns a deadline
    that is strictly after that reading and at most a day after it; the
    deadline is the first instant of the next local day, so an instant is
    before it exactly when its local day is not after the day of the
    reading. *)
Theorem next_rotate_at_ends_today (w : world) :
  let today := (fromtimestamp w.(utcoffset) (now w)).(dt_ordinal) in
  exists deadline,
    run _next_rotate_at w = (inr deadline, tick w)
    /\ (now w < deadline <= now w + day_seconds * usec)%Z
    /\ fromtimestamp w.(utcoffset) deadline = {| dt_ordinal := today + 1; dt_usec := 0 |}
    /\ forall t, (t < deadline)%Z
         <-> ((fromtimestamp w.(utcoffset) t).(dt_ordinal) <= today)%Z.
Proof.
  cbv zeta. exists (next_midnight w.(utcoffset) (now w)).
  split; [apply run_next_rotate_at |].
  pose proof (next_midnight_spec w.(utcoffset) (now w)) as [Hm Hb].
  split; [done |]. split; [done |].
  intros t. apply before_deadline_iff.
Qed.

Section MoreOpen.

(** [_open] on a path that the system refuses. *)
Lemma run_open_refused (self : SituRotatingFileHandler) (w : world) (e : errno) :
  let path := log_path self.(_filename) (fromtimestamp w.(utcoffset) (now w)) in
  refused w !! path = Some e ->
  exists w',
    run (_open self) w = (inl (OSError e), w')
    /\ files w' = files w /\ refused w' = refused w.
Proof.
  cbv zeta. intros Hr. rewrite run_open. cbv zeta.
  rewrite (sys_os_open_refused _ e) by done. cbn [fst snd].
  destruct (decide (e <> EEXIST)) as [Hne|Heq].
  - eexists. split; [reflexivity |]. done.
  - rewrite run_bind, run_FileHandler_open. cbv zeta. unfold sys_open.
    cbn [refused log_event tick baseFilename set_baseFilename]. rewrite Hr.
    cbn [fst snd]. eexists. split; [reflexivity |]. done.
Qed.

End MoreOpen.

(** X3: when the day's file does not exist, [_open] creates it empty
    with [O_CREAT | O_EXCL] (192) and mode 0644 (420), closes the
    descriptor that the creation returned, and only then opens the path
    in append mode: no descriptor of the creation is kept. *)
Theorem open_creates_missing_file (self : SituRotatingFileHandler) (w : world) :
  let path := log_path self.(_filename) (fromtimestamp w.(utcoffset) (now w)) in
  files w !! path = None -> refused w !! path = None -> mode self = ModeAppend ->
  exists w',
    run (_open self) w
    = (inr (set_baseFilename path self, {| h_path := path; h_mode := ModeAppend |}), w')
    /\ files w' = <[path := ""]> (files w)
    /\ trace w' = [ EvOpen path ModeAppend None;
                    EvOsClose (next_fd w);
                    EvOsOpen path 192 420 (inr (next_fd w)) ] ++ trace w
    /\ next_fd w' = S (next_fd w).
Proof.
  cbv zeta. intros Hc Hr Hm. rewrite run_open. cbv zeta.
  rewrite sys_os_open_create by done. cbn [files tick]. rewrite Hc. cbn [fst snd].
  rewrite run_bind, run_FileHandler_open. cbv zeta. unfold sys_open.
  cbn [refused log_event tick take_fd set_files baseFilename mode set_baseFilename].
  rewrite Hr, Hm.
  cbn [fst snd run files log_event tick take_fd set_files trace next_fd].
  rewrite lookup_insert_eq.
  eexists. split; [reflexivity |]. cbn [files trace next_fd default].
  split; [by rewrite insert_insert_eq |]. done.
Qed.

Lemma open_creates_missing_file_witness :
  exists w',
    run (_open Scenario.handler) (Scenario.system Scenario.noon ∅ ∅)
    = (inr (Scenario.handler, Scenario.today_stream), w')
    /\ files w' = {[ Scenario.today_file := "" ]}
    /\ trace w' = [ EvOpen Scenario.today_file ModeAppend None;
                    EvOsClose 3;
                    EvOsOpen Scenario.today_file 192 420 (inr 3) ]
    /\ next_fd w' = 4.
Proof.
  apply (open_creates_missing_file Scenario.handler (Scenario.system Scenario.noon ∅ ∅));
    reflexivity.
Defined.

(** X2: the constructor computes the deadline from a first clock
    reading and opens the file of the day of a second one: the handler it
    returns has its stream on [filename.YYYY-MM-DD] in append mode, and
    the file has the content it had (none if it did not exist).  If the
    system refuses that path, the constructor raises the error and no
    file is created or changed. *)
Theorem init_opens_day_file (filename : string) (w : world) :
  let deadline := next_midnight w.(utcoffset) (now w) in
  let path := log_path filename (fromtimestamp w.(utcoffset) (now (tick w))) in
  (refused w !! path = None ->
   exists w',
     run (SituRotatingFileHandler_init filename) w
     = (inr {| _filename := filename; _rotate_at := deadline; baseFilename := path;
               mode := ModeAppend;
               stream := Some {| h_path := path; h_mode := ModeAppend |} |}, w')
     /\ files w' = <[path := default "" (files w !! path)]> (files w)
     /\ reads w' = S (S (reads w)))
  /\ (forall e, refused w !! path = Some e ->
      exists w',
        run (SituRotatingFileHandler_init filename) w = (inl (OSError e), w')
        /\ files w' = files w).
Proof.
  cbv zeta. split.
  - intros Hr. unfold SituRotatingFileHandler_init.
    rewrite run_bind, run_next_rotate_at, run_bind.
    destruct (run_open_allowed
                {| _filename := filename; _rotate_at := next_midnight (utcoffset w) (now w);
                   baseFilename := filename; mode := ModeAppend; stream := None |} (tick w))
      as (w' & Hrun & Hf & _ & _ & _ & Hreads & _); [done | done |].
    cbn [_filename utcoffset tick] in Hrun. rewrite Hrun. cbn [run fst snd].
    exists w'. split; [reflexivity |]. split; [done |]. done.
  - intros e Hr. unfold SituRotatingFileHandler_init.
    rewrite run_bind, run_next_rotate_at, run_bind.
    destruct (run_open_refused
                {| _filename := filename; _rotate_at := next_midnight (utcoffset w) (now w);
                   baseFilename := filename; mode := ModeAppend; stream := None |} (tick w) e)
      as (w' & Hrun & Hf & _); [done |].
    cbn [_filename utcoffset tick] in Hrun. rewrite Hrun.
    exists w'. split; [reflexivity |]. done.
Qed.

Lemma init_opens_day_file_witness :
  (exists w',
     run (SituRotatingFileHandler_init "situ.log")
       (Scenario.system Scenario.noon Scenario.one_file ∅)
     = (inr Scenario.handler, w')
     /\ files w' = Scenario.one_file
     /\ reads w' = 2)
  /\ (exists w',
        run (SituRotatingFileHandler_init "situ.log")
          (Scenario.system Scenario.noon ∅ {[ Scenario.today_file := EACCES ]})
        = (inl (OSError EACCES), w')
        /\ files w' = ∅).
Proof.
  split.
  - destruct (proj1 (init_opens_day_file "situ.log"
                       (Scenario.system Scenario.noon Scenario.one_file ∅)))
      as (w' & Hrun & Hf & Hreads); [reflexivity |].
    exists w'. split; [exact Hrun |]. split; [|exact Hreads].
    rewrite Hf. reflexivity.
  - apply (proj2 (init_opens_day_file "situ.log"
                    (Scenario.system Scenario.noon ∅ {[ Scenario.today_file := EACCES ]}))
             EACCES).
    reflexivity.
Defined.

(** X4: a handler whose stream was closed opens one again at the next
    [emit]: before the deadline it opens the file of the day of the clock
    reading taken by [_open] and keeps its deadline; past the deadline it
    also sets the new deadline, and closes nothing.  The record goes to
    the end of the file opened. *)
Theorem emit_reopens_closed_handler (self : SituRotatingFileHandler) (line : string)
    (w : world) :
  stream self = None -> mode self = ModeAppend ->
  ((now w <= _rotate_at self)%Z ->
   let path := log_path self.(_filename) (fromtimestamp w.(utcoffset) (now (tick w))) in
   refused w !! path = None ->
   exists w',
     run (emit self line) w
     = (inr {| _filename := self.(_filename); _rotate_at := self.(_rotate_at);
               baseFilename := path; mode := ModeAppend;
               stream := Some {| h_path := path; h_mode := ModeAppend |} |}, w')
     /\ files w' = <[path := default "" (files w !! path) +:+ terminated line]> (files w))
  /\ ((now w > _rotate_at self)%Z ->
      let deadline := next_midnight w.(utcoffset) (now (tick w)) in
      let path := log_path self.(_filename)
                    (fromtimestamp w.(utcoffset) (now (tick (tick w)))) in
      refused w !! path = None ->
      exists w',
        run (emit self line) w
        = (inr {| _filename := self.(_filename); _rotate_at := deadline;
                  baseFilename := path; mode := ModeAppend;
                  stream := Some {| h_path := path; h_mode := ModeAppend |} |}, w')
        /\ files w' = <[path := default "" (files w !! path) +:+ terminated line]> (files w)
        /\ exists created,
             trace w' = [EvWrite path (terminated line); EvOpen path ModeAppend None]
                        ++ created ++ trace w
             /\ (created = [EvOsOpen path create_flags create_mode (inl EEXIST)]
                 \/ exists fd,
                      created = [EvOsClose fd; EvOsOpen path create_flags create_mode (inr fd)])).
Proof.
  intros Hs Hm. split.
  - intros Hle. cbv zeta. intros Hr. unfold emit. run_step.
    assert ((now w >? _rotate_at self)%Z = false) as -> by (rewrite Z.gtb_ltb; apply Z.ltb_ge; lia).
    run_step. unfold FileHandler_emit. rewrite Hs. rewrite run_bind, run_bind.
    destruct (run_open_allowed self (tick w))
      as (w1 & Hrun & Hfiles & _ & _ & _ & _ & _); [done | done |].
    cbn [utcoffset tick] in Hrun. change (utcoffset (tick w)) with (utcoffset w) in Hrun.
    rewrite Hrun. run_step. cbn [stream set_stream fst snd]. run_step.
    eexists. split; [unfold set_baseFilename, set_stream; cbn; by rewrite Hm |].
    unfold sys_write. cbn [files log_event set_files h_path].
    rewrite Hfiles. cbn [files tick].
    by rewrite lookup_insert_eq, insert_insert_eq.
  - intros Hgt. cbv zeta. intros Hr. unfold emit. run_step.
    assert ((now w >? _rotate_at self)%Z = true) as -> by (rewrite Z.gtb_ltb; apply Z.ltb_lt; lia).
    rewrite run_bind, run_bind, run_next_rotate_at.
    unfold FileHandler_close. cbn [stream set_rotate_at]. rewrite Hs. run_step.
    unfold FileHandler_emit. cbn [stream set_rotate_at]. rewrite Hs. rewrite run_bind, run_bind.
    destruct (run_open_allowed
                (set_rotate_at (next_midnight (utcoffset w) (now (tick w))) self)
                (tick (tick w)))
      as (w1 & Hrun & Hfiles & _ & _ & _ & _ & created & Htrace & Hcreated); [done | done |].
    cbn [_filename set_rotate_at utcoffset tick] in Hrun.
    change (utcoffset (tick w)) with (utcoffset w).
    rewrite Hrun. run_step. cbn [stream set_stream fst snd]. run_step.
    eexists. split; [unfold set_baseFilename, set_stream, set_rotate_at; cbn; by rewrite Hm |].
    unfold sys_write. cbn [files trace log_event set_files h_path].
    rewrite Hfiles, Htrace. cbn [files tick trace _filename set_rotate_at].
    rewrite lookup_insert_eq, insert_insert_eq. split; [done |].
    exists created. done.
Qed.

Lemma emit_reopens_closed_handler_witness :
  (exists w',
     run (emit Usage.closed_handler "x") (Scenario.system Scenario.noon Scenario.one_file ∅)
     = (inr Scenario.handler, w')
     /\ files w' = {[ Scenario.today_file := "started" +:+ Reference.newline +:+ terminated "x" ]})
  /\ (exists w',
        run (emit Usage.closed_handler "x")
          (Scenario.system Scenario.past_midnight Scenario.one_file ∅)
        = (inr Usage.rotated_handler, w')
        /\ files w' = <[Usage.tomorrow_file := terminated "x"]> Scenario.one_file
        /\ exists created,
             trace w' = [EvWrite Usage.tomorrow_file (terminated "x");
                         EvOpen Usage.tomorrow_file ModeAppend None] ++ created ++ []
             /\ (created = [EvOsOpen Usage.tomorrow_file create_flags create_mode (inl EEXIST)]
                 \/ exists fd,
                      created = [EvOsClose fd;
                                 EvOsOpen Usage.tomorrow_file create_flags create_mode (inr fd)])).
Proof.
  split.
  - destruct (proj1 (emit_reopens_closed_handler Usage.closed_handler "x"
                       (Scenario.system Scenario.noon Scenario.one_file ∅) eq_refl eq_refl))
      as (w' & Hrun & Hf); [vm_compute; discriminate | reflexivity |].
    exists w'. split; [exact Hrun |]. rewrite Hf. reflexivity.
  - apply (proj2 (emit_reopens_closed_handler Usage.closed_handler "x"
                    (Scenario.system Scenario.past_midnight Scenario.one_file ∅)
                    eq_refl eq_refl)); reflexivity.
Defined.

Section EmitInvariant.

Lemma run_open_inr (self self' : SituRotatingFileHandler) (s : handle) (w w' : world) :
  run (_open self) w = (inr (self', s), w') ->
  let path := log_path self.(_filename) (fromtimestamp w.(utcoffset) (now w)) in
  self' = set_baseFilename path self /\ s = {| h_path := path; h_mode := mode self |}.
Proof.
  rewrite run_open. cbv zeta.
  set (path := log_path _ _). set (attempt := sys_os_open _ _ _ _).
  assert (Hopen : forall w0,
    run (s0 ← FileHandler_open (set_baseFilename path self); Ret (set_baseFilename path self, s0)) w0
    = (inr (self', s), w') ->
    self' = set_baseFilename path self /\ s = {| h_path := path; h_mode := mode self |}).
  { intros w0. rewrite run_bind, run_FileHandler_open. cbv zeta. unfold sys_open.
    cbn [baseFilename mode set_baseFilename].
    destruct (refused w0 !! path); cbn [fst snd run]; [intros [=] |].
    intros [= <- <- _]. done. }
  destruct (attempt.1) as [e|fd].
  - destruct (decide _); [intros [=] | apply Hopen].
  - apply Hopen.
Qed.

Lemma run_FileHandler_emit_inr (self self' : SituRotatingFileHandler) (line : string)
    (w w' : world) :
  stream_on_file self \/ stream self = None ->
  run (FileHandler_emit self line) w = (inr self', w') ->
  stream_on_file self' /\ _filename self' = _filename self /\ mode self' = mode self
  /\ _rotate_at self' = _rotate_at self.
Proof.
  intros [(s & Hs & Hp & Hm)|Hnone].
  - rewrite (run_FileHandler_emit_open self s) by done. intros [= <- _].
    split; [by exists s | done].
  - unfold FileHandler_emit. rewrite Hnone, run_bind, run_bind.
    destruct (run (_open self) w) as [[e|[self1 s1]] w1] eqn:Hrun; [intros [=] |].
    apply run_open_inr in Hrun as [-> ->]. run_step. cbn [stream set_stream]. run_step.
    intros [= <- _]. split; [|done].
    eexists. split; [reflexivity |]. done.
Qed.

End EmitInvariant.

(** X5: whenever [emit] returns, the handler has a stream on the file
    named by [baseFilename], in the handler's mode; [emit] never changes
    the base name nor the mode; and with a clock that does not go back,
    the deadline never moves back and is not before the instant at which
    [emit] checked it. *)
Theorem emit_keeps_handler_consistent (self self' : SituRotatingFileHandler)
    (line : string) (w w' : world) :
  stream_on_file self \/ stream self = None ->
  (forall n m, n <= m -> (clock w n <= clock w m)%Z) ->
  run (emit self line) w = (inr self', w') ->
  stream_on_file self'
  /\ _filename self' = _filename self /\ mode self' = mode self
  /\ (_rotate_at self <= _rotate_at self')%Z
  /\ (now w <= _rotate_at self')%Z.
Proof.
  intros Hinv Hmono. unfold emit. run_step.
  destruct (now w >? _rotate_at self)%Z eqn:Hcmp.
  - apply Z.gtb_lt in Hcmp.
    rewrite run_bind, run_bind, run_next_rotate_at.
    pose proof (next_midnight_spec (utcoffset w) (now (tick w))) as [_ [Hlt _]].
    assert (Hle : (now w <= now (tick w))%Z) by (apply Hmono; simpl; lia).
    unfold FileHandler_close. cbn [stream set_rotate_at].
    destruct (stream self) as [s|] eqn:Hs; run_step.
    + intros Hrun. apply run_FileHandler_emit_inr in Hrun as (Hon & Hf & Hm & Hr); [|by right].
      cbn [_filename mode _rotate_at set_stream set_rotate_at] in *.
      rewrite Hr. change (utcoffset (tick w)) with (utcoffset w). split_and!; try done; lia.
    + intros Hrun. apply run_FileHandler_emit_inr in Hrun as (Hon & Hf & Hm & Hr).
      * cbn [_filename mode _rotate_at set_stream set_rotate_at] in *.
        rewrite Hr. change (utcoffset (tick w)) with (utcoffset w). split_and!; try done; lia.
      * right. done.
  - assert (Hle : (now w <= _rotate_at self)%Z).
    { rewrite Z.gtb_ltb in Hcmp. apply Z.ltb_ge in Hcmp. lia. }
    run_step. intros Hrun.
    apply run_FileHandler_emit_inr in Hrun as (Hon & Hf & Hm & Hr); [|done].
    rewrite Hr. split_and!; try done; lia.
Qed.

Lemma emit_keeps_handler_consistent_witness :
  stream_on_file Usage.rotated_handler
  /\ _filename Usage.rotated_handler = _filename Scenario.handler
  /\ mode Usage.rotated_handler = mode Scenario.handler
  /\ (_rotate_at Scenario.handler <= _rotate_at Usage.rotated_handler)%Z
  /\ (Scenario.past_midnight <= _rotate_at Usage.rotated_handler)%Z.
Proof.
  assert (Hrun : (run (emit Scenario.handler "x")
                    (Scenario.system Scenario.past_midnight Scenario.one_file ∅)).1
                 = inr Usage.rotated_handler) by (vm_compute; reflexivity).
  refine (emit_keeps_handler_consistent Scenario.handler Usage.rotated_handler "x"
            (Scenario.system Scenario.past_midnight Scenario.one_file ∅)
            (run (emit Scenario.handler "x")
               (Scenario.system Scenario.past_midnight Scenario.one_file ∅)).2 _ _ _).
  - left. exists Scenario.today_stream. split; [reflexivity |]. split; reflexivity.
  - intros n m _. simpl. lia.
  - rewrite <- Hrun. apply surjective_pairing.
Defined.

(** X7: a process that sets a handler up and logs some lines, all on
    one local day, leaves the day's file with what it held before
    followed by the lines, each with its line feed, in the order they
    were logged; no other file is touched. *)
Theorem lines_appended_in_order (base : string) (lines : list string) (w : world) (day : Z) :
  (forall n, on_day w.(utcoffset) day (clock w n)) ->
  refused w !! day_path base day = None ->
  exists self w',
    run (logging_process base lines) w = (inr self, w')
    /\ stream self = Some (day_stream base day)
    /\ _filename self = base
    /\ files w' = <[day_path base day :=
                      default "" (files w !! day_path base day)
                      +:+ joined (terminated <$> lines)]> (files w).
Proof.
  intros Hday Hr.
  destruct (writer_run base w.(utcoffset) day false (terminated <$> lines)
              (logging_process base lines) w)
    as (self & w' & Hrun & Hs & _ & Hsome & Hc & Hk);
    [apply logging_process_writer | done | done |].
  exists self, w'. split; [done |]. split; [apply Hs |]. split; [apply Hs |].
  apply map_eq. intros q. destruct (decide (q = day_path base day)) as [->|Hq].
  - rewrite lookup_insert_eq. destruct Hsome as [c Hsome].
    unfold content in Hc. rewrite Hsome in Hc. simpl in Hc. by rewrite Hsome, Hc.
  - rewrite lookup_insert_ne by done. by apply Hk.
Qed.

Lemma lines_appended_in_order_witness :
  exists self w',
    run (logging_process "situ.log" ["a"; "b"]) (Scenario.system Scenario.noon ∅ ∅)
    = (inr self, w')
    /\ stream self = Some Scenario.today_stream
    /\ _filename self = "situ.log"
    /\ files w' = {[ Scenario.today_file := terminated "a" +:+ terminated "b" ]}.
Proof.
  destruct (lines_appended_in_order "situ.log" ["a"; "b"]
              (Scenario.system Scenario.noon ∅ ∅) 737498)
    as (self & w' & Hrun & Hs & Hf & Hfiles).
  - intros n. reflexivity.
  - reflexivity.
  - exists self, w'. split; [exact Hrun |]. split; [exact Hs |]. split; [exact Hf |].
    rewrite Hfiles. reflexivity.
Defined.

Section MoreEmit.

Lemma run_open_refused_trace (self : SituRotatingFileHandler) (w : world) (e : errno) :
  let path := log_path self.(_filename) (fromtimestamp w.(utcoffset) (now w)) in
  refused w !! path = Some e ->
  exists w' attempts,
    run (_open self) w = (inl (OSError e), w')
    /\ files w' = files w
    /\ trace w' = attempts ++ trace w /\ Forall failed_open attempts.
Proof.
  cbv zeta. intros Hr. rewrite run_open. cbv zeta.
  rewrite (sys_os_open_refused _ e) by done. cbn [fst snd].
  destruct (decide (e <> EEXIST)) as [Hne|Heq].
  - eexists _, [_]. split; [reflexivity |]. split; [done |]. split; [reflexivity |].
    by repeat constructor.
  - rewrite run_bind, run_FileHandler_open. cbv zeta. unfold sys_open.
    cbn [refused log_event tick baseFilename set_baseFilename]. rewrite Hr.
    cbn [fst snd]. eexists _, [_; _]. split; [reflexivity |]. split; [done |].
    split; [reflexivity |]. by repeat constructor.
Qed.

End MoreEmit.

(** X6: when the deadline is past and the system refuses the file of the
    new day, [emit] raises that error after closing the old stream: the
    record is written nowhere, no file is created or changed, and the
    only system calls after the close are the failed attempts to open. *)
Theorem emit_refused_at_rotation (self : SituRotatingFileHandler) (s : handle) (line : string)
    (w : world) (e : errno) :
  stream self = Some s -> (now w > _rotate_at self)%Z ->
  let path := log_path self.(_filename)
                (fromtimestamp w.(utcoffset) (now (tick (tick w)))) in
  refused w !! path = Some e ->
  exists w' attempts,
    run (emit self line) w = (inl (OSError e), w')
    /\ files w' = files w
    /\ trace w' = attempts ++ [EvClose s.(h_path)] ++ trace w
    /\ Forall failed_open attempts.
Proof.
  intros Hs Hgt. cbv zeta. intros Hr. unfold emit. run_step.
  assert ((now w >? _rotate_at self)%Z = true) as -> by (rewrite Z.gtb_ltb; apply Z.ltb_lt; lia).
  rewrite run_bind, run_bind, run_next_rotate_at.
  unfold FileHandler_close. cbn [stream set_rotate_at]. rewrite Hs. run_step.
  unfold FileHandler_emit. cbn [stream set_stream]. rewrite run_bind, run_bind.
  destruct (run_open_refused_trace
              (set_stream None (set_rotate_at (next_midnight (utcoffset w) (now (tick w))) self))
              (log_event (EvClose (h_path s)) (tick (tick w))) e)
    as (w1 & attempts & Hrun & Hfiles & Htrace & Hfailed); [done |].
  change (utcoffset (tick w)) with (utcoffset w).
  rewrite Hrun. exists w1, attempts. split; [done |]. split; [done |]. done.
Qed.

Lemma emit_refused_at_rotation_witness :
  exists w' attempts,
    run (emit Scenario.handler "x")
      (Scenario.system Scenario.past_midnight Scenario.one_file
         {[ Usage.tomorrow_file := ENOSPC ]})
    = (inl (OSError ENOSPC), w')
    /\ files w' = Scenario.one_file
    /\ trace w' = attempts ++ [EvClose Scenario.today_file] ++ []
    /\ Forall failed_open attempts.
Proof.
  apply (emit_refused_at_rotation Scenario.handler Scenario.today_stream "x"
           (Scenario.system Scenario.past_midnight Scenario.one_file
              {[ Usage.tomorrow_file := ENOSPC ]}) ENOSPC);
    reflexivity.
Defined.

Section FileNames.
Open Scope Z_scope.

Lemma holds_from_spec (n : nat) (z : Z) (p : Z -> bool) :
  holds_from n z p = true -> forall k, z <= k < z + Z.of_nat n -> p k = true.
Proof.
  revert z. induction n as [|n IH]; intros z; simpl holds_from; [lia |].
  intros [Hz Hrest]%andb_true_iff k Hk.
  destruct (decide (k = z)) as [->|Hne]; [done |].
  apply (IH (z + 1) Hrest). lia.
Qed.

Lemma year_ok_all : holds_from (Z.to_nat 10000) 0 year_ok = true.
Proof. vm_compute. reflexivity. Qed.

Lemma year_spec (z : Z) :
  0 <= z < 10000 -> has_char "-" (str_of_Z z) = false /\ decimal_value 0 (str_of_Z z) = z.
Proof.
  intros Hz.
  pose proof (holds_from_spec (Z.to_nat 10000) 0 year_ok year_ok_all z ltac:(lia)) as Hin.
  unfold year_ok in Hin. apply andb_true_iff in Hin as [H1 H2].
  apply negb_true_iff in H1. apply Z.eqb_eq in H2. done.
Qed.

Lemma pad_ok_two : holds_from 100 0 (pad_ok 2) = true.
Proof. vm_compute. reflexivity. Qed.

Lemma pad_spec (w : nat) (bound : nat) (z : Z) :
  holds_from bound 0 (pad_ok w) = true -> 0 <= z < Z.of_nat bound ->
  String.length (pad w z) = w /\ decimal_value 0 (pad w z) = z.
Proof.
  intros Hall Hz. pose proof (holds_from_spec bound 0 (pad_ok w) Hall z ltac:(lia)) as Hin.
  unfold pad_ok in Hin. apply andb_true_iff in Hin as [H1 H2].
  apply Nat.eqb_eq in H1. apply Z.eqb_eq in H2. done.
Qed.

Lemma month_day_small_all (leapyear : bool) :
  forallb (month_day_small leapyear) (seq 0 365) = true.
Proof. destruct leapyear; vm_compute; reflexivity. Qed.

Lemma month_day_range (n : Z) (leapyear : bool) :
  0 <= n < 365 ->
  let '(m, d) := month_day n leapyear in 1 <= m <= 12 /\ 1 <= d <= 31.
Proof.
  intros Hn. pose proof (month_day_small_all leapyear) as Hall.
  rewrite forallb_forall in Hall.
  specialize (Hall (Z.to_nat n)). unfold month_day_small in Hall.
  rewrite Z2Nat.id in Hall by lia.
  destruct (month_day n leapyear) as [m d].
  assert (In (Z.to_nat n) (seq 0 365)) as Hin by (apply in_seq; lia).
  apply Hall in Hin. rewrite !andb_true_iff in Hin. lia.
Qed.

Lemma ord2ymd_range (n : Z) :
  min_ordinal <= n <= max_ordinal ->
  let '(y, m, d) := ord2ymd n in 1 <= y <= 9999 /\ 1 <= m <= 12 /\ 1 <= d <= 31.
Proof.
  unfold min_ordinal, max_ordinal. intros Hn. unfold ord2ymd.
  set (m0 := n - 1).
  set (a := m0 / 146097). set (r1 := m0 mod 146097).
  set (b := r1 / 36524). set (r2 := r1 mod 36524).
  set (c := r2 / 1461). set (r3 := r2 mod 1461).
  set (d := r3 / 365). set (r4 := r3 mod 365).
  assert (H0 : m0 = 146097 * a + r1 /\ 0 <= r1 < 146097).
  { unfold a, r1. split; [apply Z.div_mod; lia | apply Z.mod_pos_bound; lia]. }
  assert (H1 : r1 = 36524 * b + r2 /\ 0 <= r2 < 36524).
  { unfold b, r2. split; [apply Z.div_mod; lia | apply Z.mod_pos_bound; lia]. }
  assert (H2 : r2 = 1461 * c + r3 /\ 0 <= r3 < 1461).
  { unfold c, r3. split; [apply Z.div_mod; lia | apply Z.mod_pos_bound; lia]. }
  assert (H3 : r3 = 365 * d + r4 /\ 0 <= r4 < 365).
  { unfold d, r4. split; [apply Z.div_mod; lia | apply Z.mod_pos_bound; lia]. }
  assert (Hm0 : 0 <= m0 <= 3652058) by (unfold m0; lia).
  clearbody a r1 b r2 c r3 d r4 m0.
  destruct ((d =? 4) || (b =? 4)) eqn:Especial.
  - apply orb_true_iff in Especial as [Ed%Z.eqb_eq|Eb%Z.eqb_eq]; lia.
  - apply orb_false_iff in Especial as [Ed%Z.eqb_neq Eb%Z.eqb_neq].
    set (leapyear := (d =? 3) && (negb (c =? 24) || (b =? 3))).
    pose proof (month_day_range r4 leapyear ltac:(lia)) as Hmd.
    unfold month_day in Hmd.
    destruct (r4 <? _); lia.
Qed.

Lemma sapp_inv_head (s a b : string) : s +:+ a = s +:+ b -> a = b.
Proof. induction s as [|c s IH]; [done |]. rewrite !sapp_cons. intros [= ?]. auto. Qed.

Lemma sapp_inv_length (a a' b b' : string) :
  String.length a = String.length a' -> a +:+ b = a' +:+ b' -> a = a' /\ b = b'.
Proof.
  revert a'. induction a as [|c a IH]; intros [|c' a']; simpl; try done.
  intros [= Hlen]. rewrite !sapp_cons. intros [= -> Happ].
  destruct (IH a' Hlen Happ) as [-> ->]. done.
Qed.

Lemma sapp_inv_sep (c : ascii) (a a' b b' : string) :
  has_char c a = false -> has_char c a' = false ->
  a +:+ String c b = a' +:+ String c b' -> a = a' /\ b = b'.
Proof.
  revert a'. induction a as [|x a IH]; intros [|x' a']; simpl.
  - by intros _ _ [= ->].
  - intros _ [Hx _]%orb_false_iff. rewrite sapp_cons. intros [= <- _].
    by rewrite Ascii.eqb_refl in Hx.
  - intros [Hx _]%orb_false_iff _. rewrite sapp_cons. intros [= -> _].
    by rewrite Ascii.eqb_refl in Hx.
  - intros [_ Ha]%orb_false_iff [_ Ha']%orb_false_iff. rewrite !sapp_cons.
    intros [= -> Happ]. destruct (IH a' Ha Ha' Happ) as [-> ->]. done.
Qed.

Lemma day_name_inj (y m d y' m' d' : Z) :
  0 <= y < 10000 -> 0 <= m < 100 -> 0 <= d < 100 ->
  0 <= y' < 10000 -> 0 <= m' < 100 -> 0 <= d' < 100 ->
  str_of_Z y +:+ String "-" (pad 2 m +:+ String "-" (pad 2 d +:+ ""))
  = str_of_Z y' +:+ String "-" (pad 2 m' +:+ String "-" (pad 2 d' +:+ "")) ->
  y = y' /\ m = m' /\ d = d'.
Proof.
  intros Hy Hm Hd Hy' Hm' Hd'.
  destruct (year_spec y Hy) as [Fy Vy].
  destruct (year_spec y' Hy') as [Fy' Vy'].
  destruct (pad_spec 2 100 m pad_ok_two Hm) as [Lm Vm].
  destruct (pad_spec 2 100 m' pad_ok_two Hm') as [Lm' Vm'].
  destruct (pad_spec 2 100 d pad_ok_two Hd) as [Ld Vd].
  destruct (pad_spec 2 100 d' pad_ok_two Hd') as [Ld' Vd'].
  intros [Ey Erest]%sapp_inv_sep; [| done | done].
  apply sapp_inv_length in Erest as [Em [= Ed]]; [|congruence].
  rewrite !sapp_nil_r in Ed.
  split; [congruence |]. split; congruence.
Qed.

End FileNames.

(** X8: for the days that [datetime] supports (years 1 to 9999), two
    instants get the same log file name exactly when they fall on the
    same local day: a day has one file, and two days never share one. *)
Theorem one_file_per_day (base : string) (dt1 dt2 : datetime) :
  (min_ordinal <= dt1.(dt_ordinal) <= max_ordinal)%Z ->
  (min_ordinal <= dt2.(dt_ordinal) <= max_ordinal)%Z ->
  log_path base dt1 = log_path base dt2 <-> dt1.(dt_ordinal) = dt2.(dt_ordinal).
Proof.
  intros H1 H2. split.
  - unfold log_path. intros E%sapp_inv_head%sapp_inv_head.
    unfold timetuple in E.
    pose proof (ord2ymd_range _ H1) as R1. pose proof (ord2ymd_range _ H2) as R2.
    pose proof (ymd2ord_ord2ymd (dt_ordinal dt1)) as T1.
    pose proof (ymd2ord_ord2ymd (dt_ordinal dt2)) as T2.
    destruct (ord2ymd (dt_ordinal dt1)) as [[y m] d].
    destruct (ord2ymd (dt_ordinal dt2)) as [[y' m'] d'].
    cbn [strftime tm_year tm_mon tm_mday Ascii.eqb Bool.eqb] in E.
    destruct (day_name_inj y m d y' m' d') as (Ey & Em & Ed); [lia .. | exact E |].
    subst y' m' d'. congruence.
  - intros E.
    by rewrite (log_path_day base (dt_ordinal dt2) dt1), (log_path_day base (dt_ordinal dt2) dt2).
Qed.

(** A year below 1000 is written without padding. *)
Example log_path_early_year :
  log_path "situ.log" {| dt_ordinal := 1463; dt_usec := 0 |} = "situ.log.5-01-02".
Proof. vm_compute. reflexivity. Qed.

Lemma one_file_per_day_witness :
  (log_path "situ.log" {| dt_ordinal := 737498; dt_usec := 0 |}
   = log_path "situ.log" {| dt_ordinal := 737498; dt_usec := 43200000000 |}
   <-> 737498%Z = 737498%Z)
  /\ (log_path "situ.log" {| dt_ordinal := 1463; dt_usec := 0 |}
      = log_path "situ.log" {| dt_ordinal := 1828; dt_usec := 0 |}
      <-> 1463%Z = 1828%Z).
Proof.
  split.
  - apply (one_file_per_day "situ.log" {| dt_ordinal := 737498; dt_usec := 0 |}
             {| dt_ordinal := 737498; dt_usec := 43200000000 |});
      unfold min_ordinal, max_ordinal; simpl; lia.
  - apply (one_file_per_day "situ.log" {| dt_ordinal := 1463; dt_usec := 0 |}
             {| dt_ordinal := 1828; dt_usec := 0 |});
      unfold min_ordinal, max_ordinal; simpl; lia.
Defined.

(** ** The formatter: parsing, merging, assembling and serializing *)

Section ParseShape.

Lemma lazy_rest_shape (s g : string) :
  lazy_rest s = Some g -> has_char "010" g = false /\ has_char ")" g = false.
Proof.
  revert g. induction s as [|c s IH]; intros g; simpl; [done |].
  destruct (Ascii.eqb_spec c ")") as [->|Hc].
  - by intros [= <-].
  - unfold dot. destruct (Ascii.eqb_spec c "010") as [->|Hn]; simpl; [done |].
    destruct (lazy_rest s) as [g'|]; [|done].
    intros [= <-]. destruct (IH g' eq_refl) as [H1 H2]. simpl.
    rewrite H1, H2.
    destruct (Ascii.eqb_spec c "010"); [done |].
    destruct (Ascii.eqb_spec c ")"); done.
Qed.

Lemma match_group_shape (s g : string) :
  match_group s = Some g -> group_shape g = true.
Proof.
  destruct s as [|c s]; simpl; [done |].
  unfold dot. destruct (Ascii.eqb_spec c "010") as [->|Hn]; simpl; [done |].
  destruct (lazy_rest s) as [g'|] eqn:E; [|done].
  intros [= <-]. destruct (lazy_rest_shape _ _ E) as [H1 H2].
  simpl. rewrite H1, H2. by destruct (Ascii.eqb_spec c "010").
Qed.

Lemma findall_from_shape (s : string) (skip : nat) :
  Forall (fun g => group_shape g = true) (findall_from skip s).
Proof.
  revert skip. induction s as [|c s IH]; intros skip; simpl; [constructor |].
  destruct skip as [|k]; [|apply IH].
  destruct (Ascii.eqb c "("); [|apply IH].
  destruct (match_group s) as [g|] eqn:E; [|apply IH].
  constructor; [by eapply match_group_shape | apply IH].
Qed.

End ParseShape.

Section ParseScan.

Lemma pattern_fields_text (lit : string) (fs : list (string * string)) :
  pattern lit fs = lit +:+ fields_text fs.
Proof. destruct fs as [|[name lit'] fs]; simpl; [by rewrite sapp_nil_r | done]. Qed.

Lemma scanned_unfold (lit : string) (fs : list (string * string)) :
  scanned lit fs
  <-> name_free lit (fields_text fs)
      /\ match fs with
         | [] => True
         | (name, lit') :: rest => group_shape name = true /\ scanned lit' rest
         end.
Proof. by destruct fs. Qed.

Lemma match_group_name (s g : string) :
  match_group s = Some g <-> name_at_head s g.
Proof.
  split.
  - intros E. split; [by eapply match_group_shape |].
    eexists. by apply match_group_Some.
  - intros [Hg [rest ->]].
    destruct g as [|c g]; [done |]. simpl in Hg.
    apply andb_true_iff in Hg as [Hn Hc]. apply negb_true_iff in Hn, Hc.
    apply orb_false_iff in Hn as [Hn1 Hn].
    rewrite sapp_cons. simpl. unfold dot. rewrite Hn1. simpl.
    by rewrite lazy_rest_closed.
Qed.

Lemma name_free_nil (after : string) : name_free "" after.
Proof. intros [|x a] b g; simpl; done. Qed.

Lemma name_free_tail (c : ascii) (lit after : string) :
  name_free (String c lit) after -> name_free lit after.
Proof.
  intros Hf a b g ->. apply (Hf (String c a) b g). by rewrite sapp_cons.
Qed.

Lemma name_free_cons (c : ascii) (lit after : string) :
  name_free lit after ->
  (c = "("%char -> match_group (lit +:+ after) = None) ->
  name_free (String c lit) after.
Proof.
  intros Hf Hc [|x a] b g.
  - rewrite sapp_nil. intros [= -> ->]. rewrite <- match_group_name, Hc; done.
  - rewrite sapp_cons. intros [= -> ->]. by apply (Hf a b g).
Qed.

Lemma findall_name_free (lit after : string) :
  name_free lit after -> findall_from 0 (lit +:+ after) = findall_from 0 after.
Proof.
  induction lit as [|c lit IH]; [done |]. intros Hf.
  rewrite sapp_cons. simpl.
  pose proof (IH (name_free_tail _ _ _ Hf)) as Hrest.
  destruct (Ascii.eqb_spec c "(") as [->|_]; [|done].
  destruct (match_group (lit +:+ after)) as [g|] eqn:E; [|done].
  apply match_group_name in E. by destruct (Hf "" lit g).
Qed.

Lemma scanned_complete (lit : string) (fs : list (string * string)) :
  scanned lit fs -> findall_from 0 (pattern lit fs) = fs.*1.
Proof.
  revert lit. induction fs as [|[name lit'] fs IH]; intros lit.
  - intros [Hf _]. rewrite pattern_fields_text, findall_name_free; done.
  - intros (Hf & Hg & Hs).
    rewrite pattern_fields_text, findall_name_free by done.
    cbn [fields_text findall_from]. rewrite Ascii.eqb_refl.
    assert (match_group (name +:+ String ")" (pattern lit' fs)) = Some name) as ->.
    { apply match_group_name. split; [done |]. by eexists. }
    rewrite fmap_cons. f_equal.
    replace (S (String.length name)) with (String.length (name +:+ ")")).
    + rewrite <- (IH lit' Hs).
      replace (name +:+ String ")" (pattern lit' fs))
        with ((name +:+ ")") +:+ pattern lit' fs) by (by rewrite sapp_assoc).
      apply findall_skip.
    + rewrite slength_app. simpl. lia.
Qed.

Lemma findall_from_scanned (s : string) (skip : nat) :
  exists lit lits,
    List.length lits = List.length (findall_from skip s)
    /\ sdrop skip s = pattern lit (zip (findall_from skip s) lits)
    /\ scanned lit (zip (findall_from skip s) lits).
Proof.
  revert skip. induction s as [|c s IH]; intros skip.
  - exists "", []. split_and!; [by destruct skip | by destruct skip |].
    destruct skip; simpl; (split; [apply name_free_nil | done]).
  - destruct skip as [|k]; [|apply IH]. simpl.
    destruct (Ascii.eqb_spec c "(") as [->|Hc].
    + destruct (match_group s) as [g|] eqn:E.
      * destruct (IH (S (String.length g))) as (lit & lits & Hlen & Hs & Hsc).
        exists "", (lit :: lits). split_and!; [simpl; by rewrite Hlen | |].
        -- simpl. rewrite <- Hs, sapp_nil. f_equal. by apply match_group_Some.
        -- simpl. split_and!; [apply name_free_nil | by eapply match_group_shape | done].
      * destruct (IH 0%nat) as (lit & lits & Hlen & Hs & Hsc).
        exists (String "(" lit), lits. split_and!; [done | |].
        -- rewrite pattern_cons. f_equal. exact Hs.
        -- apply scanned_unfold. apply scanned_unfold in Hsc as [Hf Hrest].
           split; [|done]. apply name_free_cons; [done |].
           intros _. simpl in Hs. by rewrite <- pattern_fields_text, <- Hs.
    + destruct (IH 0%nat) as (lit & lits & Hlen & Hs & Hsc).
      exists (String c lit), lits. split_and!; [done | |].
      * rewrite pattern_cons. f_equal. exact Hs.
      * apply scanned_unfold. apply scanned_unfold in Hsc as [Hf Hrest].
        split; [|done]. apply name_free_cons; done.
Qed.

End ParseScan.

(** X9: whatever the text of the pattern, it is made of literal text
    and of the names that [parse] returns, each in parentheses, in that
    order, and no further name starts in the literal text: at no opening
    parenthesis there does a text follow that has the shape of a name and
    is closed by a parenthesis.  This decides what [parse] returns:
    every reading of the text as such a pattern has the names that
    [parse] returns as its fields.  A name is not empty, holds no line
    feed, and holds no closing parenthesis after its first character. *)
Theorem parse_any_text (fmt : string) :
  (exists lit lits,
     List.length lits = List.length (parse fmt)
     /\ fmt = pattern lit (zip (parse fmt) lits)
     /\ scanned lit (zip (parse fmt) lits))
  /\ (forall lit fs, fmt = pattern lit fs -> scanned lit fs -> parse fmt = fs.*1)
  /\ Forall (fun g => group_shape g = true) (parse fmt).
Proof.
  split_and!.
  - apply (findall_from_scanned fmt 0).
  - intros lit fs -> Hs. by apply scanned_complete.
  - apply findall_from_shape.
Qed.

(** A name may begin with a parenthesis, and a name cut by a line feed
    is passed over. *)
Lemma parse_any_text_witness :
  parse ("((x) (a" +:+ String "010" "b) (m)") = ["(x"; "m"].
Proof.
  refine (proj1 (proj2 (parse_any_text _)) ""
            [("(x", " (a" +:+ String "010" "b) "); ("m", "")] _ _); [reflexivity |].
  cbn [scanned fields_text]. split_and!; try done;
    repeat (apply name_free_cons; [| intros Hc; first [discriminate Hc | reflexivity]]);
    apply name_free_nil.
Defined.

Section MergeFacts.

Lemma od_set_same (k : key) (v : pyval) (d : odict) :
  od_get k d = Some v -> od_set k v d = d.
Proof.
  induction d as [|[k0 v0] d IH]; simpl; [done |].
  destruct (decide (k0 = k)) as [->|Hne]; [by intros [= ->] |].
  intros Hg. by rewrite IH.
Qed.

Lemma od_update_same (d src : odict) :
  (forall k v, (k, v) ∈ src -> od_get k d = Some v) -> od_update d src = d.
Proof.
  induction src as [|[k v] src IH]; intros Hsrc; [done |].
  rewrite od_update_cons. cbn [fst snd].
  rewrite od_set_same by (apply Hsrc; left).
  apply IH. intros k' v' Hin. apply Hsrc. by right.
Qed.

Lemma od_get_elem_of (k : key) (v : pyval) (d : odict) :
  NoDup (od_keys d) -> (k, v) ∈ d -> od_get k d = Some v.
Proof.
  unfold od_keys. induction d as [|[k0 v0] d IH]; simpl.
  - by intros _ ?%elem_of_nil.
  - intros [Hk Hd]%NoDup_cons [[= -> ->]|Hin]%elem_of_cons.
    + by destruct (decide (k0 = k0)).
    + destruct (decide (k0 = k)) as [->|Hne]; [|by apply IH].
      destruct Hk. apply list_elem_of_fmap. by exists (k, v).
Qed.

Lemma extras_elem_of (reserved rd : odict) (k : key) (v : pyval) :
  (k, v) ∈ extras reserved rd <-> (k, v) ∈ rd /\ is_extra reserved k = true.
Proof. unfold extras. rewrite !list_elem_of_In, filter_In. done. Qed.

End MergeFacts.

(** X10: [merge_record_extra] returns its target and changes nothing
    but the target: a key of the event that is neither reserved nor
    private gets the event's value, every other key of the target keeps
    its value.  Integer keys are merged (unless reserved).  Merging an
    event into its own attribute mapping changes nothing, and merging a
    second time changes nothing more. *)
Theorem merge_record_extra_effect (r t : loc) (reserved rd d : odict) (h : store) :
  h !! r = Some rd -> h !! t = Some d -> NoDup (od_keys rd) ->
  exists d',
    merge_record_extra r t reserved h = (inr t, <[t := d']> h)
    /\ (forall k, od_get k d'
          = if is_extra reserved k && od_mem k rd then od_get k rd else od_get k d)
    /\ (forall z v, od_get (KInt z) rd = Some v -> od_mem (KInt z) reserved = false ->
          od_get (KInt z) d' = Some v)
    /\ (t = r -> d' = d)
    /\ merge_record_extra r t reserved (<[t := d']> h) = (inr t, <[t := d']> h).
Proof.
  intros Hr Ht Hnd.
  assert (Hspec : forall d0 h0, h0 !! r = Some rd -> h0 !! t = Some d0 ->
            merge_record_extra r t reserved h0
            = (inr t, <[t := od_update d0 (extras reserved rd)]> h0)).
  { intros d0 h0 Hr0 Ht0. unfold merge_record_extra.
    rewrite bind_unfold. unfold dict_items. rewrite Hr0.
    by rewrite bind_unfold, (extra_loop t reserved rd d0). }
  assert (Hget : forall k, od_get k (od_update d (extras reserved rd))
            = if is_extra reserved k && od_mem k rd then od_get k rd else od_get k d).
  { intros k. rewrite od_get_update by by apply extras_NoDup.
    rewrite od_get_extras. unfold od_mem.
    destruct (is_extra reserved k); simpl; [|done]. by destruct (od_get k rd). }
  assert (Hself : t = r -> od_update d (extras reserved rd) = d).
  { intros ->. rewrite Hr in Ht. injection Ht as <-.
    apply od_update_same. intros k v [Hin _]%extras_elem_of.
    exact (od_get_elem_of k v rd Hnd Hin). }
  exists (od_update d (extras reserved rd)).
  split; [by apply Hspec |]. split; [done |]. split; [|split; [done |]].
  - intros z v Hv Hres. rewrite Hget. unfold is_extra. rewrite Hres. simpl.
    unfold od_mem. by rewrite Hv.
  - assert (Hlt : t < List.length h) by by eapply lookup_lt_Some.
    destruct (decide (t = r)) as [Heq|Hne].
    + rewrite (Hself Heq), (list_insert_id h t d Ht).
      rewrite (Hspec d h) by done. by rewrite (Hself Heq), (list_insert_id h t d Ht).
    + rewrite (Hspec (od_update d (extras reserved rd))).
      * rewrite list_insert_insert_eq. f_equal. f_equal.
        apply od_update_same. intros k v Hin.
        rewrite od_get_update by by apply extras_NoDup.
        by rewrite (od_get_elem_of k v (extras reserved rd)) by (by apply extras_NoDup || done).
      * by rewrite list_lookup_insert_ne.
      * by apply list_lookup_insert_eq.
Qed.

Lemma merge_record_extra_effect_witness :
  exists d',
    merge_record_extra 0 1 RESERVED_ATTR_HASH Scenario.clash
    = (inr 1, <[1 := d']> Scenario.clash)
    /\ (forall k, od_get k d'
          = if is_extra RESERVED_ATTR_HASH k && od_mem k Usage.clash_record
            then od_get k Usage.clash_record
            else od_get k [ (KStr "user", VStr "alice") ])
    /\ (forall z v, od_get (KInt z) Usage.clash_record = Some v ->
          od_mem (KInt z) RESERVED_ATTR_HASH = false -> od_get (KInt z) d' = Some v)
    /\ (1 = 0 -> d' = [ (KStr "user", VStr "alice") ])
    /\ merge_record_extra 0 1 RESERVED_ATTR_HASH (<[1 := d']> Scenario.clash)
       = (inr 1, <[1 := d']> Scenario.clash).
Proof.
  apply (merge_record_extra_effect 0 1 RESERVED_ATTR_HASH Usage.clash_record
           [ (KStr "user", VStr "alice") ] Scenario.clash).
  - reflexivity.
  - reflexivity.
  - apply (bool_decide_unpack _). vm_compute. exact I.
Defined.

Section KeyOrder.

Lemma od_keys_set_eq (k : key) (v : pyval) (d : odict) :
  od_keys (od_set k v d) = if bool_decide (k ∈ od_keys d) then od_keys d else od_keys d ++ [k].
Proof.
  unfold od_keys. induction d as [|[k0 v0] d IH]; cbn [od_set].
  - rewrite bool_decide_eq_false_2 by apply not_elem_of_nil. done.
  - destruct (decide (k0 = k)) as [->|Hne]; rewrite !fmap_cons; cbn [fst].
    + rewrite bool_decide_eq_true_2 by left. done.
    + rewrite IH. destruct (bool_decide (k ∈ d.*1)) eqn:E.
      * apply bool_decide_eq_true_1 in E. rewrite bool_decide_eq_true_2 by by right. done.
      * apply bool_decide_eq_false_1 in E.
        rewrite bool_decide_eq_false_2; [done |].
        intros [?|?]%elem_of_cons; [congruence | done].
Qed.

Lemma filter_ext_elem {A} (P Q : A -> Prop) `{!forall x, Decision (P x)}
    `{!forall x, Decision (Q x)} (l : list A) :
  (forall x, x ∈ l -> P x <-> Q x) -> filter P l = filter Q l.
Proof.
  induction l as [|x l IH]; intros Hpq; [done |].
  rewrite !filter_cons.
  assert (Hx : P x <-> Q x) by (apply Hpq; left).
  rewrite IH by (intros y Hy; apply Hpq; by right).
  destruct (decide (P x)), (decide (Q x)); tauto || done.
Qed.

(** [update] keeps the keys of the dict in place and appends the new
    ones in the order of the source. *)
Lemma od_keys_update_eq (d src : odict) :
  NoDup (od_keys src) ->
  od_keys (od_update d src) = od_keys d ++ filter (.∉ od_keys d) (od_keys src).
Proof.
  revert d. induction src as [|[k v] src IH]; intros d Hnd.
  - unfold od_keys at 3. simpl. by rewrite app_nil_r.
  - unfold od_keys in Hnd. simpl in Hnd. apply NoDup_cons in Hnd as [Hk Hnd].
    rewrite od_update_cons. cbn [fst snd]. rewrite IH by done.
    change (od_keys ((k, v) :: src)) with (k :: od_keys src).
    destruct (decide (k ∈ od_keys d)) as [Hin|Hnin].
    + rewrite od_keys_set_eq, bool_decide_eq_true_2 by done.
      rewrite filter_cons_False by (intros Hn; by apply Hn). done.
    + rewrite od_keys_set_eq, bool_decide_eq_false_2 by done.
      rewrite filter_cons_True by done.
      rewrite <- app_assoc. simpl. do 2 f_equal.
      apply filter_ext_elem. intros x Hx. rewrite elem_of_app, list_elem_of_singleton.
      split; [tauto |]. intros Hn [?| ->]; done.
Qed.

Lemma od_keys_required_part (required : list string) (rd : odict) :
  NoDup required -> od_keys (required_part required rd) = KStr <$> required.
Proof.
  intros Hnd. unfold required_part.
  assert (G : forall d, (forall f, f ∈ required -> KStr f ∉ od_keys d) ->
    od_keys (fold_left (fun d f => od_set (KStr f) (default VNone (od_get (KStr f) rd)) d)
               required d)
    = od_keys d ++ (KStr <$> required)).
  { induction Hnd as [|f required Hf Hnd IH]; intros d Hd; simpl.
    - by rewrite app_nil_r.
    - rewrite IH.
      + rewrite od_keys_set_eq, bool_decide_eq_false_2 by (apply Hd; left).
        by rewrite <- app_assoc.
      + intros f' Hf'. rewrite od_keys_set_eq, bool_decide_eq_false_2 by (apply Hd; left).
        rewrite elem_of_app, list_elem_of_singleton.
        intros [?|[= ->]]; [|done]. apply (Hd f'); [by right | done]. }
  apply (G []). intros f _. unfold od_keys. simpl. apply not_elem_of_nil.
Qed.

End KeyOrder.

(** X11: the keys of the assembled record come in this order: the
    required fields as the pattern lists them (when it lists each once),
    then the keys of the message payload that are not required fields,
    then the merged extra attributes that the payload does not define.  A
    required field for which the event has no attribute and the payload
    no entry is present with the value [None]. *)
Theorem record_key_order `{Host} (kw : init_kwargs) (self : JsonFormatter)
    (r md lr : loc) (h h1 h' : store) :
  JsonFormatter_init kw = inr self -> wf_store h -> NoDup self.(_required_fields) ->
  prepare self r h = (inr md, h1) -> assemble self r h = (inr lr, h') ->
  exists rd pd out,
    h' !! r = Some rd /\ h' !! md = Some pd /\ h' !! lr = Some out
    /\ od_keys out
       = (KStr <$> self.(_required_fields))
         ++ filter (.∉ (KStr <$> self.(_required_fields))) (od_keys pd)
         ++ filter (.∉ od_keys pd) (od_keys (extras self.(_skip_fields) rd))
    /\ (forall f, f ∈ self.(_required_fields) ->
          KStr f ∉ od_keys rd -> KStr f ∉ od_keys pd ->
          od_get (KStr f) out = Some VNone).
Proof.
  intros Hi Hwf Hreq Hp Ha.
  destruct (assemble_fields _ _ _ _ _ _ _ Hwf Hp Ha)
    as (rd & pd & Hrd & Hpd & Hout & _ & _ & Nrd & Npd).
  exists rd, pd, (fields self rd pd). do 3 (split; [done |]). split.
  - unfold fields.
    rewrite od_keys_update_eq by by apply extras_NoDup.
    rewrite od_keys_update_eq by done.
    rewrite od_keys_required_part by done.
    rewrite <- app_assoc. do 2 f_equal.
    apply filter_ext_elem. intros k Hk.
    apply list_elem_of_fmap in Hk as ([k' v] & -> & [Hin He]%extras_elem_of).
    cbn [fst]. apply (is_extra_skip kw) in He as [Hn _]; [|done].
    rewrite elem_of_app, list_elem_of_filter, list_elem_of_fmap.
    split; [tauto |]. intros Hnot [(f & -> & Hf)|[_ ?]]; [|done].
    by destruct (Hn f eq_refl).
  - intros f Hf Hrd' Hpd'. rewrite od_get_fields by done.
    apply od_get_None in Hrd', Hpd'.
    unfold od_mem. rewrite Hrd', Hpd', andb_false_r, od_get_required_part.
    rewrite bool_decide_eq_true_2 by done. by rewrite Hrd'.
Qed.

Lemma record_key_order_witness :
  exists rd pd out,
    (Scenario.assemble_at Scenario.pattern3 Scenario.clash).2 !! 0 = Some rd
    /\ (Scenario.assemble_at Scenario.pattern3 Scenario.clash).2 !! 1 = Some pd
    /\ (Scenario.assemble_at Scenario.pattern3 Scenario.clash).2 !! 3 = Some out
    /\ od_keys out
       = (KStr <$> (Scenario.formatter Scenario.pattern3).(_required_fields))
         ++ filter (.∉ (KStr <$> (Scenario.formatter Scenario.pattern3).(_required_fields)))
              (od_keys pd)
         ++ filter (.∉ od_keys pd)
              (od_keys (extras (Scenario.formatter Scenario.pattern3).(_skip_fields) rd))
    /\ (forall f, f ∈ (Scenario.formatter Scenario.pattern3).(_required_fields) ->
          KStr f ∉ od_keys rd -> KStr f ∉ od_keys pd ->
          od_get (KStr f) out = Some VNone).
Proof.
  apply (@record_key_order Scenario.host (Scenario.kwargs Scenario.pattern3)
           (Scenario.formatter Scenario.pattern3) 0 1 3 Scenario.clash
           (Scenario.prepare_at Scenario.pattern3 Scenario.clash).2).
  - reflexivity.
  - apply (bool_decide_unpack _). vm_compute. exact I.
  - apply (bool_decide_unpack _). vm_compute. exact I.
  - vm_compute. reflexivity.
  - vm_compute. reflexivity.
Defined.

Section FormatFacts.
Context `{Host}.

Lemma prepare_no_asctime (self : JsonFormatter) (r md : loc) (h h1 : store) :
  prepare self r h = (inr md, h1) ->
  "asctime" ∉ self.(_required_fields) ->
  attr h1 r (KStr "asctime") = attr h r (KStr "asctime").
Proof.
  intros Hp Hn. pose proof (prepare_shape _ _ _ _ _ Hp) as (_ & Hl & _).
  destruct (prepare_inr _ _ _ _ _ Hp)
    as (msg & ei & hb & hc & hd & Hmsg & Hb & Hc & Hei & Hmd & Hd & H1).
  simpl in *.
  assert (Eb : attr hb r (KStr "asctime") = attr h r (KStr "asctime")).
  { rewrite <- (attr_app h [] r _ Hl).
    destruct msg; destruct Hb as [_ Hb]; try destruct Hb as (? & _ & Hb); subst hb;
      apply attr_store_set_ne; frame_ne. }
  rewrite bool_decide_eq_false_2 in Hc by done. subst hc.
  assert (Ed : attr hd r (KStr "asctime") = attr h r (KStr "asctime")).
  { rewrite <- Eb. subst hd. destruct (_ && _); [|done]. apply attr_store_set_ne; frame_ne. }
  rewrite <- Ed. destruct (truthy hd _); [by subst h1 |].
  destruct H1 as (et & _ & ->). destruct (truthy hd et); [|done]. apply attr_store_set_ne; frame_ne.
Qed.

(** [format] leaves the store as [assemble] does, whatever the serializer
    answers. *)
Lemma format_after_assemble (self : JsonFormatter) (r lr : loc) (h h' : store) :
  assemble self r h = (inr lr, h') ->
  format self r h
  = (match self.(json_serializer) None h' (VDict lr) with
     | inr body => inr (self.(prefix) +:+ body)
     | inl e => inl e
     end, h').
Proof.
  intros Ha. unfold format. rewrite bind_unfold, Ha.
  unfold jsonify_log_record. rewrite bind_unfold. unfold reading.
  by destruct (json_serializer self None h' (VDict lr)).
Qed.

Lemma sequence_inl {A} (xs : list (exn + A)) (e : exn) :
  inl e ∈ xs -> exists e', sequence xs = inl e'.
Proof.
  induction xs as [|x xs IH]; [by intros ?%elem_of_nil |].
  intros [<-|Hin]%elem_of_cons; simpl; [eauto |].
  destruct x as [e0|a]; [eauto |].
  destruct (IH Hin) as [e' ->]. eauto.
Qed.

Lemma sequence_inr {A B} (f : A -> exn + B) (g : A -> option B) (xs : list A) (ys : list B) :
  (forall x y, g x = Some y -> f x = inr y) ->
  mapM g xs = Some ys -> sequence (map f xs) = inr ys.
Proof.
  intros Hfg. revert ys. induction xs as [|x xs IH]; intros ys; simpl.
  - by intros [= <-].
  - destruct (g x) as [y|] eqn:Hx; [|done]. simpl.
    destruct (mapM g xs) as [ys'|]; [|done]. simpl. intros [= <-].
    by rewrite (Hfg x y Hx), (IH ys').
Qed.

Lemma json_encode_foreign (n : nat) (h : store) (markers : list loc) (v : pyval) :
  json_native v = false ->
  json_encode (S n) None h markers v = inl (TypeError "Object is not JSON serializable").
Proof. by destruct v as [|[]| | | | | | | | | | |]. Qed.

Lemma json_encode_atom (n : nat) (default : option fallback) (h : store) (markers : list loc)
    (v : pyval) (s : string) :
  json_atom v = Some s -> json_encode (S n) default h markers v = inr s.
Proof. destruct v as [|[]| | | | | | | | | | |]; simpl; by intros [= <-]. Qed.

Lemma json_encode_dict_foreign (n : nat) (h : store) (l : loc) (d : odict) (k : key)
    (v : pyval) :
  h !! l = Some d -> (k, v) ∈ d -> json_native v = false ->
  exists e, json_encode (S (S n)) None h [] (VDict l) = inl e.
Proof.
  intros Hd Hin Hv. cbn [json_encode].
  rewrite bool_decide_eq_false_2 by apply not_elem_of_nil. rewrite Hd.
  destruct (sequence_inl
    (map (fun kv : key * pyval =>
       match json_encode (S n) None h [l] kv.2 with
       | inl e => inl e
       | inr v0 => inr (json_key kv.1 +:+ ": " +:+ v0)
       end) d) (TypeError "Object is not JSON serializable")) as [e He]; [|].
  - apply list_elem_of_In, in_map_iff. exists (k, v). split; [|by apply list_elem_of_In].
    cbn [snd]. by rewrite json_encode_foreign.
  - exists e. cbn [json_encode] in He. by rewrite He.
Qed.

Lemma json_encode_dict_flat (n : nat) (default : option fallback) (h : store) (l : loc)
    (d : odict) (items : list string) :
  h !! l = Some d -> mapM json_member d = Some items ->
  json_encode (S (S n)) default h [] (VDict l) = inr ("{" +:+ join ", " items +:+ "}").
Proof.
  intros Hd Hitems.
  assert (Hseq : sequence (map (fun kv : key * pyval =>
            match json_encode (S n) default h [l] kv.2 with
            | inl e => inl e
            | inr v0 => inr (json_key kv.1 +:+ ": " +:+ v0)
            end) d) = inr items).
  { apply (sequence_inr _ json_member); [|done].
    intros [k v] y. unfold json_member. cbn [fst snd].
    destruct (json_atom v) as [s|] eqn:Hs; [|done]. cbn [mbind option_bind]. intros [= <-].
    by rewrite (json_encode_atom _ _ _ _ v s). }
  cbn [json_encode] in *.
  rewrite bool_decide_eq_false_2 by apply not_elem_of_nil. by rewrite Hd, Hseq.
Qed.

Lemma json_dumps_foreign (h : store) (l : loc) (d : odict) (k : key) (v : pyval) :
  h !! l = Some d -> (k, v) ∈ d -> json_native v = false ->
  exists e, json_dumps None h (VDict l) = inl e.
Proof.
  intros Hd Hin Hv. unfold json_dumps. change recursion_limit with (S (S 998)).
  by eapply json_encode_dict_foreign.
Qed.

Lemma json_dumps_flat (default : option fallback) (h : store) (l : loc) (d : odict)
    (items : list string) :
  h !! l = Some d -> mapM json_member d = Some items ->
  json_dumps default h (VDict l) = inr ("{" +:+ join ", " items +:+ "}").
Proof.
  intros Hd Hitems. unfold json_dumps. change recursion_limit with (S (S 998)).
  by eapply json_encode_dict_flat.
Qed.

Lemma init_prefix (kw : init_kwargs) (self : JsonFormatter) :
  JsonFormatter_init kw = inr self -> self.(prefix) = default "" kw.(kw_prefix).
Proof.
  unfold JsonFormatter_init, Formatter_init.
  destruct (kw_json_serializer kw); [intros [=] |].
  destruct (valid_fmt _); [|intros [=]].
  intros Hs%(inj inr). subst self. reflexivity.
Qed.

End FormatFacts.

(** X12: [format] allocates two mappings (one for the payload of a
    plain message, one for the record) and, among the objects that
    existed, changes at most the [message] and [asctime] attributes of
    the event and the [exc_info] entry of the mapping logged as the
    message; [asctime] is left alone when the pattern does not ask for it.
    This holds whether the serializer then succeeds or raises. *)
Theorem format_frame `{Host} (self : JsonFormatter) (r lr : loc) (h h' : store)
    (msg : pyval) :
  assemble self r h = (inr lr, h') -> attr h r (KStr "msg") = Some msg ->
  (exists res, format self r h = (res, h'))
  /\ List.length h' = S (S (List.length h)) /\ lr = S (List.length h)
  /\ (forall l k, l < List.length h ->
        ~ (l = r /\ (k = KStr "message" \/ k = KStr "asctime")) ->
        ~ (msg = VDict l /\ k = KStr "exc_info") ->
        attr h' l k = attr h l k)
  /\ ("asctime" ∉ self.(_required_fields) ->
      attr h' r (KStr "asctime") = attr h r (KStr "asctime")).
Proof.
  intros Ha Hmsg.
  destruct (assemble_inr _ _ _ _ _ Ha) as (md & h1 & rd & pd & Hp & Hrd & Hpd & -> & ->).
  destruct (prepare_shape _ _ _ _ _ Hp) as (Hlen & Hr & Hmd & _).
  split; [eexists; by apply format_after_assemble |].
  split; [rewrite length_app, Hlen; simpl; lia |]. split; [done |]. split.
  - intros l k Hl Hnr Hnm. rewrite attr_app by lia.
    apply (prepare_frame self r md h h1 l k Hp Hl Hnr).
    intros [-> ->]. destruct (prepare_message _ _ _ _ _ Hp) as (msg' & v & Hmsg' & _ & Hcase).
    rewrite Hmsg in Hmsg'. injection Hmsg' as <-.
    destruct msg; destruct Hcase as [Hmd' _]; try lia.
    apply Hnm. by subst.
  - intros Hn. rewrite attr_app by lia. by apply (prepare_no_asctime self r md).
Qed.

Lemma format_frame_witness :
  (exists res, Scenario.format_at Scenario.pattern3 Scenario.failed
               = (res, (Scenario.assemble_at Scenario.pattern3 Scenario.failed).2))
  /\ List.length (Scenario.assemble_at Scenario.pattern3 Scenario.failed).2 = 4
  /\ 3 = 3
  /\ (forall l k, l < 2 ->
        ~ (l = 0 /\ (k = KStr "message" \/ k = KStr "asctime")) ->
        ~ (VDict 1 = VDict l /\ k = KStr "exc_info") ->
        attr (Scenario.assemble_at Scenario.pattern3 Scenario.failed).2 l k
        = attr Scenario.failed l k)
  /\ ("asctime" ∉ (Scenario.formatter Scenario.pattern3).(_required_fields) ->
      attr (Scenario.assemble_at Scenario.pattern3 Scenario.failed).2 0 (KStr "asctime")
      = attr Scenario.failed 0 (KStr "asctime")).
Proof.
  apply (@format_frame Scenario.host (Scenario.formatter Scenario.pattern3) 0 3
           Scenario.failed (Scenario.assemble_at Scenario.pattern3 Scenario.failed).2
           (VDict 1)).
  - vm_compute. reflexivity.
  - vm_compute. reflexivity.
Defined.

(** X14: if the assembled record holds, at its top level, a value that
    the JSON encoder does not handle by itself (a date, a time, a
    traceback, an exception or any other object), [format] raises, after
    having changed the event and the payload as [assemble] does. *)
Theorem format_rejects_foreign_values `{Host} (kw : init_kwargs) (self : JsonFormatter)
    (r lr : loc) (h h' : store) (out : odict) (k : key) (v : pyval) :
  JsonFormatter_init kw = inr self ->
  assemble self r h = (inr lr, h') -> h' !! lr = Some out ->
  (k, v) ∈ out -> json_native v = false ->
  exists e, format self r h = (inl e, h').
Proof.
  intros (_ & Hs & _)%init_inr Ha Hout Hin Hv.
  rewrite (format_after_assemble self r lr h h' Ha), Hs.
  destruct (json_dumps_foreign h' lr out k v Hout Hin Hv) as [e ->]. eauto.
Qed.

Lemma format_rejects_foreign_values_witness :
  exists e,
    Scenario.format_at "(message)" Scenario.dated
    = (inl e, (Scenario.assemble_at "(message)" Scenario.dated).2).
Proof.
  apply (@format_rejects_foreign_values Scenario.host (Scenario.kwargs "(message)")
           (Scenario.formatter "(message)") 0 3 Scenario.dated
           (Scenario.assemble_at "(message)" Scenario.dated).2
           [ (KStr "message", VNone); (KStr "when", VDate 2020 3 14) ]
           (KStr "when") (VDate 2020 3 14)).
  - reflexivity.
  - vm_compute. reflexivity.
  - vm_compute. reflexivity.
  - apply list_elem_of_In. right. left. reflexivity.
  - reflexivity.
Defined.

(** X15: if every value of the assembled record is [None], a boolean,
    an integer or a string, [format] returns the prefix given to the
    constructor (the empty string by default) followed by one JSON object
    whose members are the entries of the record, in the order of the
    record. *)
Theorem format_flat_record `{Host} (kw : init_kwargs) (self : JsonFormatter)
    (r lr : loc) (h h' : store) (out : odict) (items : list string) :
  JsonFormatter_init kw = inr self ->
  assemble self r h = (inr lr, h') -> h' !! lr = Some out ->
  mapM json_member out = Some items ->
  format self r h
  = (inr (default "" kw.(kw_prefix) +:+ "{" +:+ join ", " items +:+ "}"), h').
Proof.
  intros Hi Ha Hout Hitems. pose proof (init_prefix kw self Hi) as Hp.
  apply init_inr in Hi as (_ & Hs & _).
  rewrite (format_after_assemble self r lr h h' Ha), Hs, Hp.
  by rewrite (json_dumps_flat None h' lr out items Hout Hitems).
Qed.

Lemma format_flat_record_witness :
  Scenario.format_at Scenario.pattern3 Scenario.login
  = (inr ("" +:+ "{" +:+ join ", "
            [ json_string "asctime" +:+ ": " +:+ json_string "2020-03-14 11:42:33,007";
              json_string "levelname" +:+ ": " +:+ json_string "INFO";
              json_string "message" +:+ ": " +:+ "null";
              json_string "user" +:+ ": " +:+ json_string "alice";
              json_string "action" +:+ ": " +:+ json_string "login" ] +:+ "}"),
     (Scenario.assemble_at Scenario.pattern3 Scenario.login).2).
Proof.
  apply (@format_flat_record Scenario.host (Scenario.kwargs Scenario.pattern3)
           (Scenario.formatter Scenario.pattern3) 0 3 Scenario.login
           (Scenario.assemble_at Scenario.pattern3 Scenario.login).2
           [ (KStr "asctime", VStr "2020-03-14 11:42:33,007");
             (KStr "levelname", VStr "INFO"); (KStr "message", VNone);
             (KStr "user", VStr "alice"); (KStr "action", VStr "login") ]).
  - reflexivity.
  - vm_compute. reflexivity.
  - vm_compute. reflexivity.
  - vm_compute. reflexivity.
Defined.

Section Forward.
Context `{Host}.

Lemma getattr_Some (s : store) (l : loc) (name : string) (v : pyval) :
  attr s l (KStr name) = Some v -> getattr l name s = (inr v, s).
Proof.
  unfold attr, getattr. rewrite bind_unfold. unfold dict_items.
  destruct (s !! l) as [d|]; [|done]. simpl. by intros ->.
Qed.

Lemma setattr_Some (s : store) (l : loc) (name : string) (v : pyval) :
  is_Some (s !! l) -> setattr l name v s = (inr tt, store_set l (KStr name) v s).
Proof. intros [d Hd]. unfold setattr, dict_setitem, store_set. by rewrite Hd. Qed.

Lemma dict_setitem_store (s : store) (l : loc) (k : key) (v : pyval) :
  is_Some (s !! l) -> dict_setitem l k v s = (inr tt, store_set l k v s).
Proof. intros [d Hd]. unfold dict_setitem, store_set. by rewrite Hd. Qed.

Lemma dict_get_Some (s : store) (l : loc) (k : key) :
  is_Some (s !! l) -> dict_get l k s = (inr (default VNone (attr s l k)), s).
Proof.
  intros [d Hd]. unfold dict_get, attr. rewrite bind_unfold. unfold dict_items.
  by rewrite Hd.
Qed.

(** The part of [prepare] that follows the setting of [message]. *)
Lemma prepare_rest_succeeds (self : JsonFormatter) (r md : loc) (s : store) (ei et : pyval) :
  r < List.length s -> md < List.length s ->
  attr s r (KStr "exc_info") = Some ei -> attr s r (KStr "exc_text") = Some et ->
  ("asctime" ∈ self.(_required_fields) ->
   exists t, formatTime s r self.(datefmt) = inr t) ->
  exists h1,
    ((if bool_decide ("asctime" ∈ self.(_required_fields))
      then t ← reading (fun h => formatTime h r self.(datefmt));
           setattr r "asctime" (VStr t)
      else ret tt);;
     shown ←
       (exc_info ← getattr r "exc_info";
        has_exc ← is_true exc_info;
        if has_exc : bool
        then given ← dict_get md (KStr "exc_info");
             has_given ← is_true given;
             ret (negb has_given)
        else ret false);
     (if shown : bool
      then exc_info ← getattr r "exc_info";
           dict_setitem md (KStr "exc_info") (VStr (formatException exc_info))
      else ret tt);;
     cached ←
       (given ← dict_get md (KStr "exc_info");
        has_given ← is_true given;
        if has_given : bool
        then ret false
        else exc_text ← getattr r "exc_text"; is_true exc_text);
     (if cached : bool
      then exc_text ← getattr r "exc_text";
           dict_setitem md (KStr "exc_info") exc_text
      else ret tt);;
     ret md) s = (inr md, h1).
Proof.
  intros Hr Hmd Hei Het Htime.
  rewrite bind_unfold.
  (* the time *)
  assert (Hstep : exists hc,
    (if bool_decide ("asctime" ∈ self.(_required_fields))
     then t ← reading (fun h => formatTime h r self.(datefmt)); setattr r "asctime" (VStr t)
     else ret tt) s = (inr tt, hc)
    /\ List.length hc = List.length s
    /\ attr hc r (KStr "exc_info") = Some ei /\ attr hc r (KStr "exc_text") = Some et).
  { destruct (bool_decide_reflect ("asctime" ∈ self.(_required_fields))) as [Hin|Hout].
    - destruct (Htime Hin) as [t Ht].
      exists (store_set r (KStr "asctime") (VStr t) s).
      rewrite bind_unfold. unfold reading. rewrite Ht.
      rewrite setattr_Some by (by apply lookup_lt_is_Some).
      split; [done |]. split; [by rewrite length_store_set |].
      rewrite !attr_store_set_ne by (intros [_ ?]; done). done.
    - exists s. done. }
  destruct Hstep as (hc & -> & Hlc & Heic & Hetc). clear Hei Het.
  assert (Hmdc : is_Some (hc !! md)) by (apply lookup_lt_is_Some; lia).
  (* the exception info *)
  rewrite bind_unfold.
  assert (Hshown :
    (exc_info ← getattr r "exc_info";
     has_exc ← is_true exc_info;
     if has_exc : bool
     then given ← dict_get md (KStr "exc_info");
          has_given ← is_true given;
          ret (negb has_given)
     else ret false) hc
    = (inr (truthy hc ei && negb (truthy hc (default VNone (attr hc md (KStr "exc_info"))))),
       hc)).
  { rewrite bind_unfold, (getattr_Some hc r "exc_info" ei) by done.
    rewrite bind_unfold. unfold is_true at 1, reading at 1.
    destruct (truthy hc ei); [|done].
    rewrite bind_unfold, dict_get_Some by done.
    rewrite bind_unfold. unfold is_true, reading. done. }
  rewrite Hshown. clear Hshown. rewrite bind_unfold.
  assert (Hset : exists hd,
    (if truthy hc ei && negb (truthy hc (default VNone (attr hc md (KStr "exc_info"))))
     then exc_info ← getattr r "exc_info";
          dict_setitem md (KStr "exc_info") (VStr (formatException exc_info))
     else ret tt) hc = (inr tt, hd)
    /\ List.length hd = List.length s
    /\ attr hd r (KStr "exc_text") = Some et).
  { destruct (_ && _).
    - exists (store_set md (KStr "exc_info") (VStr (formatException ei)) hc).
      rewrite bind_unfold, (getattr_Some hc r "exc_info" ei) by done.
      rewrite dict_setitem_store by done. split; [done |].
      split; [by rewrite length_store_set |].
      rewrite attr_store_set_ne by (intros [_ ?]; done). done.
    - exists hc. done. }
  destruct Hset as (hd & -> & Hld & Hetd).
  assert (Hmdd : is_Some (hd !! md)) by (apply lookup_lt_is_Some; lia).
  (* the cached text *)
  rewrite bind_unfold.
  assert (Hcached :
    (given ← dict_get md (KStr "exc_info");
     has_given ← is_true given;
     if has_given : bool
     then ret false
     else exc_text ← getattr r "exc_text"; is_true exc_text) hd
    = (inr (if truthy hd (default VNone (attr hd md (KStr "exc_info")))
            then false else truthy hd et), hd)).
  { rewrite bind_unfold, dict_get_Some by done.
    rewrite bind_unfold. unfold is_true at 1, reading at 1.
    destruct (truthy hd _); [done |].
    rewrite bind_unfold, (getattr_Some hd r "exc_text" et) by done. done. }
  rewrite Hcached. clear Hcached. rewrite bind_unfold.
  destruct (if truthy hd _ then false else truthy hd et).
  - rewrite bind_unfold, (getattr_Some hd r "exc_text" et) by done.
    rewrite dict_setitem_store by done. eexists. reflexivity.
  - eexists. reflexivity.
Qed.

Lemma prepare_succeeds (self : JsonFormatter) (r : loc) (h : store) (msg ei et : pyval) :
  attr h r (KStr "msg") = Some msg ->
  attr h r (KStr "exc_info") = Some ei ->
  attr h r (KStr "exc_text") = Some et ->
  match msg with
  | VDict l => l < List.length h
  | _ => exists m, getMessage r (h ++ [[]]) = (inr m, h ++ [[]])
  end ->
  ("asctime" ∈ self.(_required_fields) ->
   forall v, exists t,
     formatTime (store_set r (KStr "message") v (h ++ [[]])) r self.(datefmt) = inr t) ->
  exists md h1, prepare self r h = (inr md, h1).
Proof.
  intros Hmsg Hei Het Hm Htime.
  pose proof (attr_is_Some _ _ _ _ Hmsg) as Hr.
  set (ha := h ++ [[]]) in *.
  assert (Hla : List.length ha = S (List.length h)).
  { unfold ha. rewrite length_app. simpl. lia. }
  assert (Hattr_a : forall k, attr ha r k = attr h r k) by (intros; by apply attr_app).
  assert (Hra : is_Some (ha !! r)) by (apply lookup_lt_is_Some; lia).
  assert (Hrest : forall md v, md < List.length ha ->
    exists h1,
      ((if bool_decide ("asctime" ∈ self.(_required_fields))
        then t ← reading (fun h => formatTime h r self.(datefmt));
             setattr r "asctime" (VStr t)
        else ret tt);;
       shown ←
         (exc_info ← getattr r "exc_info";
          has_exc ← is_true exc_info;
          if has_exc : bool
          then given ← dict_get md (KStr "exc_info");
               has_given ← is_true given;
               ret (negb has_given)
          else ret false);
       (if shown : bool
        then exc_info ← getattr r "exc_info";
             dict_setitem md (KStr "exc_info") (VStr (formatException exc_info))
        else ret tt);;
       cached ←
         (given ← dict_get md (KStr "exc_info");
          has_given ← is_true given;
          if has_given : bool
          then ret false
          else exc_text ← getattr r "exc_text"; is_true exc_text);
       (if cached : bool
        then exc_text ← getattr r "exc_text";
             dict_setitem md (KStr "exc_info") exc_text
        else ret tt);;
       ret md) (store_set r (KStr "message") v ha) = (inr md, h1)).
  { intros md v Hmd. apply (prepare_rest_succeeds self r md _ ei et).
    - rewrite length_store_set. lia.
    - by rewrite length_store_set.
    - rewrite attr_store_set_ne by (intros [_ ?]; done). by rewrite Hattr_a.
    - rewrite attr_store_set_ne by (intros [_ ?]; done). by rewrite Hattr_a.
    - intros Hin. apply (Htime Hin v). }
  unfold prepare. rewrite bind_unfold. unfold new_dict. fold ha.
  rewrite bind_unfold, (getattr_Some ha r "msg" msg) by by rewrite Hattr_a.
  rewrite bind_unfold.
  destruct msg as [| | | | | |l| | | | | |].
  7: { rewrite bind_unfold, setattr_Some by done. cbn [mret M_ret ret].
       destruct (Hrest l VNone ltac:(lia)) as [h1 Hh1]. exists l, h1. exact Hh1. }
  all: destruct Hm as [m' Hm]; rewrite bind_unfold, Hm, bind_unfold, setattr_Some by done.
  all: cbn [mret M_ret ret].
  all: destruct (Hrest (List.length h) (VStr m') ltac:(lia)) as [h1 Hh1].
  all: exists (List.length h), h1; exact Hh1.
Qed.

End Forward.

(** X13: on an event that has the attributes [msg], [exc_info] and
    [exc_text], whose message is a mapping of the store or renders
    without error, and whose time renders without error when [asctime]
    is required, everything in [format] before the serialization
    succeeds: [format] returns what the serializer returns on the
    assembled record (with the prefix in front), or raises what it
    raises. *)
Theorem format_reaches_serializer `{Host} (self : JsonFormatter) (r : loc) (h : store)
    (msg ei et : pyval) :
  attr h r (KStr "msg") = Some msg ->
  attr h r (KStr "exc_info") = Some ei ->
  attr h r (KStr "exc_text") = Some et ->
  match msg with
  | VDict l => l < List.length h
  | _ => exists m, getMessage r (h ++ [[]]) = (inr m, h ++ [[]])
  end ->
  ("asctime" ∈ self.(_required_fields) ->
   forall v, exists t,
     formatTime (store_set r (KStr "message") v (h ++ [[]])) r self.(datefmt) = inr t) ->
  exists lr h',
    assemble self r h = (inr lr, h')
    /\ format self r h
       = (match self.(json_serializer) None h' (VDict lr) with
          | inr body => inr (self.(prefix) +:+ body)
          | inl e => inl e
          end, h').
Proof.
  intros Hmsg Hei Het Hm Htime.
  destruct (prepare_succeeds self r h msg ei et) as (md & h1 & Hp); try done.
  destruct (prepare_shape _ _ _ _ _ Hp) as (Hlen & Hr & Hmd & _).
  assert (is_Some (h1 !! r)) as [rd Hrd] by (apply lookup_lt_is_Some; lia).
  assert (is_Some (h1 !! md)) as [pd Hpd] by (by apply lookup_lt_is_Some).
  assert (Ha : assemble self r h = (inr (List.length h1), h1 ++ [fields self rd pd])).
  { unfold assemble. rewrite bind_unfold, Hp, bind_unfold. unfold new_dict.
    rewrite bind_unfold, (add_fields_spec self _ r md rd pd).
    - unfold process_log_record. by rewrite insert_app_r_alt, Nat.sub_diag by done.
    - lia.
    - lia.
    - by rewrite lookup_app_r, Nat.sub_diag by done.
    - by rewrite lookup_app_l by lia.
    - by rewrite lookup_app_l by lia. }
  eexists _, _. split; [exact Ha |]. by apply format_after_assemble.
Qed.

Lemma format_reaches_serializer_witness :
  exists lr h',
    Scenario.assemble_at Scenario.pattern3 Scenario.hello = (inr lr, h')
    /\ Scenario.format_at Scenario.pattern3 Scenario.hello
       = (match (Scenario.formatter Scenario.pattern3).(json_serializer) None h' (VDict lr) with
          | inr body => inr ((Scenario.formatter Scenario.pattern3).(prefix) +:+ body)
          | inl e => inl e
          end, h').
Proof.
  apply (@format_reaches_serializer Scenario.host (Scenario.formatter Scenario.pattern3) 0
           Scenario.hello (VStr "hello") VNone VNone).
  - vm_compute. reflexivity.
  - vm_compute. reflexivity.
  - vm_compute. reflexivity.
  - exists "hello". vm_compute. reflexivity.
  - intros _ v. exists "2020-03-14 11:42:33,007". vm_compute. reflexivity.
Defined.

(** ** The view decorator *)

(** X16: the wrapper built by [situ_log_request] starts the view with
    [request.ALOG_DATA] bound to a fresh empty mapping and nothing else
    changed; whether the view returns or raises, the logger is then
    called once with what [request.ALOG_DATA] holds at that moment, and
    the outcome of the view is passed on, unless the logging call raises
    (its exception then replaces the outcome) or the view removed the
    attribute (the wrapper then raises without calling the logger). *)
Theorem log_request_always_logs {A} (info : pyval -> M unit) (view_func : loc -> M A)
    (request : loc) (h : store) :
  is_Some (h !! request) ->
  let fresh := List.length h in
  let h0 := store_set request (KStr "ALOG_DATA") (VDict fresh) (h ++ [[]]) in
  let outcome := view_func request h0 in
  (attr h0 request (KStr "ALOG_DATA") = Some (VDict fresh) /\ h0 !! fresh = Some []
   /\ forall l k, l < fresh -> (l, k) <> (request, KStr "ALOG_DATA") -> attr h0 l k = attr h l k)
  /\ (forall data, attr outcome.2 request (KStr "ALOG_DATA") = Some data ->
      situ_log_request info view_func request h
      = (match (info data outcome.2).1 with
         | inl e => inl e
         | inr _ => outcome.1
         end, (info data outcome.2).2))
  /\ (attr outcome.2 request (KStr "ALOG_DATA") = None ->
      exists e, situ_log_request info view_func request h = (inl e, outcome.2)).
Proof.
  intros Hreq. cbv zeta.
  assert (Hlt : request < List.length h) by by apply lookup_lt_is_Some.
  assert (Ha : is_Some ((h ++ [[]]) !! request)).
  { apply lookup_lt_is_Some. rewrite length_app. lia. }
  assert (Hbody : (data ← new_dict [];
                   setattr request "ALOG_DATA" (VDict data);;
                   view_func request) h
          = view_func request
              (store_set request (KStr "ALOG_DATA") (VDict (List.length h)) (h ++ [[]]))).
  { rewrite bind_unfold. unfold new_dict. rewrite bind_unfold.
    unfold setattr, dict_setitem, store_set. destruct Ha as [d ->]. done. }
  split; [|split].
  - split; [by apply attr_store_set_eq |]. split.
    + unfold store_set. destruct Ha as [d Hd]. rewrite Hd.
      rewrite list_lookup_insert_ne by lia.
      by rewrite lookup_app_r, Nat.sub_diag.
    + intros l k Hl Hne. rewrite attr_store_set_ne by (intros [<- <-]; done).
      by apply attr_app.
  - intros data Hdata. unfold situ_log_request. cbv zeta. rewrite Hbody.
    set (o := view_func request _) in *.
    rewrite bind_unfold. unfold getattr. rewrite bind_unfold. unfold dict_items.
    unfold attr in Hdata. destruct (o.2 !! request) as [d|]; [|done].
    simpl in Hdata. rewrite Hdata. done.
  - intros Hnone. unfold situ_log_request. cbv zeta. rewrite Hbody.
    set (o := view_func request _) in *.
    rewrite bind_unfold. unfold getattr. rewrite bind_unfold. unfold dict_items.
    unfold attr in Hnone. destruct (o.2 !! request) as [d|]; [|eauto].
    simpl in Hnone. rewrite Hnone. eauto.
Qed.

Lemma log_request_always_logs_witness :
  situ_log_request Usage.keeping_logger Usage.failing_view 0 Usage.request_store
  = (inl (ValueError "boom"),
     [ [ (KStr "path", VStr "/login"); (KStr "ALOG_DATA", VDict 1);
         (KStr "logged", VDict 1) ];
       [ (KStr "user", VStr "alice") ] ]).
Proof.
  rewrite (proj1 (proj2 (log_request_always_logs Usage.keeping_logger Usage.failing_view 0
                           Usage.request_store (ex_intro _ _ eq_refl))) (VDict 1)).
  - reflexivity.
  - reflexivity.
Defined.
